(** * lumenchat369: the agent orchestrator, its rolling memory and its notes

    A shallow embedding of [lib/agentOrchestrator.js], [lib/memorySystem.js]
    and [lib/notesManager.js], followed by the properties of the
    orchestration loop, of the memory window and of the two persisted stores.

    Conventions of the embedding.
    - A JavaScript string is a [string]; each [ascii] stands for one code
      unit in the range U+0000..U+00FF.  The box-drawing rule of the section
      headings is outside that range and appears as its UTF-8 bytes; no
      length is ever taken of a heading.
    - An [async] function is a computation in the monad [Js.M]: it threads
      the [world] (the two files, the clock, the record of the calls made
      to the collaborators) and ends with a value or with a thrown error.
    - What the program cannot decide (the language model, the approval of
      the user, the shell, the clock, [JSON.stringify] on a prompt) is an
      oracle of the record [env]: the theorems quantify over the oracles,
      the scenarios fix them. *)

From Stdlib Require Import String Ascii List Arith Bool Lia DecimalString Sorted.
Import ListNotations.
Open Scope list_scope.
Open Scope string_scope.

(* ================================================================== *)
(** ** Strings as JavaScript uses them *)

Module Str.

Definition LF : ascii := "010"%char.
Definition CR : ascii := "013"%char.
Definition nl : string := String LF "".

Definition code (c : ascii) : nat := nat_of_ascii c.

(** The class [\s] on U+0000..U+00FF: TAB, LF, VT, FF, CR, SPACE, NBSP. *)
Definition isSpace (c : ascii) : bool :=
  let n := code c in
  (((9 <=? n) && (n <=? 13)) || (n =? 32) || (n =? 160))%nat.

(** The characters that [.] does not match. *)
Definition isLineTerminator (c : ascii) : bool :=
  let n := code c in ((n =? 10) || (n =? 13))%nat.

(** The class [\d]. *)
Definition isDigit (c : ascii) : bool :=
  let n := code c in ((48 <=? n) && (n <=? 57))%nat.

Definition lowerChar (c : ascii) : ascii :=
  let n := code c in
  if (((65 <=? n) && (n <=? 90))
      || ((192 <=? n) && (n <=? 222) && negb (n =? 215)))%nat
  then ascii_of_nat (n + 32) else c.

(** [s.toLowerCase()] *)
Fixpoint toLowerCase (s : string) : string :=
  match s with
  | EmptyString => EmptyString
  | String c r => String (lowerChar c) (toLowerCase r)
  end.

(** [s.indexOf(pat)], [None] for -1. *)
Definition indexOf (pat s : string) : option nat := index 0 pat s.

(** [s.includes(pat)] *)
Definition includes (s pat : string) : bool :=
  match indexOf pat s with Some _ => true | None => false end.

(** [s.startsWith(pat)] *)
Definition startsWith (s pat : string) : bool := prefix pat s.

(** [s.substring(from)] *)
Fixpoint drop (n : nat) (s : string) : string :=
  match n, s with
  | O, _ => s
  | S _, EmptyString => EmptyString
  | S k, String _ r => drop k r
  end.

(** [s.substring(0, n)] *)
Definition take (n : nat) (s : string) : string := substring 0 n s.

Fixpoint takeWhile (p : ascii -> bool) (s : string) : string :=
  match s with
  | EmptyString => EmptyString
  | String c r => if p c then String c (takeWhile p r) else EmptyString
  end.

Fixpoint dropWhile (p : ascii -> bool) (s : string) : string :=
  match s with
  | EmptyString => EmptyString
  | String c r => if p c then dropWhile p r else s
  end.

Fixpoint rev_onto (s acc : string) : string :=
  match s with
  | EmptyString => acc
  | String c r => rev_onto r (String c acc)
  end.

Definition rev (s : string) : string := rev_onto s "".

(** [s.trim()] *)
Definition trim (s : string) : string :=
  rev (dropWhile isSpace (rev (dropWhile isSpace s))).

(** [s.split(sep)] for a separator of one character. *)
Fixpoint split_from (sep : ascii) (s cur : string) : list string :=
  match s with
  | EmptyString => [rev cur]
  | String c r =>
      if Ascii.eqb c sep then rev cur :: split_from sep r ""
      else split_from sep r (String c cur)
  end.

Definition split (sep : ascii) (s : string) : list string :=
  split_from sep s "".

(** [s.split(/\s+/)]: the pieces between the maximal runs of white space,
    an empty piece at either end when the string starts or ends with
    white space.  [cur] is the piece being read (reversed), [in_ws] says
    that the last character read was white space. *)
Fixpoint split_ws_from (s cur : string) (in_ws : bool) : list string :=
  match s with
  | EmptyString => [rev cur]
  | String c r =>
      if isSpace c then
        if in_ws then split_ws_from r "" true
        else rev cur :: split_ws_from r "" true
      else split_ws_from r (String c cur) false
  end.

Definition split_ws (s : string) : list string := split_ws_from s "" false.

(** [l.join(sep)] *)
Definition join (sep : string) (l : list string) : string := String.concat sep l.

(** [String(n)] for a natural number. *)
Definition ofNat (n : nat) : string := NilEmpty.string_of_uint (Nat.to_uint n).

(** The replacement text of [String.prototype.replace] when the pattern
    has no capture group: [$$] is a dollar sign, [$&] the matched text,
    [$`] what precedes the match and [$'] what follows it; any other
    dollar sign stands for itself. *)
Fixpoint expand (repl matched before after : string) : string :=
  match repl with
  | EmptyString => EmptyString
  | String c t =>
      if Ascii.eqb c "$" then
        match t with
        | EmptyString => "$"
        | String d r =>
            if Ascii.eqb d "$" then String "$" (expand r matched before after)
            else if Ascii.eqb d "&" then matched ++ expand r matched before after
            else if Ascii.eqb d "`" then before ++ expand r matched before after
            else if Ascii.eqb d "'" then after ++ expand r matched before after
            else String "$" (expand t matched before after)
        end
      else String c (expand t matched before after)
  end.

(** The match at position [i], of length [len], replaced. *)
Definition replaceAt (s : string) (i len : nat) (repl : string) : string :=
  let before := take i s in
  let matched := substring i len s in
  let after := drop (i + len) s in
  before ++ expand repl matched before after ++ after.

(** [s.replace(pat, repl)] for a string pattern, and for a regular
    expression that is a literal text: the first occurrence only. *)
Definition replace (s pat repl : string) : string :=
  match indexOf pat s with
  | None => s
  | Some i => replaceAt s i (String.length pat) repl
  end.

(** [s.replace(/<heading>[^#]*/, repl)]: the first occurrence of the
    heading together with the longest run of characters other than [#]
    that follows it. *)
Definition replaceSection (s heading repl : string) : string :=
  match indexOf heading s with
  | None => s
  | Some i =>
      let body := takeWhile (fun c => negb (Ascii.eqb c "#"))
                            (drop (i + String.length heading) s) in
      replaceAt s i (String.length heading + String.length body) repl
  end.

(** The number of characters of [s] that satisfy [p]. *)
Fixpoint count (p : ascii -> bool) (s : string) : nat :=
  match s with
  | EmptyString => 0
  | String c r => (if p c then 1 else 0) + count p r
  end.

(** Some position of [s] satisfies [p] (a predicate on the text from that
    position on). *)
Fixpoint existsSuffix (p : string -> bool) (s : string) : bool :=
  p s || match s with
         | EmptyString => false
         | String _ r => existsSuffix p r
         end.

End Str.

(* ================================================================== *)
(** ** The data of the three modules *)

(** What [executeCommand] resolves to. *)
Record execResult := mkExecResult {
  exOutput : string;
  exExitCode : option nat;
  exError : option string
}.

(** The object [handleTerminalCommand] returns. *)
Record terminalResult := mkTerminalResult {
  executed : bool;
  output : string;
  exitCode : option nat;
  error : option string;
  approved : bool
}.

(** A response of the base agent: one flat object, whatever the choice.
    [questionsForUser] and [questions], which the three modules neither
    read nor write, are left out; a text field that is absent is the empty
    string (both are falsy).  [terminalResult] is the property that
    [orchestrate] adds to a response of choice terminalCommand;
    [responseSummary] is the property [summary], which the memory system
    reads of the responses it is given. *)
Record response := mkResponse {
  choice : string;
  responseText : string;
  code : string;
  language : string;
  codeExplanation : string;
  terminalCommand : string;
  commandReasoning : string;
  requiresApproval : bool;
  missingContext : list string;
  continue : bool;
  terminalResultOf : option terminalResult;
  responseSummary : string
}.

(** The first argument of [addInteraction]: [{ query, context }]. *)
Record request := mkRequest {
  query : string;
  context : option string
}.

Record interaction := mkInteraction {
  userRequest : request;
  aiResponse : response;
  ts : string;
  id : nat
}.

Record range := mkRange {
  startId : nat;
  endId : nat;
  startTs : string;
  endTs : string
}.

Record summary := mkSummary {
  sRange : range;
  sText : string;
  sReasoning : string;
  sTs : string
}.

Record memory := mkMemory {
  interactions : list interaction;
  summaries : list summary;
  count : nat
}.

(** What the summarize agent resolves to. *)
Record summaryResult := mkSummaryResult {
  srSummary : string;
  srReasoning : string
}.

(** What the landscape agent resolves to (the fields [orchestrate] reads). *)
Record landscape := mkLandscape {
  overallIntent : string;
  suggestedApproach : string;
  priority : string
}.

Record step := mkStep {
  stepDescription : string;
  reasoning : string
}.

(** What the plan steps agent resolves to. *)
Record plan := mkPlan {
  steps : list step;
  planMissingContext : list string
}.

(* ================================================================== *)
(** ** Errors, files and the world *)

Inductive errorKind := SystemError | SyntaxError | TypeError | CollaboratorError.

Record jsError := mkError {
  kind : errorKind;
  message : string
}.

(** How a call to a collaborator ends. *)
Inductive completion (A : Type) : Type :=
| Returns (a : A)
| Throws (e : jsError).
Arguments Returns {A} a.
Arguments Throws {A} e.

(** One file of the disk, holding a text of type [A].  [Absent]: reading
    fails with ENOENT and a write creates the file.  [Holds r w a]: the file
    holds [a]; reading fails with EACCES unless [r], writing unless [w]. *)
Inductive file (A : Type) : Type :=
| Absent
| Holds (readable writable : bool) (a : A).
Arguments Absent {A}.
Arguments Holds {A} readable writable a.

(** The text of the memory file, as [JSON.parse] sees it: either the text
    [JSON.stringify(m, null, 2)] of a memory object [m], or a text that
    [JSON.parse] rejects (an empty or a cut file, for instance). *)
Inductive jsonText :=
| Malformed
| Document (m : memory).

(** A call to [queryOpenAI], by the agent it addresses. *)
Inductive agentCall :=
| LandscapeCall (prompt : string)
| PlanCall (prompt : string)
| TurnCall (userQuery contextString : string)
| SummaryCall (prompt : string).

Record world := mkWorld {
  notesFile : file string;        (* the file at getNotesFile() *)
  memoryFile : file jsonText;     (* the file at getMemoryFile() *)
  clock : nat;                    (* the readings of the clock so far *)
  agentCalls : list agentCall;    (* the calls to queryOpenAI, latest first *)
  asked : list (string * string); (* the approvals asked, latest first *)
  commands : list string;         (* the commands executed, latest first *)
  console : list string           (* the lines of console.error, latest first *)
}.

(** The collaborators.  The number given to an oracle counts the earlier
    calls (of queryOpenAI, of executeCommand, of the approval callback, of
    the clock), so that two calls with equal arguments may end differently. *)
Record env := mkEnv {
  now : nat -> string;            (* new Date().toISOString() *)
  landscapeAgent : nat -> string -> completion landscape;
  planStepsAgent : nat -> string -> completion plan;
  baseAgent : nat -> string -> string -> completion response;
  summarizeAgent : nat -> string -> completion summaryResult;
  executeCommand : nat -> string -> completion execResult;
  stringifyRequest : request -> string;   (* JSON.stringify(userRequest) *)
  stringifyResponse : response -> string  (* JSON.stringify(aiResponse) *)
}.

(** The options of [orchestrate]; [None] is the default [null]. *)
Record options := mkOptions {
  userContext : option string;
  askApproval : option (nat -> string -> string -> completion bool);
  onThinking : option (nat -> completion unit);
  onResponse : option (response -> nat -> completion unit);
  skipLandscape : bool
}.

Module Js.

(** How a computation ends: with a value, with a thrown error, or, for
    the loop alone, with the recursion budget of the model used up (which
    is no behaviour of the program). *)
Inductive result (A : Type) : Type :=
| Ok (a : A)
| Throw (e : jsError)
| OutOfFuel.
Arguments Ok {A} a.
Arguments Throw {A} e.
Arguments OutOfFuel {A}.

Definition M (A : Type) : Type := world -> result A * world.

Definition ret {A} (a : A) : M A := fun w => (Ok a, w).

Definition throw {A} (e : jsError) : M A := fun w => (Throw e, w).

Definition bind {A B} (m : M A) (k : A -> M B) : M B :=
  fun w =>
    match m w with
    | (Ok a, w') => k a w'
    | (Throw e, w') => (Throw e, w')
    | (OutOfFuel, w') => (OutOfFuel, w')
    end.

(** [try { m } catch (error) { h error }] *)
Definition try_catch {A} (m : M A) (h : jsError -> M A) : M A :=
  fun w =>
    match m w with
    | (Throw e, w') => h e w'
    | r => r
    end.

Definition lift {A} (c : completion A) : M A :=
  match c with
  | Returns a => ret a
  | Throws e => throw e
  end.

Definition modify (f : world -> world) : M unit := fun w => (Ok tt, f w).

(** [for (const x of l) { f x }] *)
Fixpoint forEach {A} (l : list A) (f : A -> M unit) : M unit :=
  match l with
  | [] => ret tt
  | x :: r => bind (f x) (fun _ => forEach r f)
  end.

End Js.
Import Js.

Declare Scope js_scope.
Delimit Scope js_scope with js.
Notation "x <- m ;; k" := (Js.bind m (fun x => k))
  (at level 61, m at next level, right associativity) : js_scope.
Notation "m ;;; k" := (Js.bind m (fun _ => k))
  (at level 61, right associativity) : js_scope.
Open Scope js_scope.

(** [a || b] on texts: the empty text is falsy. *)
Definition orElse (a b : string) : string :=
  match a with EmptyString => b | _ => a end.

(** The truth value of a text. *)
Definition truthy (s : string) : bool :=
  match s with EmptyString => false | _ => true end.

(** The truth value of a text that may be [null]. *)
Definition truthyOpt (o : option string) : bool :=
  match o with Some s => truthy s | None => false end.

(* ================================================================== *)
(** ** The file system and the clock *)

Module Fs.

Definition enoent : jsError := mkError SystemError "ENOENT: no such file or directory".
Definition eacces : jsError := mkError SystemError "EACCES: permission denied".

(** [fs.readFile(path, 'utf-8')] *)
Definition readFile {A} (f : file A) : completion A :=
  match f with
  | Absent => Throws enoent
  | Holds r _ a => if r then Returns a else Throws eacces
  end.

(** [fs.writeFile(path, data, 'utf-8')]: the outcome and the file left. *)
Definition writeFile {A} (data : A) (f : file A) : completion unit * file A :=
  match f with
  | Absent => (Returns tt, Holds true true data)
  | Holds r w _ => if w then (Returns tt, Holds r w data) else (Throws eacces, f)
  end.

Definition canWrite {A} (f : file A) : bool :=
  match f with
  | Absent => true
  | Holds _ w _ => w
  end.

(** A call of [fs.writeFile] that is interrupted (the process is killed,
    the disk is full): the file was opened for writing, which empties it,
    and holds the part [partial] of the data that reached it.  This is the
    failure of the direct write that section 3 of IMPROVEMENTS.md describes. *)
Definition interrupted {A} (partial : A) (f : file A) : file A :=
  match f with
  | Absent => Holds true true partial
  | Holds r w _ => if w then Holds r w partial else f
  end.

Definition setNotesFile (f : file string) (w : world) : world :=
  mkWorld f (memoryFile w) (clock w) (agentCalls w) (asked w) (commands w) (console w).

Definition setMemoryFile (f : file jsonText) (w : world) : world :=
  mkWorld (notesFile w) f (clock w) (agentCalls w) (asked w) (commands w) (console w).

Definition readNotesFile : M string :=
  fun w => Js.lift (readFile (notesFile w)) w.

Definition writeNotesFile (content : string) : M unit :=
  fun w => let (c, f) := writeFile content (notesFile w) in
           Js.lift c (setNotesFile f w).

Definition readMemoryFile : M jsonText :=
  fun w => Js.lift (readFile (memoryFile w)) w.

Definition writeMemoryFile (data : jsonText) : M unit :=
  fun w => let (c, f) := writeFile data (memoryFile w) in
           Js.lift c (setMemoryFile f w).

End Fs.

(** [JSON.parse(data)] on the text of the memory file. *)
Definition JSON_parse (data : jsonText) : M memory :=
  match data with
  | Malformed => Js.throw (mkError SyntaxError "Unexpected end of JSON input")
  | Document m => Js.ret m
  end.

Section Collaborators.

Variable E : env.

(** [new Date().toISOString()] *)
Definition isoNow : M string :=
  fun w => (Ok (now E (clock w)),
            mkWorld (notesFile w) (memoryFile w) (S (clock w)) (agentCalls w)
                    (asked w) (commands w) (console w)).

Definition logCall (c : agentCall) : M nat :=
  fun w => (Ok (List.length (agentCalls w)),
            mkWorld (notesFile w) (memoryFile w) (clock w) (c :: agentCalls w)
                    (asked w) (commands w) (console w)).

(** [queryOpenAI(prompt, { schema: landscapeAgentResponseSchema })] *)
Definition queryLandscapeAgent (prompt : string) : M landscape :=
  n <- logCall (LandscapeCall prompt) ;; Js.lift (landscapeAgent E n prompt).

(** [queryOpenAI(prompt, { schema: planStepsAgentResponseSchema })] *)
Definition queryPlanStepsAgent (prompt : string) : M plan :=
  n <- logCall (PlanCall prompt) ;; Js.lift (planStepsAgent E n prompt).

(** [queryOpenAI(userQuery, { schema: baseAgentExtendedResponseSchema,
    context: contextString })] *)
Definition queryBaseAgent (userQuery contextString : string) : M response :=
  n <- logCall (TurnCall userQuery contextString) ;;
  Js.lift (baseAgent E n userQuery contextString).

(** [queryOpenAI(prompt, { schema: summarizeAgentResponseSchema,
    temperature: 0.1 })] *)
Definition querySummarizeAgent (prompt : string) : M summaryResult :=
  n <- logCall (SummaryCall prompt) ;; Js.lift (summarizeAgent E n prompt).

(** [executeCommand(command)] of lib/terminalExecutor.js *)
Definition runCommand (command : string) : M execResult :=
  fun w => Js.lift (executeCommand E (List.length (commands w)) command)
             (mkWorld (notesFile w) (memoryFile w) (clock w) (agentCalls w)
                      (asked w) (command :: commands w) (console w)).

(** [console.error(label, text)] *)
Definition consoleError (line : string) : M unit :=
  Js.modify (fun w => mkWorld (notesFile w) (memoryFile w) (clock w) (agentCalls w)
                              (asked w) (commands w) (line :: console w)).

End Collaborators.

(* ================================================================== *)
(** ** lib/notesManager.js *)

Module NotesManager.
Section WithEnv.

Variable E : env.

(** The template of [loadNotes] and [clearNotes], at the time [stamp]. *)
Definition template (stamp : string) : string :=
  "# Agent Notes" ++ Str.nl ++
  Str.nl ++
  "## Current Task" ++ Str.nl ++
  "None" ++ Str.nl ++
  Str.nl ++
  "## Plan" ++ Str.nl ++
  "No active plan" ++ Str.nl ++
  Str.nl ++
  "## Context" ++ Str.nl ++
  "- Session started: " ++ stamp ++ Str.nl ++
  Str.nl ++
  "## Completed" ++ Str.nl ++
  "- Nothing yet" ++ Str.nl ++
  Str.nl ++
  "## Blockers" ++ Str.nl ++
  "None" ++ Str.nl.

Definition loadNotes : M string :=
  Js.try_catch
    Fs.readNotesFile
    (fun _ => stamp <- isoNow E ;; Js.ret (template stamp)).

Definition saveNotes (content : string) : M unit :=
  Fs.writeNotesFile content.

Definition updateCurrentTask (taskDescription : string) : M unit :=
  notes <- loadNotes ;;
  let updated :=
    Str.replaceSection notes ("## Current Task" ++ Str.nl)
      ("## Current Task" ++ Str.nl ++ taskDescription ++ Str.nl ++ Str.nl) in
  saveNotes updated.

(** The checklist line of the step of index [idx]. *)
Definition planLine (idx : nat) (st : step) : string :=
  "- [ ] " ++ Str.ofNat (idx + 1) ++ ". " ++ stepDescription st ++
  (if truthy (reasoning st) then " (" ++ reasoning st ++ ")" else "").

(** [steps.map((step, idx) => ...)], from the index [idx] on. *)
Fixpoint planLines (idx : nat) (l : list step) : list string :=
  match l with
  | [] => []
  | st :: r => planLine idx st :: planLines (S idx) r
  end.

Definition setPlan (l : list step) : M string :=
  notes <- loadNotes ;;
  let planText := Str.join Str.nl (planLines 0 l) in
  let updated :=
    Str.replaceSection notes ("## Plan" ++ Str.nl)
      ("## Plan" ++ Str.nl ++ planText ++ Str.nl ++ Str.nl) in
  saveNotes updated ;;;
  Js.ret updated.

(** The callback of [lines.map] in [completeStep], with the variables
    [inPlanSection] and [stepCount] it updates. *)
Fixpoint completeLines (stepNumber : nat) (inPlanSection : bool) (stepCount : nat)
         (lines : list string) : list string :=
  match lines with
  | [] => []
  | line :: rest =>
      if Str.startsWith line "## Plan" then
        line :: completeLines stepNumber true stepCount rest
      else if Str.startsWith line "##" then
        line :: completeLines stepNumber false stepCount rest
      else if inPlanSection && Str.startsWith (Str.trim line) "- [" then
        (if Nat.eqb (S stepCount) stepNumber
         then Str.replace line "- [ ]" "- [x]" else line)
        :: completeLines stepNumber inPlanSection (S stepCount) rest
      else line :: completeLines stepNumber inPlanSection stepCount rest
  end.

Definition completeStep (stepNumber : nat) : M string :=
  notes <- loadNotes ;;
  let lines := Str.split Str.LF notes in
  let updated := Str.join Str.nl (completeLines stepNumber false 0 lines) in
  saveNotes updated ;;;
  Js.ret updated.

(** The line that the three [add...] functions insert under a heading. *)
Definition stamped (stamp item : string) : string :=
  "- [" ++ stamp ++ "] " ++ item.

(** [notes.replace(/<heading>\n/, `<heading>\n${line}\n`)] *)
Definition insertUnder (heading line notes : string) : string :=
  Str.replace notes (heading ++ Str.nl) (heading ++ Str.nl ++ line ++ Str.nl).

Definition addUnder (heading item : string) : M unit :=
  notes <- loadNotes ;;
  stamp <- isoNow E ;;
  saveNotes (insertUnder heading (stamped stamp item) notes).

Definition addContext (contextItem : string) : M unit :=
  addUnder "## Context" contextItem.

Definition addCompleted (item : string) : M unit :=
  addUnder "## Completed" item.

Definition addBlocker (blocker : string) : M unit :=
  addUnder "## Blockers" blocker.

Definition clearNotes : M string :=
  stamp <- isoNow E ;;
  let freshNotes := template stamp in
  saveNotes freshNotes ;;;
  Js.ret freshNotes.

End WithEnv.
End NotesManager.

(* ================================================================== *)
(** ** lib/memorySystem.js *)

Module MemorySystem.

Definition MAX_INTERACTIONS : nat := 21.
Definition MAX_SUMMARIES : nat := 3.

Definition emptyMemory : memory := mkMemory [] [] 0.

Definition loadMemory : M memory :=
  Js.try_catch
    (data <- Fs.readMemoryFile ;; JSON_parse data)
    (fun _ => Js.ret emptyMemory).

Definition saveMemory (m : memory) : M unit :=
  Fs.writeMemoryFile (Document m).

(** [l.shift()]: the list without its first element. *)
Definition shift {A} (l : list A) : list A := List.tl l.

Section WithEnv.

Variable E : env.

(** The text of one interaction in the prompt of the summarize agent. *)
Definition renderForSummary (i : interaction) : string :=
  let userQuery := orElse (query (userRequest i)) (stringifyRequest E (userRequest i)) in
  let aiText := orElse (responseText (aiResponse i))
                  (orElse (code (aiResponse i))
                     (orElse (responseSummary (aiResponse i))
                        (stringifyResponse E (aiResponse i)))) in
  "[" ++ ts i ++ "] Interaction " ++ Str.ofNat (id i) ++ ":" ++ Str.nl ++
  "User: " ++ userQuery ++ Str.nl ++
  "AI: " ++ aiText.

Definition summaryPrompt (toSummarize : list interaction) : string :=
  let contextText := Str.join (Str.nl ++ Str.nl) (List.map renderForSummary toSummarize) in
  "Summarize these " ++ Str.ofNat (List.length toSummarize) ++
  " conversation interactions. Preserve key facts, decisions, goals, code created, commands executed, and evolving context:" ++
  Str.nl ++ Str.nl ++ contextText.

(** [toSummarize[0]] and [toSummarize[toSummarize.length - 1]]; reading a
    property of either throws a TypeError when the list is empty. *)
Definition firstAndLast (toSummarize : list interaction) : M (interaction * interaction) :=
  match toSummarize with
  | [] => Js.throw (mkError TypeError "Cannot read properties of undefined (reading 'id')")
  | i :: _ => Js.ret (i, List.last toSummarize i)
  end.

(** The body of the [try] block of [summarizeAndShift]: the summaries
    that [memory.summaries] holds at the end of the block. *)
Definition summarize (m : memory) (toSummarize : list interaction) : M (list summary) :=
  summaryResult <- querySummarizeAgent E (summaryPrompt toSummarize) ;;
  ends <- firstAndLast toSummarize ;;
  stamp <- isoNow E ;;
  let s := mkSummary
             (mkRange (id (fst ends)) (id (snd ends)) (ts (fst ends)) (ts (snd ends)))
             (srSummary summaryResult) (srReasoning summaryResult) stamp in
  let pushed := (summaries m ++ [s])%list in
  Js.ret (if Nat.ltb MAX_SUMMARIES (List.length pushed) then shift pushed else pushed).

(** [summarizeAndShift(memory)] changes its argument in place; here it
    returns the memory as it leaves it. *)
Definition summarizeAndShift (m : memory) : M memory :=
  let toSummarize := List.tl (interactions m) in
  kept <- Js.try_catch
            (summarize m toSummarize)
            (fun e => consoleError ("Error creating memory summary: " ++ message e) ;;;
                      Js.ret (summaries m)) ;;
  Js.ret (mkMemory (shift (interactions m)) kept (count m)).

Definition addInteraction (req : request) (resp : response) : M interaction :=
  m <- loadMemory ;;
  stamp <- isoNow E ;;
  let i := mkInteraction req resp stamp (count m + 1) in
  let m1 := mkMemory (interactions m ++ [i])%list (summaries m) (count m + 1) in
  m2 <- (if Nat.ltb MAX_INTERACTIONS (List.length (interactions m1))
         then summarizeAndShift m1 else Js.ret m1) ;;
  saveMemory m2 ;;;
  Js.ret i.

End WithEnv.

(** The text of the summary of index [i] in [getMemoryContextString]. *)
Definition renderSummary (i : nat) (s : summary) : string :=
  "Summary " ++ Str.ofNat (i + 1) ++ " (Interactions " ++
  Str.ofNat (startId (sRange s)) ++ "-" ++ Str.ofNat (endId (sRange s)) ++ ", " ++
  startTs (sRange s) ++ " to " ++ endTs (sRange s) ++ "):" ++ Str.nl ++
  sText s ++ Str.nl ++ Str.nl.

(** [memory.summaries.forEach((summary, i) => ...)], from the index [i] on. *)
Fixpoint renderSummaries (i : nat) (l : list summary) : string :=
  match l with
  | [] => ""
  | s :: r => renderSummary i s ++ renderSummaries (S i) r
  end.

(** The three values that [getMemoryContextString] shows of one interaction. *)
Definition shownQuery (i : interaction) : string :=
  orElse (query (userRequest i)) "Request data".

Definition shownChoice (i : interaction) : string :=
  orElse (choice (aiResponse i)) "response".

(** [aiResponse?.response || aiResponse?.code || aiResponse?.summary ||
    'Response data'], cut at 200 characters. *)
Definition shownContent (i : interaction) : string :=
  let aiContent := orElse (responseText (aiResponse i))
                     (orElse (code (aiResponse i))
                        (orElse (responseSummary (aiResponse i)) "Response data")) in
  Str.take 200 aiContent ++
  (if Nat.ltb 200 (String.length aiContent) then "..." else "").

Definition renderInteraction (i : interaction) : string :=
  "[" ++ ts i ++ "] Interaction " ++ Str.ofNat (id i) ++ ":" ++ Str.nl ++
  "User Query: " ++ shownQuery i ++ Str.nl ++
  "AI Response Type: " ++ shownChoice i ++ Str.nl ++
  "AI Content: " ++ shownContent i ++ Str.nl ++ Str.nl.

Fixpoint renderInteractions (l : list interaction) : string :=
  match l with
  | [] => ""
  | i :: r => renderInteraction i ++ renderInteractions r
  end.

(** The text that [getMemoryContextString] builds of a memory, before it
    trims it.  The heading of the interactions is written between single
    quotes in the source: its [${...}] is not a placeholder. *)
Definition contextOf (m : memory) : string :=
  (match summaries m with
   | [] => ""
   | _ => "═══ CONVERSATION HISTORY (SUMMARIES) ═══" ++ Str.nl ++ Str.nl ++
          renderSummaries 0 (summaries m)
   end) ++
  (match interactions m with
   | [] => ""
   | _ => "═══ RECENT INTERACTIONS (Last ${memory.interactions.length}) ═══" ++
          Str.nl ++ Str.nl ++ renderInteractions (interactions m)
   end).

Definition getMemoryContextString : M string :=
  m <- loadMemory ;;
  Js.ret (Str.trim (contextOf m)).

Definition clearMemory : M memory :=
  saveMemory emptyMemory ;;;
  Js.ret emptyMemory.

End MemorySystem.

(* ================================================================== *)
(** ** lib/agentOrchestrator.js *)

Module AgentOrchestrator.

Definition MAX_CONTINUE_ITERATIONS : nat := 5.
Definition MAX_DENIAL_RETRIES : nat := 2.

(** [/first.*then/] at the start of [s]: "first", then "then" before the
    end of the line. *)
Definition firstThenHere (s : string) : bool :=
  Str.startsWith s "first" &&
  Str.includes (Str.takeWhile (fun c => negb (Str.isLineTerminator c)) (Str.drop 5 s)) "then".

(** [/\d+\./] at the start of [s]: digits, then a dot. *)
Definition numberedHere (s : string) : bool :=
  let digits := Str.takeWhile Str.isDigit s in
  negb (String.eqb digits "") &&
  Str.startsWith (Str.drop (String.length digits) s) ".".

(** [/step \d+/] at the start of [s]. *)
Definition stepHere (s : string) : bool :=
  Str.startsWith s "step " &&
  match Str.drop 5 s with
  | String c _ => Str.isDigit c
  | EmptyString => false
  end.

Definition isSentenceEnd (c : ascii) : bool :=
  Ascii.eqb c "." || Ascii.eqb c "!" || Ascii.eqb c "?".

Definition shouldUseLandscape (userQuery : string) : bool :=
  let lower := Str.toLowerCase userQuery in
  Str.includes lower "and then"
  || Str.existsSuffix firstThenHere lower
  || Str.includes lower "multiple"
  || Str.includes lower "several"
  || Str.existsSuffix numberedHere userQuery
  || Str.existsSuffix stepHere lower
  || Nat.ltb 3 (Str.count isSentenceEnd userQuery + 1).

(** [${contextInfo ? `Additional Context: ${contextInfo}` : ''}] *)
Definition additionalContext (contextInfo : option string) : string :=
  match contextInfo with
  | Some c => if truthy c then "Additional Context: " ++ c else ""
  | None => ""
  end.

Definition landscapePrompt (userQuery : string) (contextInfo : option string) : string :=
  "Analyze this user query to understand overall intent and approach:" ++ Str.nl ++
  Str.nl ++
  "User Query: " ++ userQuery ++ Str.nl ++
  Str.nl ++
  additionalContext contextInfo ++ Str.nl ++
  Str.nl ++
  "Provide a meta-analysis of what the user wants to accomplish.".

Definition planPrompt (userQuery : string) (l : landscape) (contextInfo : option string) : string :=
  "Break down this task into clear, actionable steps:" ++ Str.nl ++
  Str.nl ++
  "User Request: " ++ userQuery ++ Str.nl ++
  Str.nl ++
  "Overall Intent: " ++ overallIntent l ++ Str.nl ++
  "Suggested Approach: " ++ suggestedApproach l ++ Str.nl ++
  Str.nl ++
  additionalContext contextInfo ++ Str.nl ++
  Str.nl ++
  "Create a detailed step-by-step plan.".

(** The object [agentContext]; [None] is [null] or [undefined]. *)
Record agentContext := mkAgentContext {
  acMemory : string;
  acNotes : string;
  acUserContext : option string;
  acLandscape : option landscape;
  acPlan : option plan;
  acPreviousOutput : option string;
  acPreviousResponse : option response;
  acIteration : option nat
}.

(** [agentContext.plan.steps.forEach((step, idx) => ...)], from [idx] on. *)
Fixpoint numberedSteps (idx : nat) (l : list step) : string :=
  match l with
  | [] => ""
  | st :: r => Str.ofNat (idx + 1) ++ ". " ++ stepDescription st ++ Str.nl ++
               numberedSteps (S idx) r
  end.

Definition buildContextString (c : agentContext) : string :=
  (if truthy (acMemory c) then acMemory c ++ Str.nl ++ Str.nl else "") ++
  (match acLandscape c with
   | Some l => "═══ LANDSCAPE ANALYSIS ═══" ++ Str.nl ++
               "Intent: " ++ overallIntent l ++ Str.nl ++
               "Approach: " ++ suggestedApproach l ++ Str.nl ++
               "Priority: " ++ priority l ++ Str.nl ++ Str.nl
   | None => ""
   end) ++
  (match acPlan c with
   | Some p => "═══ PLAN ═══" ++ Str.nl ++ numberedSteps 0 (steps p) ++ Str.nl
   | None => ""
   end) ++
  (if truthy (acNotes c)
   then "═══ AGENT NOTES ═══" ++ Str.nl ++ acNotes c ++ Str.nl ++ Str.nl else "") ++
  (match acPreviousResponse c with
   | Some r => "═══ PREVIOUS RESPONSE ═══" ++ Str.nl ++
               "Choice: " ++ choice r ++ Str.nl ++
               (if truthy (responseText r)
                then "Response: " ++ responseText r ++ Str.nl else "") ++
               Str.nl
   | None => ""
   end) ++
  (if truthyOpt (acPreviousOutput c)
   then "═══ TERMINAL OUTPUT ═══" ++ Str.nl ++
        match acPreviousOutput c with Some o => o | None => "" end ++ Str.nl ++ Str.nl
   else "") ++
  (if truthyOpt (acUserContext c)
   then "═══ USER CONTEXT ═══" ++ Str.nl ++
        match acUserContext c with Some u => u | None => "" end ++ Str.nl ++ Str.nl
   else "") ++
  (match acIteration c with
   | Some (S n) => "[Iteration " ++ Str.ofNat (S n) ++ "]" ++ Str.nl ++ Str.nl
   | _ => ""
   end).

(** The value [orchestrate] resolves to. *)
Record orchestration := mkOrchestration {
  success : bool;
  responses : list response;
  orLandscape : option landscape;
  orPlan : option plan;
  iterations : nat
}.

(** The variables of [orchestrate] that the loop updates. *)
Record loopState := mkLoopState {
  lsResponses : list response;
  lsIteration : nat;
  lsDenialCount : nat;
  lsLastDeniedCommand : option string;
  lsAgentContext : agentContext
}.

(** How the block that handles a terminal command is left. *)
Inductive flow (A : Type) : Type :=
| Proceed (a : A)
| Break (a : A).
Arguments Proceed {A} a.
Arguments Break {A} a.

Section WithEnv.

Variable E : env.

Definition runLandscapeAnalysis (userQuery : string) (contextInfo : option string) : M landscape :=
  queryLandscapeAgent E (landscapePrompt userQuery contextInfo).

Definition createPlanSteps (userQuery : string) (l : landscape)
           (contextInfo : option string) : M plan :=
  queryPlanStepsAgent E (planPrompt userQuery l contextInfo).

(** [await askApproval(command, reasoning)]: calling [null] throws. *)
Definition callApproval (ask : option (nat -> string -> string -> completion bool))
           (command rationale : string) : M bool :=
  match ask with
  | None => Js.throw (mkError TypeError "askApproval is not a function")
  | Some f =>
      fun w => Js.lift (f (List.length (asked w)) command rationale)
                 (mkWorld (notesFile w) (memoryFile w) (clock w) (agentCalls w)
                          ((command, rationale) :: asked w) (commands w) (console w))
  end.

Definition declined : terminalResult :=
  mkTerminalResult false "User declined to execute command" None None false.

Definition execute (r : response) : M terminalResult :=
  result <- runCommand E (terminalCommand r) ;;
  Js.ret (mkTerminalResult true (exOutput result) (exExitCode result) (exError result) true).

Definition handleTerminalCommand (r : response)
           (ask : option (nat -> string -> string -> completion bool)) : M terminalResult :=
  if requiresApproval r then
    approved <- callApproval ask (terminalCommand r) (commandReasoning r) ;;
    if negb approved then Js.ret declined else execute r
  else execute r.

(** The keywords of a step and those of them that the action text holds. *)
Definition keywords (st : step) : list string :=
  List.filter (fun w => Nat.ltb 4 (String.length w))
              (Str.split_ws (Str.toLowerCase (stepDescription st))).

Definition matches (st : step) (actionContent rationale : string) : list string :=
  let actionText := Str.toLowerCase (actionContent ++ " " ++ rationale) in
  List.filter (fun kw => Str.includes actionText kw) (keywords st).

Definition stepMatches (st : step) (actionContent rationale : string) : bool :=
  Nat.leb 2 (List.length (matches st actionContent rationale)).

(** The loop of [tryCompleteMatchingStep], from the step of index [i] on. *)
Fixpoint tryCompleteFrom (i : nat) (l : list step) (actionContent rationale : string) : M unit :=
  match l with
  | [] => Js.ret tt
  | st :: rest =>
      if stepMatches st actionContent rationale then
        NotesManager.completeStep E (i + 1) ;;;
        NotesManager.addContext E
          ("Auto-completed step " ++ Str.ofNat (i + 1) ++ ": " ++ stepDescription st)
      else tryCompleteFrom (S i) rest actionContent rationale
  end.

Definition tryCompleteMatchingStep (l : list step) (actionContent rationale : string) : M unit :=
  tryCompleteFrom 0 l actionContent rationale.

(** [if (plan && plan.steps) { await tryCompleteMatchingStep(...) }] *)
Definition tryCompletePlan (p : option plan) (actionContent rationale : string) : M unit :=
  match p with
  | Some pl => tryCompleteMatchingStep (steps pl) actionContent rationale
  | None => Js.ret tt
  end.

(** [for (const missing of l) { await addBlocker(`Missing: ${missing}`) }] *)
Definition trackMissing (l : list string) : M unit :=
  Js.forEach l (fun missing => NotesManager.addBlocker E ("Missing: " ++ missing)).

Definition setPreviousOutput (o : string) (c : agentContext) : agentContext :=
  mkAgentContext (acMemory c) (acNotes c) (acUserContext c) (acLandscape c) (acPlan c)
                 (Some o) (acPreviousResponse c) (acIteration c).

Definition setPrevious (r : response) (iteration : nat) (c : agentContext) : agentContext :=
  mkAgentContext (acMemory c) (acNotes c) (acUserContext c) (acLandscape c) (acPlan c)
                 (acPreviousOutput c) (Some r) (Some iteration).

Definition setTerminalResult (t : terminalResult) (r : response) : response :=
  mkResponse (choice r) (responseText r) (code r) (language r) (codeExplanation r)
             (terminalCommand r) (commandReasoning r) (requiresApproval r)
             (missingContext r) (continue r) (Some t) (responseSummary r).

(** The denial counter and the last denied command after [command] was
    declined. *)
Definition trackDenial (denialCount : nat) (lastDeniedCommand : option string)
           (command : string) : nat * option string :=
  match lastDeniedCommand with
  | Some c => if String.eqb c command then (S denialCount, lastDeniedCommand)
              else (1, Some command)
  | None => (1, Some command)
  end.

(** The block [if (response.choice === 'terminalCommand') { ... }] of the
    loop.  It gives the response with its [terminalResult] and the
    variables as the block leaves them; [Break] is the [break] of the
    source. *)
Definition terminalBlock (O : options) (p : option plan) (r : response)
           (st : loopState) : M (flow (response * loopState)) :=
  if String.eqb (choice r) "terminalCommand" then
    t <- handleTerminalCommand r (askApproval O) ;;
    let r' := setTerminalResult t r in
    let c := setPreviousOutput (output t) (lsAgentContext st) in
    if executed t then
      NotesManager.addCompleted E ("Executed: " ++ terminalCommand r) ;;;
      tryCompletePlan p (terminalCommand r) (commandReasoning r) ;;;
      Js.ret (Proceed (r', mkLoopState (lsResponses st) (lsIteration st) 0 None c))
    else
      NotesManager.addBlocker E ("Command declined: " ++ terminalCommand r) ;;;
      let d := trackDenial (lsDenialCount st) (lsLastDeniedCommand st) (terminalCommand r) in
      let st' := mkLoopState (lsResponses st) (lsIteration st) (fst d) (snd d) c in
      if Nat.leb MAX_DENIAL_RETRIES (fst d) then
        NotesManager.addBlocker E "Too many command denials - stopping iteration" ;;;
        Js.ret (Break (r', st'))
      else Js.ret (Proceed (r', st'))
  else Js.ret (Proceed (r, st)).

(** The block [if (response.choice === 'code') { ... }]. *)
Definition codeBlock (p : option plan) (r : response) : M unit :=
  if String.eqb (choice r) "code" then
    NotesManager.addCompleted E ("Generated " ++ language r ++ " code") ;;;
    tryCompletePlan p (code r) (codeExplanation r)
  else Js.ret tt.

Definition notifyThinking (O : options) (iteration : nat) : M unit :=
  match onThinking O with
  | Some f => if Nat.ltb 1 iteration then Js.lift (f iteration) else Js.ret tt
  | None => Js.ret tt
  end.

Definition notifyResponse (O : options) (r : response) (iteration : nat) : M unit :=
  match onResponse O with
  | Some f => Js.lift (f r iteration)
  | None => Js.ret tt
  end.

(** [responses.push(response)]: the list holds the object itself, so what
    the loop adds to the response later is seen in the list. *)
Definition pushResponse (r : response) (st : loopState) : loopState :=
  mkLoopState (lsResponses st ++ [r])%list (lsIteration st) (lsDenialCount st)
              (lsLastDeniedCommand st) (lsAgentContext st).

(** One pass of the [do { ... } while (continueLoop)] loop: the value of
    [continueLoop] and the variables at the end of the pass. *)
Definition turn (O : options) (userQuery : string) (p : option plan)
           (st : loopState) : M (bool * loopState) :=
  let iteration := S (lsIteration st) in
  notifyThinking O iteration ;;;
  let contextString := buildContextString (lsAgentContext st) in
  r <- queryBaseAgent E userQuery contextString ;;
  f <- terminalBlock O p r
         (mkLoopState (lsResponses st) iteration (lsDenialCount st)
                      (lsLastDeniedCommand st) (lsAgentContext st)) ;;
  match f with
  | Break (r', st') => Js.ret (false, pushResponse r' st')
  | Proceed (r', st') =>
      codeBlock p r' ;;;
      trackMissing (missingContext r') ;;;
      notifyResponse O r' iteration ;;;
      MemorySystem.addInteraction E (mkRequest userQuery (userContext O)) r' ;;;
      let st'' := pushResponse r' st' in
      Js.ret (continue r' && Nat.ltb iteration MAX_CONTINUE_ITERATIONS,
              mkLoopState (lsResponses st'') (lsIteration st'') (lsDenialCount st'')
                          (lsLastDeniedCommand st'')
                          (setPrevious r' iteration (lsAgentContext st'')))
  end.

(** The loop.  [fuel] bounds the passes of the model, not of the
    program: a loop that wants one more pass than [fuel] ends in
    [OutOfFuel]. *)
Fixpoint iterate (fuel : nat) (O : options) (userQuery : string) (p : option plan)
         (st : loopState) : M loopState :=
  match fuel with
  | 0 => fun w => (OutOfFuel, w)
  | S k =>
      r <- turn O userQuery p st ;;
      if fst r then iterate k O userQuery p (snd r) else Js.ret (snd r)
  end.

Definition isHighPriority (l : landscape) : bool :=
  String.eqb (priority l) "high" || String.eqb (priority l) "critical".

Definition taskDescription (l : landscape) : string :=
  overallIntent l ++ Str.nl ++ Str.nl ++
  "Priority: " ++ priority l ++ Str.nl ++
  "Approach: " ++ suggestedApproach l.

(** Steps 1 and 2 of [orchestrate]: the landscape and the plan. *)
Definition analyse (O : options) (userQuery : string) : M (option landscape * option plan) :=
  if negb (skipLandscape O) && shouldUseLandscape userQuery then
    l <- runLandscapeAnalysis userQuery (userContext O) ;;
    if isHighPriority l then
      p <- createPlanSteps userQuery l (userContext O) ;;
      NotesManager.updateCurrentTask E (taskDescription l) ;;;
      NotesManager.setPlan E (steps p) ;;;
      trackMissing (planMissingContext p) ;;;
      Js.ret (Some l, Some p)
    else Js.ret (Some l, None)
  else Js.ret (None, None).

(** The [try] block of [orchestrate]. *)
Definition tryBlock (fuel : nat) (userQuery : string) (O : options) : M orchestration :=
  notes <- NotesManager.loadNotes E ;;
  memoryContext <- MemorySystem.getMemoryContextString ;;
  lp <- analyse O userQuery ;;
  let agentContext :=
    mkAgentContext memoryContext notes (userContext O) (fst lp) (snd lp)
                   None None None in
  st <- iterate fuel O userQuery (snd lp) (mkLoopState [] 0 0 None agentContext) ;;
  Js.ret (mkOrchestration true (lsResponses st) (fst lp) (snd lp) (lsIteration st)).

Definition orchestrate (fuel : nat) (userQuery : string) (O : options) : M orchestration :=
  Js.try_catch
    (tryBlock fuel userQuery O)
    (fun error =>
       NotesManager.addBlocker E ("Error: " ++ message error) ;;;
       Js.throw error).

Definition orchestrateSimple (fuel : nat) (userQuery : string) (O : options) : M orchestration :=
  orchestrate fuel userQuery
    (mkOptions (userContext O) (askApproval O) (onThinking O) (onResponse O) true).

End WithEnv.
End AgentOrchestrator.

(* ================================================================== *)
(** ** What the statements below observe *)

(** The memory that [loadMemory] finds in a file. *)
Definition stored (f : file jsonText) : memory :=
  match f with
  | Holds true _ (Document m) => m
  | _ => MemorySystem.emptyMemory
  end.

(** A file that can be written and that is read back as written. *)
Definition durable {A} (f : file A) : bool :=
  match f with
  | Absent => true
  | Holds r w _ => r && w
  end.

(** A sequence of calls to [addInteraction], one after the other. *)
Fixpoint addAll (E : env) (l : list (request * response)) : M unit :=
  match l with
  | [] => Js.ret tt
  | x :: rest => MemorySystem.addInteraction E (fst x) (snd x) ;;; addAll E rest
  end.

(** The ids of the interactions and the ranges of the summaries. *)
Definition ids (l : list interaction) : list nat := List.map id l.

Definition covered (l : list summary) : list (nat * nat) :=
  List.map (fun s => (startId (sRange s), endId (sRange s))) l.

(** The calls to the base agent among the calls to [queryOpenAI], latest
    first: the query and the context string of each. *)
Fixpoint turnCalls (l : list agentCall) : list (string * string) :=
  match l with
  | [] => []
  | TurnCall q c :: r => (q, c) :: turnCalls r
  | _ :: r => turnCalls r
  end.

Definition turnsOf (w : world) : list (string * string) := turnCalls (agentCalls w).

(** A computation that calls the base agent no more and that does not use
    up the recursion budget of the model. *)
Definition quiet {A} (m : M A) : Prop :=
  forall w, fst (m w) <> OutOfFuel /\ turnsOf (snd (m w)) = turnsOf w.

(** A fact about every value that a computation returns. *)
Definition ensures {A} (m : M A) (Q : A -> Prop) : Prop :=
  forall w a w', m w = (Ok a, w') -> Q a.

(** The notes that [loadNotes] returns in a world. *)
Definition loadedNotes (E : env) (w : world) : string :=
  match notesFile w with
  | Holds true _ s => s
  | _ => NotesManager.template (now E (clock w))
  end.

(** The text that [getMemoryContextString] returns in a world. *)
Definition loadedMemoryContext (w : world) : string :=
  Str.trim (MemorySystem.contextOf (stored (memoryFile w))).

(** A context string built with the memory text [mem] and the notes [notes]. *)
Definition builtWith (mem notes : string) (contextString : string) : Prop :=
  exists c : AgentOrchestrator.agentContext,
    contextString = AgentOrchestrator.buildContextString c
    /\ AgentOrchestrator.acMemory c = mem
    /\ AgentOrchestrator.acNotes c = notes.

(** The world once a call to [queryOpenAI] is recorded, and once an
    approval was asked. *)
Definition logged (c : agentCall) (w : world) : world :=
  mkWorld (notesFile w) (memoryFile w) (clock w) (c :: agentCalls w)
          (asked w) (commands w) (console w).

Definition askedFor (command rationale : string) (w : world) : world :=
  mkWorld (notesFile w) (memoryFile w) (clock w) (agentCalls w)
          ((command, rationale) :: asked w) (commands w) (console w).

(** The world with another clock. *)
Definition setClock (n : nat) (w : world) : world :=
  mkWorld (notesFile w) (memoryFile w) n (agentCalls w) (asked w) (commands w) (console w).

(** The interaction that [addInteraction] creates in the empty memory. *)
Definition firstInteraction (E : env) (req : request) (resp : response) (w : world) : interaction :=
  mkInteraction req resp (now E (clock w)) 1.

(** The memory with one more interaction, before the window slides. *)
Definition appended (m : memory) (i : interaction) : memory :=
  mkMemory (interactions m ++ [i])%list (summaries m) (count m + 1).

(** The interaction that [addInteraction] creates in the world [w]. *)
Definition nextInteraction (E : env) (req : request) (resp : response) (w : world) : interaction :=
  mkInteraction req resp (now E (clock w)) (count (stored (memoryFile w)) + 1).

(** The summary that [summarizeAndShift] creates of [toSummarize] from the
    answer [sr] of the summarize agent, at the time [stamp]. *)
Definition summaryOf (toSummarize : list interaction) (first : interaction)
           (sr : summaryResult) (stamp : string) : summary :=
  let last := List.last toSummarize first in
  mkSummary (mkRange (id first) (id last) (ts first) (ts last))
            (srSummary sr) (srReasoning sr) stamp.

(** The summaries kept when [s] is pushed: the last three. *)
Definition pushSummary (l : list summary) (s : summary) : list summary :=
  if Nat.ltb MemorySystem.MAX_SUMMARIES (List.length (l ++ [s])%list)
  then MemorySystem.shift (l ++ [s])%list else (l ++ [s])%list.

(** What the terminal block leaves of the variables: the iteration, and of
    the agent context everything but the previous output. *)
Definition sameSetting (c c' : AgentOrchestrator.agentContext) : Prop :=
  AgentOrchestrator.acMemory c' = AgentOrchestrator.acMemory c
  /\ AgentOrchestrator.acNotes c' = AgentOrchestrator.acNotes c.

Definition flowState {A} (f : AgentOrchestrator.flow A) : A :=
  match f with
  | AgentOrchestrator.Proceed a => a
  | AgentOrchestrator.Break a => a
  end.

(** The clock at which [addUnder] stamps its line: [loadNotes] reads the
    clock first when it has to build the template. *)
Definition stampClock (w : world) : nat :=
  match notesFile w with
  | Holds true _ _ => clock w
  | _ => S (clock w)
  end.

(** The world that [addUnder] leaves when the notes can be written. *)
Definition withLine (E : env) (heading item : string) (w : world) : world :=
  Fs.setNotesFile
    (Holds true true
       (NotesManager.insertUnder heading
          (NotesManager.stamped (now E (stampClock w)) item) (loadedNotes E w)))
    (setClock (S (stampClock w)) w).

Definition tooManyDenials : string := "Too many command denials - stopping iteration".

(** What a declined command leaves: the response with its terminal result,
    and the variables of the loop. *)
Definition afterDecline (r : response) (st : AgentOrchestrator.loopState)
  : response * AgentOrchestrator.loopState :=
  let d := AgentOrchestrator.trackDenial (AgentOrchestrator.lsDenialCount st)
             (AgentOrchestrator.lsLastDeniedCommand st) (terminalCommand r) in
  (AgentOrchestrator.setTerminalResult AgentOrchestrator.declined r,
   AgentOrchestrator.mkLoopState
     (AgentOrchestrator.lsResponses st) (AgentOrchestrator.lsIteration st) (fst d) (snd d)
     (AgentOrchestrator.setPreviousOutput (output AgentOrchestrator.declined)
        (AgentOrchestrator.lsAgentContext st))).

(** The world after the approval was asked and the decline was noted. *)
Definition declineNoted (E : env) (r : response) (w : world) : world :=
  withLine E "## Blockers" ("Command declined: " ++ terminalCommand r)
           (askedFor (terminalCommand r) (commandReasoning r) w).

(* ================================================================== *)
(** ** Scenarios *)

Module Scenario.

(** The clock: the n-th reading is the text Tn. *)
Definition tick (n : nat) : string := "T" ++ Str.ofNat n.

Definition noAnswer {A} : completion A :=
  Throws (mkError CollaboratorError "no answer").

(** The collaborators of the scenarios: the base agent gives the responses
    of [script], one per call; the summarize agent answers every call; the
    shell runs every command. *)
Definition scripted (script : list response) : env :=
  mkEnv tick
        (fun _ _ => noAnswer)
        (fun _ _ => noAnswer)
        (fun n _ _ => match List.nth_error script n with
                      | Some r => Returns r
                      | None => noAnswer
                      end)
        (fun n _ => Returns (mkSummaryResult ("summary " ++ Str.ofNat n) "because"))
        (fun _ c => Returns (mkExecResult ("ran " ++ c) (Some 0) None))
        (fun _ => "{}")
        (fun _ => "{}").

(** A world with no file and no history. *)
Definition blank : world := mkWorld Absent Absent 0 [] [] [] [].

Definition plain (text : string) (again : bool) : response :=
  mkResponse "response" text "" "" "" "" "" false [] again None "".

Definition generated (lang body why : string) (again : bool) : response :=
  mkResponse "code" "" body lang why "" "" false [] again None "".

Definition command (cmd why : string) (again : bool) : response :=
  mkResponse "terminalCommand" "" "" "" "" cmd why true [] again None "".

Definition simple (ask : option (nat -> string -> string -> completion bool)) : options :=
  mkOptions None ask None None true.

Definition alwaysDeny : nat -> string -> string -> completion bool :=
  fun _ _ _ => Returns false.

(** [c.repeat(n)] for one character. *)
Fixpoint repeat (c : ascii) (n : nat) : string :=
  match n with
  | 0 => ""
  | S k => String c (repeat c k)
  end.

(** [n] interactions to add, all alike. *)
Definition exchanges (n : nat) : list (request * response) :=
  List.repeat (mkRequest "hello" None, plain "hi" false) n.

(** A response that asks to continue, whatever the pass. *)
Definition eager : env :=
  mkEnv tick (fun _ _ => noAnswer) (fun _ _ => noAnswer)
        (fun _ _ _ => Returns (plain "more" true))
        (fun n _ => Returns (mkSummaryResult ("summary " ++ Str.ofNat n) "because"))
        (fun _ c => Returns (mkExecResult ("ran " ++ c) (Some 0) None))
        (fun _ => "{}") (fun _ => "{}").

(** The text of the notes file, empty when there is none. *)
Definition notesText (w : world) : string :=
  match notesFile w with
  | Holds _ _ s => s
  | Absent => ""
  end.

(** The world in which the plan [l] was set and the steps of the numbers
    [done] were completed. *)
Definition planned (E : env) (l : list step) (done : list nat) : world :=
  snd ((NotesManager.setPlan E l ;;;
        Js.forEach done (fun n => NotesManager.completeStep E n ;;; Js.ret tt)) blank).

Definition twoSteps : list step :=
  [mkStep "Install express package" "";
   mkStep "Configure express package settings" ""].

(** The plan of the test of the repository. *)
Definition threeSteps : list step :=
  [mkStep "Check package.json file" "";
   mkStep "List JavaScript files" "";
   mkStep "Run tests" ""].

(** Two passes: code is generated, then a plain response ends the loop. *)
Definition twoPasses : env :=
  scripted [generated "javascript" "console.log(1)" "prints one" true;
            plain "done" false].

(** The variables of the loop and the world when [orchestrate] enters the
    loop from [blank], in simple mode: the notes were loaded (the template,
    at the first reading of the clock) and the memory text is empty. *)
Definition entry : AgentOrchestrator.loopState :=
  AgentOrchestrator.mkLoopState [] 0 0 None
    (AgentOrchestrator.mkAgentContext "" (NotesManager.template (tick 0))
       None None None None None None).

Definition atEntry : world := setClock 1 blank.

(** The world at the end of the first pass of [twoPasses]. *)
Definition afterFirstPass : world :=
  snd (AgentOrchestrator.turn twoPasses (simple None) "write it" None entry atEntry).

(** [saveNotes(content)] interrupted after [n] characters, and
    [saveMemory(m)] interrupted before the end of its JSON text, of which no
    proper prefix can be parsed. *)
Definition saveNotesInterrupted (n : nat) (content : string) (w : world) : world :=
  Fs.setNotesFile (Fs.interrupted (Str.take n content) (notesFile w)) w.

Definition saveMemoryInterrupted (w : world) : world :=
  Fs.setMemoryFile (Fs.interrupted Malformed (memoryFile w)) w.

(** An interaction with a query of [n] characters and a content of [k]. *)
Definition sized (n k : nat) : interaction :=
  mkInteraction (mkRequest (repeat "q" n) None) (plain (repeat "b" k) false) (tick 0) 1.

(** A summary with a text of [n] characters. *)
Definition sizedSummary (n : nat) : summary :=
  mkSummary (mkRange 2 22 (tick 1) (tick 21)) (repeat "s" n) "" (tick 22).

End Scenario.

(* ================================================================== *)
(** ** The rest of lib/memorySystem.js *)

(** [x || null] for a text and for a number that may be [undefined]. *)
Definition textOrNull (o : option string) : option string :=
  match o with
  | Some s => if truthy s then Some s else None
  | None => None
  end.

Definition numberOrNull (o : option nat) : option nat :=
  match o with
  | Some (S n) => Some (S n)
  | _ => None
  end.

(** The object [stats] of [getCurrentMemory]. *)
Record memoryCounts := mkMemoryCounts {
  totalCount : nat;
  currentInteractions : nat;
  countSummariesStored : nat
}.

Record currentMemory := mkCurrentMemory {
  cmInteractions : list interaction;
  cmSummaries : list summary;
  cmStats : memoryCounts
}.

Definition getCurrentMemory : M currentMemory :=
  m <- MemorySystem.loadMemory ;;
  Js.ret (mkCurrentMemory (interactions m) (summaries m)
            (mkMemoryCounts (count m) (List.length (interactions m))
                            (List.length (summaries m)))).

Record memoryStats := mkMemoryStats {
  totalInteractionsProcessed : nat;
  currentInteractionsStored : nat;
  summariesStored : nat;
  maxInteractions : nat;
  maxSummaries : nat;
  oldestInteraction : option string;
  newestInteraction : option string;
  oldestSummaryCoverage : option nat;
  newestSummaryCoverage : option nat
}.

(** [l[l.length - 1]], [None] for [undefined]. *)
Definition lastOf {A} (l : list A) : option A :=
  match l with
  | [] => None
  | x :: _ => Some (List.last l x)
  end.

Definition getMemoryStats : M memoryStats :=
  m <- MemorySystem.loadMemory ;;
  Js.ret (mkMemoryStats
            (count m) (List.length (interactions m)) (List.length (summaries m))
            MemorySystem.MAX_INTERACTIONS MemorySystem.MAX_SUMMARIES
            (textOrNull (option_map ts (List.head (interactions m))))
            (textOrNull (option_map ts (lastOf (interactions m))))
            (numberOrNull (option_map (fun s => startId (sRange s)) (List.head (summaries m))))
            (numberOrNull (option_map (fun s => endId (sRange s)) (lastOf (summaries m))))).

(** What [loadMemory] returns to [addInteraction]: a memory, as
    [saveMemory] writes it or the empty one of the [catch]; or, when the
    text of the file parses to something else, [null] or a value that has
    no property [interactions] (a number, a text, a list, an object such
    as [{}]).  Other values are not modelled. *)
Inductive loaded :=
| AMemory (m : memory)
| NullValue
| Unshaped.

(** [addInteraction] from the value that [loadMemory] returned.  The
    object literal of the interaction reads the clock for [ts], then
    [memory.count] for [id], which throws on [null].  Of a value without
    [interactions], the count is [undefined] and the call of [push] on
    [memory.interactions] throws. *)
Definition addInteractionTo (E : env) (req : request) (resp : response)
           (v : loaded) : M interaction :=
  stamp <- isoNow E ;;
  match v with
  | NullValue =>
      Js.throw (mkError TypeError "Cannot read properties of null (reading 'count')")
  | Unshaped =>
      Js.throw (mkError TypeError "Cannot read properties of undefined (reading 'push')")
  | AMemory m =>
      let i := mkInteraction req resp stamp (count m + 1) in
      let m1 := mkMemory (interactions m ++ [i])%list (summaries m) (count m + 1) in
      m2 <- (if Nat.ltb MemorySystem.MAX_INTERACTIONS (List.length (interactions m1))
             then MemorySystem.summarizeAndShift E m1 else Js.ret m1) ;;
      MemorySystem.saveMemory m2 ;;;
      Js.ret i
  end.

(* ================================================================== *)
(** ** lib/openaiWrapper.js: the retries of queryOpenAI *)

Module OpenaiWrapper.

(** [str.replace(/```json\n?|```/g, '')]: from left to right, an opening
    fence with its line feed when there is one, or a bare fence, is left
    out.  [skip] counts the characters of a fence still to leave out. *)
Fixpoint stripFencesFrom (skip : nat) (s : string) : string :=
  match s with
  | EmptyString => EmptyString
  | String c r =>
      match skip with
      | S k => stripFencesFrom k r
      | 0 =>
          if Str.startsWith s ("```json" ++ Str.nl) then stripFencesFrom 7 r
          else if Str.startsWith s "```json" then stripFencesFrom 6 r
          else if Str.startsWith s "```" then stripFencesFrom 2 r
          else String c (stripFencesFrom 0 r)
      end
  end.

(** [s.lastIndexOf(c)] for one character, [None] for -1. *)
Fixpoint lastIndexOf (c : ascii) (s : string) : option nat :=
  match s with
  | EmptyString => None
  | String d r =>
      match lastIndexOf c r with
      | Some n => Some (S n)
      | None => if Ascii.eqb d c then Some 0 else None
      end
  end.

(** [sanitizeJsonString(str)] for a string. *)
Definition sanitizeJsonString (str : string) : string :=
  let clean := Str.trim (stripFencesFrom 0 str) in
  match lastIndexOf "}" clean with
  | Some lastBrace =>
      if Nat.ltb lastBrace (String.length clean - 1)
      then substring 0 (lastBrace + 1) clean
      else clean
  | None => clean
  end.

(** How the [try] block of one attempt ends: with the parsed data, or with
    an error and its [status] ([None] when the error has none, as the
    SyntaxError of [JSON.parse]). *)
Inductive attempted (A : Type) : Type :=
| Parsed (a : A)
| Failed (status : option nat) (e : jsError).
Arguments Parsed {A} a.
Arguments Failed {A} status e.

(** How [queryOpenAI] ends; [RejectedLast] is the [throw lastError] that
    follows the loop. *)
Inductive settled (A : Type) : Type :=
| Resolved (a : A)
| Rejected (status : option nat) (e : jsError)
| RejectedLast (lastError : option (option nat * jsError)).
Arguments Resolved {A} a.
Arguments Rejected {A} status e.
Arguments RejectedLast {A} lastError.

(** What the attempts leave behind: the number of calls to the API, the
    delays slept in milliseconds and the lines of [console.warn], latest
    first. *)
Record trace := mkTrace {
  calls : nat;
  delays : list nat;
  warnings : list string
}.

Definition DEFAULT_MAX_RETRIES : nat := 3.

(** [error.status === 429 || (error.status >= 500 && error.status < 600)] *)
Definition retryableStatus (status : option nat) : bool :=
  match status with
  | Some n => Nat.eqb n 429 || (Nat.leb 500 n && Nat.ltb n 600)
  | None => false
  end.

Section Retry.

Variable A : Type.

(** The [try] block of the attempt of each number. *)
Variable request : nat -> attempted A.

(** The loop [for (let attempt = 0; attempt <= maxRetries; attempt++)]
    for [maxRetries] a whole number, 0 or more, from [attempt] on, with
    [left] passes to go.  [attemptsUnder], below, is the loop for any
    number. *)
Fixpoint attempts (maxRetries attempt left : nat)
         (lastError : option (option nat * jsError)) (t : trace) : settled A * trace :=
  match left with
  | 0 => (RejectedLast lastError, t)
  | S left' =>
      let t1 := mkTrace (S (calls t)) (delays t) (warnings t) in
      match request attempt with
      | Parsed a => (Resolved a, t1)
      | Failed status e =>
          if retryableStatus status && Nat.ltb attempt maxRetries then
            let delayMs := Nat.pow 2 attempt * 1000 in
            attempts maxRetries (S attempt) left' (Some (status, e))
              (mkTrace (calls t1) (delayMs :: delays t1)
                 (("Retry " ++ Str.ofNat (attempt + 1) ++ ": " ++ message e) :: warnings t1))
          else (Rejected status e, t1)
      end
  end.

Definition queryOpenAI (maxRetries : nat) : settled A * trace :=
  attempts maxRetries 0 (S maxRetries) None (mkTrace 0 [] []).

End Retry.

(** The option [maxRetries] is not checked: the loop compares whatever
    number it is given with [attempt], which is 0, 1, 2, ...  What the
    two comparisons give depends on where the number lies: it is no
    number ([NaN]), below 0 ([-Infinity] included), the whole number [n],
    strictly between [n] and [n + 1], or [Infinity]. *)
Inductive retryLimit :=
| NotANumber
| BelowZero
| Whole (n : nat)
| Fraction (n : nat)
| Unlimited.

(** [attempt <= maxRetries] *)
Definition withinLimit (attempt : nat) (maxRetries : retryLimit) : bool :=
  match maxRetries with
  | NotANumber | BelowZero => false
  | Whole n | Fraction n => Nat.leb attempt n
  | Unlimited => true
  end.

(** [attempt < maxRetries] *)
Definition belowLimit (attempt : nat) (maxRetries : retryLimit) : bool :=
  match maxRetries with
  | NotANumber | BelowZero => false
  | Whole n => Nat.ltb attempt n
  | Fraction n => Nat.leb attempt n
  | Unlimited => true
  end.

Section RetryUnder.

Variable A : Type.
Variable request : nat -> attempted A.

(** The loop [for (let attempt = 0; attempt <= maxRetries; attempt++)] for
    any number [maxRetries], from [attempt] on.  [fuel] bounds the passes
    of the model, not of the program: the result is [None] when the loop
    wants more passes than [fuel]. *)
Fixpoint attemptsUnder (maxRetries : retryLimit) (fuel attempt : nat)
         (lastError : option (option nat * jsError)) (t : trace)
  : option (settled A * trace) :=
  match fuel with
  | 0 => None
  | S fuel' =>
      if withinLimit attempt maxRetries then
        let t1 := mkTrace (S (calls t)) (delays t) (warnings t) in
        match request attempt with
        | Parsed a => Some (Resolved a, t1)
        | Failed status e =>
            if retryableStatus status && belowLimit attempt maxRetries then
              let delayMs := Nat.pow 2 attempt * 1000 in
              attemptsUnder maxRetries fuel' (S attempt) (Some (status, e))
                (mkTrace (calls t1) (delayMs :: delays t1)
                   (("Retry " ++ Str.ofNat (attempt + 1) ++ ": " ++ message e) :: warnings t1))
            else Some (Rejected status e, t1)
        end
      else Some (RejectedLast lastError, t)
  end.

Definition queryOpenAIWith (maxRetries : retryLimit) (fuel : nat)
  : option (settled A * trace) :=
  attemptsUnder maxRetries fuel 0 None (mkTrace 0 [] []).

End RetryUnder.
End OpenaiWrapper.

(* ================================================================== *)
(** ** What the further statements observe *)

(** The text holds no dollar sign. *)
Fixpoint dollarFree (s : string) : bool :=
  match s with
  | EmptyString => true
  | String c r => negb (Ascii.eqb c "$") && dollarFree r
  end.

(** The checklist line of a step once it is completed. *)
Definition checkedLine (idx : nat) (st : step) : string :=
  "- [x] " ++ Str.ofNat (idx + 1) ++ ". " ++ stepDescription st ++
  (if truthy (reasoning st) then " (" ++ reasoning st ++ ")" else "").

(** The checklist lines of a plan of which the step of number [n] (from 1)
    is completed, from the index [idx] on. *)
Fixpoint planLinesWith (n idx : nat) (l : list step) : list string :=
  match l with
  | [] => []
  | st :: r =>
      (if Nat.eqb (S idx) n then checkedLine idx st else NotesManager.planLine idx st)
      :: planLinesWith n (S idx) r
  end.

(** The checklist lines that [completeStep] counts in [lines], in the plan
    section or not at the start. *)
Fixpoint checklistLines (inPlanSection : bool) (lines : list string) : nat :=
  match lines with
  | [] => 0
  | line :: rest =>
      if Str.startsWith line "## Plan" then checklistLines true rest
      else if Str.startsWith line "##" then checklistLines false rest
      else if inPlanSection && Str.startsWith (Str.trim line) "- [" then
        S (checklistLines inPlanSection rest)
      else checklistLines inPlanSection rest
  end.

(** The content that [getMemoryContextString] cuts. *)
Definition aiContentOf (i : interaction) : string :=
  orElse (responseText (aiResponse i))
    (orElse (code (aiResponse i))
       (orElse (responseSummary (aiResponse i)) "Response data")).

(** The ends of the ranges of the summaries. *)
Definition rangeEnds (l : list summary) : list nat :=
  List.map (fun s => endId (sRange s)) l.

(** The window and the summaries of a memory are as [addInteraction]
    keeps them. *)
Definition windowKept (m : memory) : Prop :=
  List.length (interactions m) = Nat.min (count m) MemorySystem.MAX_INTERACTIONS
  /\ ids (interactions m)
     = List.seq (S (count m) - List.length (interactions m)) (List.length (interactions m)).

Definition summariesKept (m : memory) : Prop :=
  List.length (summaries m)
  <= Nat.min (count m - MemorySystem.MAX_INTERACTIONS) MemorySystem.MAX_SUMMARIES
  /\ List.Forall (fun s => endId (sRange s) = startId (sRange s) + 20
                           /\ endId (sRange s) <= count m) (summaries m)
  /\ Sorted.StronglySorted lt (rangeEnds (summaries m)).

(** The ranges of the summaries when the summarize agent answered every
    call: those of the windows kept at the last min (count - 21) 3 calls. *)
Definition windowsSummarized (m : memory) : Prop :=
  covered (summaries m)
  = List.map (fun e => (e - 20, e))
      (List.seq (S (count m) - Nat.min (count m - 21) 3) (Nat.min (count m - 21) 3)).

(** The text holds no character [c]. *)
Fixpoint freeOf (c : ascii) (s : string) : bool :=
  match s with
  | EmptyString => true
  | String d r => negb (Ascii.eqb d c) && freeOf c r
  end.

(** No description and no reasoning of the plan holds the character [c]. *)
Definition planFreeOf (c : ascii) (l : list step) : bool :=
  List.forallb (fun st => freeOf c (stepDescription st) && freeOf c (reasoning st)) l.

(** The template of the notes with the lines [lines] as its plan. *)
Definition notesWithPlan (stamp : string) (lines : list string) : string :=
  "# Agent Notes" ++ Str.nl ++
  Str.nl ++
  "## Current Task" ++ Str.nl ++
  "None" ++ Str.nl ++
  Str.nl ++
  "## Plan" ++ Str.nl ++
  Str.join Str.nl lines ++ Str.nl ++
  Str.nl ++
  "## Context" ++ Str.nl ++
  "- Session started: " ++ stamp ++ Str.nl ++
  Str.nl ++
  "## Completed" ++ Str.nl ++
  "- Nothing yet" ++ Str.nl ++
  Str.nl ++
  "## Blockers" ++ Str.nl ++
  "None" ++ Str.nl.

(** A computation that asks for no approval and runs no command. *)
Definition calm {A} (m : M A) : Prop :=
  forall w, asked (snd (m w)) = asked w /\ commands (snd (m w)) = commands w.

(** What a response in the list of [orchestrate] says of its command: that
    it was run, and that the approval was asked. *)
Definition ranCommand (r : response) : bool :=
  String.eqb (choice r) "terminalCommand" &&
  match terminalResultOf r with
  | Some t => executed t
  | None => false
  end.

Definition wasAsked (r : response) : bool :=
  String.eqb (choice r) "terminalCommand" && requiresApproval r.

(** The commands run and the approvals asked according to the responses
    [l], latest first. *)
Definition commandsRun (l : list response) : list string :=
  List.rev (List.map terminalCommand (List.filter ranCommand l)).

Definition approvalsAsked (l : list response) : list (string * string) :=
  List.rev (List.map (fun r => (terminalCommand r, commandReasoning r))
                     (List.filter wasAsked l)).

(** The calls to the landscape agent and to the plan agent among the calls
    to [queryOpenAI], and a computation that makes none. *)
Definition isAnalysis (c : agentCall) : bool :=
  match c with
  | LandscapeCall _ | PlanCall _ => true
  | _ => false
  end.

Definition analysisCalls (w : world) : list agentCall :=
  List.filter isAnalysis (agentCalls w).

Definition plainly {A} (m : M A) : Prop :=
  forall w, analysisCalls (snd (m w)) = analysisCalls w.

(** The last of the [k] commands proposed is the one proposed before it. *)
Definition repeatsLast (proposed : nat -> response) (k : nat) : bool :=
  Nat.leb 2 k &&
  String.eqb (terminalCommand (proposed (k - 2))) (terminalCommand (proposed (k - 1))).

(** The notes in which the decline of [command] was noted, and then the
    blocker of the denials: both under the heading of the blockers. *)
Definition denialsNoted (command declinedAt stoppedAt text : string) : string :=
  NotesManager.insertUnder "## Blockers" (NotesManager.stamped stoppedAt tooManyDenials)
    (NotesManager.insertUnder "## Blockers"
       (NotesManager.stamped declinedAt ("Command declined: " ++ command)) text).

(** The response in which the command was declined, and the approval that
    was asked for it. *)
Definition declinedResponse (r : response) : response :=
  AgentOrchestrator.setTerminalResult AgentOrchestrator.declined r.

Definition approvalOf (r : response) : string * string :=
  (terminalCommand r, commandReasoning r).

(** How [queryOpenAI] settles when the attempt [x] is its last one, and
    whether the attempt failed with a status that is retried. *)
Definition settledAs {A} (x : OpenaiWrapper.attempted A) : OpenaiWrapper.settled A :=
  match x with
  | OpenaiWrapper.Parsed a => OpenaiWrapper.Resolved a
  | OpenaiWrapper.Failed status e => OpenaiWrapper.Rejected status e
  end.

Definition retryable {A} (x : OpenaiWrapper.attempted A) : bool :=
  match x with
  | OpenaiWrapper.Parsed _ => false
  | OpenaiWrapper.Failed status _ => OpenaiWrapper.retryableStatus status
  end.

(** The delays slept before the attempt [k], latest first. *)
Definition backoff (k : nat) : list nat :=
  List.rev (List.map (fun j => Nat.pow 2 j * 1000) (List.seq 0 k)).

(* ================================================================== *)
(** ** Further scenarios *)

Module Cases.

(** Collaborators of which the summarize agent fails every call. *)
Definition noSummary : env :=
  mkEnv Scenario.tick (fun _ _ => Scenario.noAnswer) (fun _ _ => Scenario.noAnswer)
        (fun _ _ _ => Scenario.noAnswer)
        (fun _ _ => Scenario.noAnswer)
        (fun _ c => Returns (mkExecResult ("ran " ++ c) (Some 0) None))
        (fun _ => "{}") (fun _ => "{}").

(** The world after [n] interactions were added to the empty memory. *)
Definition filled (n : nat) : world :=
  snd (addAll noSummary (Scenario.exchanges n) Scenario.blank).

(** A command for which the agent does not require the approval. *)
Definition unguarded (cmd why : string) : response :=
  mkResponse "terminalCommand" "" "" "" "" cmd why false [] false None "".

(** An API that is overloaded (status 503) for the first [n] attempts and
    then answers. *)
Definition overloaded (n : nat) (attempt : nat) : OpenaiWrapper.attempted string :=
  if Nat.ltb attempt n
  then OpenaiWrapper.Failed (Some 503) (mkError CollaboratorError "Service Unavailable")
  else OpenaiWrapper.Parsed "{}".

End Cases.

(* ================================================================== *)
(** * Proofs *)

(* ================================================================== *)
(** ** The monad *)

Lemma bind_Ok {A B} (m : M A) (k : A -> M B) (w w' : world) (a : A) :
  m w = (Ok a, w') -> Js.bind m k w = k a w'.
Proof. intros H. unfold Js.bind. rewrite H. reflexivity. Qed.

Lemma bind_Throw {A B} (m : M A) (k : A -> M B) (w w' : world) (e : jsError) :
  m w = (Throw e, w') -> Js.bind m k w = (Throw e, w').
Proof. intros H. unfold Js.bind. rewrite H. reflexivity. Qed.

Lemma bind_OutOfFuel {A B} (m : M A) (k : A -> M B) (w w' : world) :
  m w = (OutOfFuel, w') -> Js.bind m k w = (OutOfFuel, w').
Proof. intros H. unfold Js.bind. rewrite H. reflexivity. Qed.

Lemma bind_assoc {A B C} (m : M A) (k : A -> M B) (h : B -> M C) (w : world) :
  Js.bind (Js.bind m k) h w = Js.bind m (fun a => Js.bind (k a) h) w.
Proof. unfold Js.bind. destruct (m w) as [[a|e|] w']; reflexivity. Qed.

Lemma bind_ext {A B} (m : M A) (k1 k2 : A -> M B) (w : world) :
  (forall a w', k1 a w' = k2 a w') -> Js.bind m k1 w = Js.bind m k2 w.
Proof. intros H. unfold Js.bind. destruct (m w) as [[a|e|] w']; auto. Qed.

(* ================================================================== *)
(** ** Loading the two stores *)

Lemma loadMemory_stored (w : world) :
  MemorySystem.loadMemory w = (Ok (stored (memoryFile w)), w).
Proof.
  unfold MemorySystem.loadMemory, Js.try_catch, Js.bind, Fs.readMemoryFile.
  destruct (memoryFile w) as [|r wr [|m]]; simpl; try destruct r; reflexivity.
Qed.

Lemma saveMemory_durable (m : memory) (w : world) :
  durable (memoryFile w) = true ->
  MemorySystem.saveMemory m w = (Ok tt, Fs.setMemoryFile (Holds true true (Document m)) w).
Proof.
  unfold MemorySystem.saveMemory, Fs.writeMemoryFile.
  destruct (memoryFile w) as [|r wr a]; simpl; [reflexivity|].
  destruct r, wr; simpl; intros H; try discriminate; reflexivity.
Qed.

Lemma addInteraction_first (E : env) (req : request) (resp : response)
      (f : file jsonText) (w : world) :
  stored f = MemorySystem.emptyMemory ->
  MemorySystem.addInteraction E req resp (Fs.setMemoryFile f w) =
  (let i := firstInteraction E req resp w in
   let (c, f') := Fs.writeFile (Document (mkMemory [i] [] 1)) f in
   (match c with Returns _ => Ok i | Throws e => Throw e end,
    Fs.setMemoryFile f' (setClock (S (clock w)) w))).
Proof.
  intros Hf. unfold MemorySystem.addInteraction.
  rewrite (bind_Ok _ _ _ _ _ (loadMemory_stored _)).
  cbn [memoryFile Fs.setMemoryFile]. rewrite Hf.
  unfold Js.bind, isoNow, MemorySystem.saveMemory, Fs.writeMemoryFile; cbn.
  destruct f as [|r wr a]; cbn; [reflexivity|].
  destruct wr; reflexivity.
Qed.

(** C10. Loading either store is total and never raises.  Whatever the
    state of the file, [loadMemory] returns a memory and leaves the world as
    it is: the memory of the file when the file can be read and parsed, the
    empty memory when the file is missing, unreadable or unparseable.
    [loadNotes] returns the text of the file when it can be read and the
    default template (stamped with the current time) otherwise.  After a
    failed read, [addInteraction] starts again from the empty memory: the
    interaction gets the id 1 and the file written holds it alone; no error
    of the read is propagated. *)
Theorem loading_never_raises (E : env) (w : world) :
  MemorySystem.loadMemory w =
    (Ok (match memoryFile w with
         | Holds true _ (Document m) => m
         | Absent | Holds false _ _ | Holds true _ Malformed => MemorySystem.emptyMemory
         end), w)
  /\ NotesManager.loadNotes E w =
       match notesFile w with
       | Holds true _ s => (Ok s, w)
       | Absent | Holds false _ _ =>
           (Ok (NotesManager.template (now E (clock w))), setClock (S (clock w)) w)
       end
  /\ (forall req resp,
        let i := firstInteraction E req resp w in
        let written := Document (mkMemory [i] [] 1) in
        let later := setClock (S (clock w)) w in
        MemorySystem.addInteraction E req resp (Fs.setMemoryFile Absent w)
          = (Ok i, Fs.setMemoryFile (Holds true true written) later)
        /\ (forall a, MemorySystem.addInteraction E req resp (Fs.setMemoryFile (Holds false true a) w)
                      = (Ok i, Fs.setMemoryFile (Holds false true written) later))
        /\ MemorySystem.addInteraction E req resp (Fs.setMemoryFile (Holds true true Malformed) w)
           = (Ok i, Fs.setMemoryFile (Holds true true written) later)).
Proof.
  split; [|split].
  - rewrite loadMemory_stored. unfold stored.
    destruct (memoryFile w) as [|r wr [|m]]; try destruct r; reflexivity.
  - unfold NotesManager.loadNotes, Js.try_catch, Fs.readNotesFile.
    destruct (notesFile w) as [|r wr s]; try destruct r; reflexivity.
  - intros req resp i written later.
    split; [|split]; intros; rewrite addInteraction_first; reflexivity.
Qed.

(* ================================================================== *)
(** ** The window of the memory *)

(** While the window is not full, [addInteraction] appends and saves. *)
Lemma addInteraction_appends (E : env) (req : request) (resp : response) (w : world) :
  durable (memoryFile w) = true ->
  List.length (interactions (stored (memoryFile w))) < MemorySystem.MAX_INTERACTIONS ->
  MemorySystem.addInteraction E req resp w =
  (Ok (nextInteraction E req resp w),
   Fs.setMemoryFile
     (Holds true true (Document (appended (stored (memoryFile w)) (nextInteraction E req resp w))))
     (setClock (S (clock w)) w)).
Proof.
  intros Hd Hlen. unfold MemorySystem.addInteraction.
  rewrite (bind_Ok _ _ _ _ _ (loadMemory_stored _)).
  unfold isoNow at 1. unfold Js.bind at 1.
  cbn [interactions].
  replace (Nat.ltb MemorySystem.MAX_INTERACTIONS
             (List.length (interactions (stored (memoryFile w)) ++
                [mkInteraction req resp (now E (clock w)) (count (stored (memoryFile w)) + 1)])%list))
    with false.
  2:{ symmetry. apply Nat.ltb_ge. rewrite length_app. simpl. lia. }
  unfold Js.bind at 1. unfold Js.ret at 1.
  erewrite bind_Ok.
  2:{ apply saveMemory_durable. exact Hd. }
  reflexivity.
Qed.

(** Once the window is full, [addInteraction] asks the summarize agent for
    one summary of all the interactions but the oldest, keeps the summary
    when the agent answers, and drops the oldest interaction either way. *)
Lemma addInteraction_slides (E : env) (req : request) (resp : response) (w : world) :
  durable (memoryFile w) = true ->
  MemorySystem.MAX_INTERACTIONS <= List.length (interactions (stored (memoryFile w))) ->
  let m := stored (memoryFile w) in
  let i := nextInteraction E req resp w in
  let toSummarize := List.tl (interactions m ++ [i])%list in
  let prompt := MemorySystem.summaryPrompt E toSummarize in
  exists w' kept,
    MemorySystem.addInteraction E req resp w = (Ok i, w')
    /\ memoryFile w' = Holds true true (Document (mkMemory toSummarize kept (count m + 1)))
    /\ notesFile w' = notesFile w
    /\ agentCalls w' = SummaryCall prompt :: agentCalls w
    /\ kept = match summarizeAgent E (List.length (agentCalls w)) prompt with
              | Returns sr =>
                  pushSummary (summaries m)
                    (summaryOf toSummarize (List.hd i toSummarize) sr (now E (S (clock w))))
              | Throws _ => summaries m
              end.
Proof.
  intros Hd Hlen m i toSummarize prompt.
  unfold MemorySystem.addInteraction.
  rewrite (bind_Ok _ _ _ _ _ (loadMemory_stored _)).
  unfold isoNow at 1. unfold Js.bind at 1.
  cbn [interactions].
  fold m. change (mkInteraction req resp (now E (clock w)) (count m + 1)) with i.
  replace (Nat.ltb MemorySystem.MAX_INTERACTIONS (List.length (interactions m ++ [i])%list))
    with true.
  2:{ symmetry. apply Nat.ltb_lt. rewrite length_app. simpl. unfold m. lia. }
  unfold MemorySystem.summarizeAndShift, MemorySystem.shift at 1.
  cbn [interactions summaries count]. fold toSummarize.
  assert (Hne : toSummarize <> []).
  { unfold toSummarize. unfold MemorySystem.MAX_INTERACTIONS in Hlen. fold m in Hlen.
    destruct (interactions m) as [|a [|b r]]; simpl in *; try lia; discriminate. }
  unfold MemorySystem.summarize, querySummarizeAgent, logCall.
  fold prompt.
  unfold Js.bind, Js.try_catch, Js.lift, Js.ret, Js.throw, isoNow, consoleError, Js.modify,
    MemorySystem.firstAndLast, MemorySystem.saveMemory, Fs.writeMemoryFile.
  cbn [agentCalls clock notesFile memoryFile asked commands console summaries fst snd].
  destruct (summarizeAgent E (List.length (agentCalls w)) prompt) as [sr|e].
  - destruct toSummarize as [|t0 rest] eqn:Hts; [contradiction|].
    cbn [agentCalls clock notesFile memoryFile asked commands console fst snd List.hd].
    destruct (memoryFile w) as [|r wr a] eqn:Hf; cbn.
    + eexists _, _. repeat split; reflexivity.
    + cbn in Hd. destruct r, wr; try discriminate. cbn.
      eexists _, _. repeat split; reflexivity.
  - cbn [agentCalls clock notesFile memoryFile asked commands console fst snd].
    destruct (memoryFile w) as [|r wr a] eqn:Hf; cbn.
    + eexists _, _. repeat split; reflexivity.
    + cbn in Hd. destruct r, wr; try discriminate. cbn.
      eexists _, _. repeat split; reflexivity.
Qed.

Lemma addAll_app (E : env) (l1 l2 : list (request * response)) (w : world) :
  addAll E (l1 ++ l2)%list w = (addAll E l1 ;;; addAll E l2) w.
Proof.
  revert w. induction l1 as [|x l1 IH]; intros w; simpl.
  - reflexivity.
  - rewrite bind_assoc. apply bind_ext. intros _ w'. apply IH.
Qed.

(** The window while it fills: the ids are 1..count, no summary exists, and
    no agent is called. *)
Lemma addAll_fills (E : env) (l : list (request * response)) (w : world) :
  durable (memoryFile w) = true ->
  summaries (stored (memoryFile w)) = [] ->
  ids (interactions (stored (memoryFile w))) = List.seq 1 (count (stored (memoryFile w))) ->
  count (stored (memoryFile w)) + List.length l <= MemorySystem.MAX_INTERACTIONS ->
  let w' := snd (addAll E l w) in
  fst (addAll E l w) = Ok tt
  /\ durable (memoryFile w') = true
  /\ summaries (stored (memoryFile w')) = []
  /\ ids (interactions (stored (memoryFile w'))) = List.seq 1 (count (stored (memoryFile w')))
  /\ count (stored (memoryFile w')) = count (stored (memoryFile w)) + List.length l
  /\ agentCalls w' = agentCalls w
  /\ notesFile w' = notesFile w.
Proof.
  revert w. induction l as [|x l IH]; intros w Hd Hs Hids Hn; simpl.
  - repeat split; auto.
  - simpl in Hn.
    assert (Hlen : List.length (interactions (stored (memoryFile w))) = count (stored (memoryFile w))).
    { unfold ids in Hids. rewrite <- (length_map id), Hids. apply length_seq. }
    rewrite (bind_Ok _ _ _ _ _ (addInteraction_appends E (fst x) (snd x) w Hd ltac:(lia))).
    set (w1 := Fs.setMemoryFile _ _).
    assert (Hst : stored (memoryFile w1)
                  = appended (stored (memoryFile w)) (nextInteraction E (fst x) (snd x) w)) by reflexivity.
    destruct (IH w1) as (H1 & H2 & H3 & H4 & H5 & H6 & H7).
    + reflexivity.
    + rewrite Hst. exact Hs.
    + rewrite Hst. unfold appended, ids. cbn [interactions count].
      rewrite map_app. fold (ids (interactions (stored (memoryFile w)))). rewrite Hids.
      cbn [List.map nextInteraction id]. rewrite Nat.add_1_r, seq_S.
      reflexivity.
    + rewrite Hst. unfold appended. cbn [count]. lia.
    + repeat split; auto.
      rewrite H5, Hst. unfold appended. cbn [count]. lia.
Qed.

(** The summaries kept are never more than three. *)
Lemma pushSummary_bounded (l : list summary) (s : summary) :
  List.length l <= MemorySystem.MAX_SUMMARIES ->
  List.length (pushSummary l s) <= MemorySystem.MAX_SUMMARIES.
Proof.
  intros H. unfold pushSummary, MemorySystem.shift.
  destruct (Nat.ltb MemorySystem.MAX_SUMMARIES (List.length (l ++ [s])%list)) eqn:Hlt.
  - rewrite length_tl, length_app. simpl. lia.
  - apply Nat.ltb_ge in Hlt. exact Hlt.
Qed.

Lemma summaries_stay_bounded (E : env) (req : request) (resp : response) (w : world) :
  durable (memoryFile w) = true ->
  List.length (summaries (stored (memoryFile w))) <= MemorySystem.MAX_SUMMARIES ->
  List.length (summaries (stored (memoryFile
     (snd (MemorySystem.addInteraction E req resp w))))) <= MemorySystem.MAX_SUMMARIES.
Proof.
  intros Hd Hs.
  destruct (Nat.lt_ge_cases (List.length (interactions (stored (memoryFile w))))
              MemorySystem.MAX_INTERACTIONS) as [Hlt | Hge].
  - rewrite (addInteraction_appends E req resp w Hd Hlt). exact Hs.
  - destruct (addInteraction_slides E req resp w Hd Hge) as (w' & kept & Ha & Hf & _ & _ & Hk).
    rewrite Ha. cbn [snd]. rewrite Hf. cbn [stored summaries]. rewrite Hk.
    destruct (summarizeAgent E _ _); [apply pushSummary_bounded|]; exact Hs.
Qed.

Lemma ids_tl (l : list interaction) : ids (List.tl l) = List.tl (ids l).
Proof. destruct l; reflexivity. Qed.

Lemma id_hd (l : list interaction) (d : interaction) :
  id (List.hd d l) = List.hd (id d) (ids l).
Proof. destruct l; reflexivity. Qed.

Lemma id_last (l : list interaction) (d : interaction) :
  id (List.last l d) = List.last (ids l) (id d).
Proof.
  induction l as [|a l IH]; [reflexivity|].
  destruct l as [|b l]; [reflexivity|]. exact IH.
Qed.

(** C3. Starting from the empty memory, after N <= 21 calls of
    [addInteraction] the memory holds exactly N interactions, of ids 1..N,
    and no summary, and no agent was called.  When N = 21, the next call
    (the 22nd) asks the summarize agent exactly once, for the interactions of
    ids 2..22; afterwards the memory holds exactly these 21 interactions, and
    the one summary, when the agent answered, covers the ids 2 to 22. *)
Theorem window_fills_then_slides (E : env) (w : world)
        (l : list (request * response)) (x : request * response) :
  durable (memoryFile w) = true ->
  stored (memoryFile w) = MemorySystem.emptyMemory ->
  List.length l <= 21 ->
  let w1 := snd (addAll E l w) in
  fst (addAll E l w) = Ok tt
  /\ (exists m1,
        MemorySystem.loadMemory w1 = (Ok m1, w1)
        /\ List.length (interactions m1) = List.length l
        /\ ids (interactions m1) = List.seq 1 (List.length l)
        /\ summaries m1 = []
        /\ agentCalls w1 = agentCalls w)
  /\ (List.length l = 21 ->
      let w2 := snd (MemorySystem.addInteraction E (fst x) (snd x) w1) in
      exists i m2 prompt,
        fst (MemorySystem.addInteraction E (fst x) (snd x) w1) = Ok i
        /\ id i = 22
        /\ MemorySystem.loadMemory w2 = (Ok m2, w2)
        /\ agentCalls w2 = SummaryCall prompt :: agentCalls w
        /\ prompt = MemorySystem.summaryPrompt E (interactions m2)
        /\ List.length (interactions m2) = 21
        /\ ids (interactions m2) = List.seq 2 21
        /\ covered (summaries m2) =
             match summarizeAgent E (List.length (agentCalls w)) prompt with
             | Returns _ => [(2, 22)]
             | Throws _ => []
             end).
Proof.
  intros Hd He Hn w1.
  destruct (addAll_fills E l w Hd) as (H1 & H2 & H3 & H4 & H5 & H6 & H7);
    try (rewrite He; reflexivity).
  { rewrite He. simpl. exact Hn. }
  fold w1 in H2, H3, H4, H5, H6, H7.
  rewrite He in H5. simpl in H5. rewrite H5 in H4.
  assert (Hlen : List.length (interactions (stored (memoryFile w1))) = List.length l).
  { unfold ids in H4. rewrite <- (length_map id), H4. apply length_seq. }
  split; [exact H1|]. split.
  - exists (stored (memoryFile w1)). rewrite loadMemory_stored. auto.
  - intros H21 w2.
    destruct (addInteraction_slides E (fst x) (snd x) w1 H2) as (w' & kept & Ha & Hf & _ & Hc & Hk).
    { rewrite Hlen, H21. apply Nat.le_refl. }
    unfold w2. rewrite Ha. cbn [fst snd].
    set (i := nextInteraction E (fst x) (snd x) w1) in *.
    set (toSummarize := List.tl (interactions (stored (memoryFile w1)) ++ [i])%list) in *.
    assert (Hi : id i = 22).
    { unfold i, nextInteraction. cbn [id]. rewrite H5, H21. reflexivity. }
    assert (Hids : ids toSummarize = List.seq 2 21).
    { unfold toSummarize. rewrite ids_tl. unfold ids. rewrite map_app.
      fold (ids (interactions (stored (memoryFile w1)))). rewrite H4, H21.
      cbn [List.map]. rewrite Hi. reflexivity. }
    exists i, (mkMemory toSummarize kept (count (stored (memoryFile w1)) + 1)),
      (MemorySystem.summaryPrompt E toSummarize).
    rewrite loadMemory_stored, Hf. cbn [stored interactions summaries].
    rewrite Hc, H6.
    repeat (split; [solve [auto]|]).
    split. { unfold ids in Hids. rewrite <- (length_map id), Hids. apply length_seq. }
    split; [exact Hids|].
    rewrite Hk, H6, H3.
    destruct (summarizeAgent E (List.length (agentCalls w)) (MemorySystem.summaryPrompt E toSummarize));
      [|reflexivity].
    unfold pushSummary, summaryOf. cbn [List.app List.length covered List.map sRange startId endId].
    rewrite id_last, id_hd, Hids, Hi. reflexivity.
Qed.

(* ================================================================== *)
(** ** What calls the base agent *)

Lemma quiet_ret {A} (a : A) : quiet (Js.ret a).
Proof. intros w. split; [discriminate | reflexivity]. Qed.

Lemma quiet_throw {A} (e : jsError) : quiet (@Js.throw A e).
Proof. intros w. split; [discriminate | reflexivity]. Qed.

Lemma quiet_lift {A} (c : completion A) : quiet (Js.lift c).
Proof. destruct c; [apply quiet_ret | apply quiet_throw]. Qed.

Lemma quiet_bind {A B} (m : M A) (k : A -> M B) :
  quiet m -> (forall a, quiet (k a)) -> quiet (Js.bind m k).
Proof.
  intros Hm Hk w. unfold Js.bind. destruct (Hm w) as [Hf Ht].
  destruct (m w) as [[a|e|] w1]; simpl in *.
  - destruct (Hk a w1) as [Hf' Ht']. split; [exact Hf' | congruence].
  - split; [discriminate | exact Ht].
  - contradiction.
Qed.

Lemma quiet_try {A} (m : M A) (h : jsError -> M A) :
  quiet m -> (forall e, quiet (h e)) -> quiet (Js.try_catch m h).
Proof.
  intros Hm Hh w. unfold Js.try_catch. destruct (Hm w) as [Hf Ht].
  destruct (m w) as [[a|e|] w1]; simpl in *.
  - split; [discriminate | exact Ht].
  - destruct (Hh e w1) as [Hf' Ht']. split; [exact Hf' | congruence].
  - contradiction.
Qed.

Lemma quiet_forEach {A} (l : list A) (f : A -> M unit) :
  (forall a, quiet (f a)) -> quiet (Js.forEach l f).
Proof.
  intros Hf. induction l as [|a l IH]; simpl.
  - apply quiet_ret.
  - apply quiet_bind; auto.
Qed.

Lemma quiet_modify (f : world -> world) :
  (forall w, agentCalls (f w) = agentCalls w) -> quiet (Js.modify f).
Proof.
  intros H w. split; [discriminate|]. unfold turnsOf. simpl. rewrite H. reflexivity.
Qed.

Lemma quiet_readNotesFile : quiet Fs.readNotesFile.
Proof. intros w. unfold Fs.readNotesFile. apply quiet_lift. Qed.

Lemma quiet_writeNotesFile (content : string) : quiet (Fs.writeNotesFile content).
Proof.
  intros w. unfold Fs.writeNotesFile.
  destruct (Fs.writeFile content (notesFile w)) as [c f].
  destruct (quiet_lift c (Fs.setNotesFile f w)) as [H1 H2]. split; [exact H1|].
  rewrite H2. reflexivity.
Qed.

Lemma quiet_readMemoryFile : quiet Fs.readMemoryFile.
Proof. intros w. unfold Fs.readMemoryFile. apply quiet_lift. Qed.

Lemma quiet_writeMemoryFile (data : jsonText) : quiet (Fs.writeMemoryFile data).
Proof.
  intros w. unfold Fs.writeMemoryFile.
  destruct (Fs.writeFile data (memoryFile w)) as [c f].
  destruct (quiet_lift c (Fs.setMemoryFile f w)) as [H1 H2]. split; [exact H1|].
  rewrite H2. reflexivity.
Qed.

Lemma quiet_JSON_parse (data : jsonText) : quiet (JSON_parse data).
Proof. destruct data; [apply quiet_throw | apply quiet_ret]. Qed.

Lemma quiet_isoNow (E : env) : quiet (isoNow E).
Proof. intros w. split; [discriminate | reflexivity]. Qed.

Lemma quiet_consoleError (line : string) : quiet (consoleError line).
Proof. apply quiet_modify. reflexivity. Qed.

Lemma quiet_runCommand (E : env) (command : string) : quiet (runCommand E command).
Proof.
  intros w. unfold runCommand.
  match goal with |- context [Js.lift ?c ?w1] => destruct (quiet_lift c w1) as [H1 H2] end.
  split; [exact H1 | rewrite H2; reflexivity].
Qed.

Lemma quiet_queryLandscapeAgent (E : env) (prompt : string) :
  quiet (queryLandscapeAgent E prompt).
Proof.
  intros w. unfold queryLandscapeAgent, logCall, Js.bind.
  match goal with |- context [Js.lift ?c ?w1] => destruct (quiet_lift c w1) as [H1 H2] end.
  split; [exact H1 | rewrite H2; reflexivity].
Qed.

Lemma quiet_queryPlanStepsAgent (E : env) (prompt : string) :
  quiet (queryPlanStepsAgent E prompt).
Proof.
  intros w. unfold queryPlanStepsAgent, logCall, Js.bind.
  match goal with |- context [Js.lift ?c ?w1] => destruct (quiet_lift c w1) as [H1 H2] end.
  split; [exact H1 | rewrite H2; reflexivity].
Qed.

Lemma quiet_querySummarizeAgent (E : env) (prompt : string) :
  quiet (querySummarizeAgent E prompt).
Proof.
  intros w. unfold querySummarizeAgent, logCall, Js.bind.
  match goal with |- context [Js.lift ?c ?w1] => destruct (quiet_lift c w1) as [H1 H2] end.
  split; [exact H1 | rewrite H2; reflexivity].
Qed.

Create HintDb quiet.
#[local] Hint Resolve quiet_ret quiet_throw quiet_lift quiet_bind quiet_try quiet_forEach
  quiet_readNotesFile quiet_writeNotesFile quiet_readMemoryFile quiet_writeMemoryFile
  quiet_JSON_parse quiet_isoNow quiet_consoleError quiet_runCommand
  quiet_queryLandscapeAgent quiet_queryPlanStepsAgent quiet_querySummarizeAgent : quiet.

(** The proof that a computation built of quiet ones is quiet: by the
    lemmas above, case by case where the code branches. *)
Ltac quiet_step :=
  match goal with
  | |- quiet (if ?b then _ else _) => destruct b
  | |- quiet (match ?x with _ => _ end) => destruct x
  | |- quiet (Js.bind _ _) => apply quiet_bind; [|intros]
  | |- quiet (Js.try_catch _ _) => apply quiet_try; [|intros]
  | |- quiet (Js.forEach _ _) => apply quiet_forEach; intros
  | |- quiet _ => solve [auto with quiet]
  end.

Ltac quiet_auto := repeat quiet_step.

Lemma quiet_loadNotes (E : env) : quiet (NotesManager.loadNotes E).
Proof. unfold NotesManager.loadNotes. quiet_auto. Qed.

Lemma quiet_saveNotes (content : string) : quiet (NotesManager.saveNotes content).
Proof. unfold NotesManager.saveNotes. quiet_auto. Qed.

#[local] Hint Resolve quiet_loadNotes quiet_saveNotes : quiet.

Lemma quiet_addUnder (E : env) (heading item : string) :
  quiet (NotesManager.addUnder E heading item).
Proof. unfold NotesManager.addUnder. quiet_auto. Qed.

Lemma quiet_completeStep (E : env) (n : nat) : quiet (NotesManager.completeStep E n).
Proof. unfold NotesManager.completeStep. quiet_auto. Qed.

Lemma quiet_setPlan (E : env) (l : list step) : quiet (NotesManager.setPlan E l).
Proof. unfold NotesManager.setPlan. quiet_auto. Qed.

Lemma quiet_updateCurrentTask (E : env) (t : string) :
  quiet (NotesManager.updateCurrentTask E t).
Proof. unfold NotesManager.updateCurrentTask. quiet_auto. Qed.

#[local] Hint Resolve quiet_addUnder quiet_completeStep quiet_setPlan
  quiet_updateCurrentTask : quiet.

Lemma quiet_addBlocker (E : env) (b : string) : quiet (NotesManager.addBlocker E b).
Proof. unfold NotesManager.addBlocker. quiet_auto. Qed.

Lemma quiet_addCompleted (E : env) (b : string) : quiet (NotesManager.addCompleted E b).
Proof. unfold NotesManager.addCompleted. quiet_auto. Qed.

Lemma quiet_addContext (E : env) (b : string) : quiet (NotesManager.addContext E b).
Proof. unfold NotesManager.addContext. quiet_auto. Qed.

#[local] Hint Resolve quiet_addBlocker quiet_addCompleted quiet_addContext : quiet.

Lemma quiet_loadMemory : quiet MemorySystem.loadMemory.
Proof. unfold MemorySystem.loadMemory. quiet_auto. Qed.

Lemma quiet_saveMemory (m : memory) : quiet (MemorySystem.saveMemory m).
Proof. unfold MemorySystem.saveMemory. quiet_auto. Qed.

#[local] Hint Resolve quiet_loadMemory quiet_saveMemory : quiet.

Lemma quiet_summarizeAndShift (E : env) (m : memory) :
  quiet (MemorySystem.summarizeAndShift E m).
Proof.
  unfold MemorySystem.summarizeAndShift, MemorySystem.summarize, MemorySystem.firstAndLast.
  quiet_auto.
Qed.

#[local] Hint Resolve quiet_summarizeAndShift : quiet.

Lemma quiet_addInteraction (E : env) (req : request) (resp : response) :
  quiet (MemorySystem.addInteraction E req resp).
Proof. unfold MemorySystem.addInteraction. quiet_auto. Qed.

Lemma quiet_getMemoryContextString : quiet MemorySystem.getMemoryContextString.
Proof. unfold MemorySystem.getMemoryContextString. quiet_auto. Qed.

#[local] Hint Resolve quiet_addInteraction quiet_getMemoryContextString : quiet.

Lemma quiet_callApproval (E : env) (ask : option (nat -> string -> string -> completion bool))
      (command rationale : string) :
  quiet (AgentOrchestrator.callApproval ask command rationale).
Proof.
  unfold AgentOrchestrator.callApproval. destruct ask as [f|]; [|apply quiet_throw].
  intros w.
  match goal with |- context [Js.lift ?c ?w1] => destruct (quiet_lift c w1) as [H1 H2] end.
  split; [exact H1 | rewrite H2; reflexivity].
Qed.

#[local] Hint Resolve quiet_callApproval : quiet.

Lemma quiet_handleTerminalCommand (E : env) (r : response)
      (ask : option (nat -> string -> string -> completion bool)) :
  quiet (AgentOrchestrator.handleTerminalCommand E r ask).
Proof.
  unfold AgentOrchestrator.handleTerminalCommand, AgentOrchestrator.execute. quiet_auto.
Qed.

Lemma quiet_tryCompleteFrom (E : env) (l : list step) (i : nat) (a r : string) :
  quiet (AgentOrchestrator.tryCompleteFrom E i l a r).
Proof.
  revert i. induction l as [|st l IH]; intros i; simpl; [apply quiet_ret|].
  destruct (AgentOrchestrator.stepMatches st a r); [|apply IH]. quiet_auto.
Qed.

#[local] Hint Resolve quiet_handleTerminalCommand quiet_tryCompleteFrom : quiet.

Lemma quiet_tryCompletePlan (E : env) (p : option plan) (a r : string) :
  quiet (AgentOrchestrator.tryCompletePlan E p a r).
Proof.
  unfold AgentOrchestrator.tryCompletePlan, AgentOrchestrator.tryCompleteMatchingStep.
  quiet_auto.
Qed.

Lemma quiet_trackMissing (E : env) (l : list string) :
  quiet (AgentOrchestrator.trackMissing E l).
Proof. unfold AgentOrchestrator.trackMissing. quiet_auto. Qed.

#[local] Hint Resolve quiet_tryCompletePlan quiet_trackMissing : quiet.

Lemma quiet_terminalBlock (E : env) (O : options) (p : option plan) (r : response)
      (st : AgentOrchestrator.loopState) :
  quiet (AgentOrchestrator.terminalBlock E O p r st).
Proof. unfold AgentOrchestrator.terminalBlock. quiet_auto. Qed.

Lemma quiet_codeBlock (E : env) (p : option plan) (r : response) :
  quiet (AgentOrchestrator.codeBlock E p r).
Proof. unfold AgentOrchestrator.codeBlock. quiet_auto. Qed.

Lemma quiet_notifyThinking (O : options) (n : nat) :
  quiet (AgentOrchestrator.notifyThinking O n).
Proof. unfold AgentOrchestrator.notifyThinking. quiet_auto. Qed.

Lemma quiet_notifyResponse (O : options) (r : response) (n : nat) :
  quiet (AgentOrchestrator.notifyResponse O r n).
Proof. unfold AgentOrchestrator.notifyResponse. quiet_auto. Qed.

Lemma quiet_analyse (E : env) (O : options) (q : string) :
  quiet (AgentOrchestrator.analyse E O q).
Proof.
  unfold AgentOrchestrator.analyse, AgentOrchestrator.runLandscapeAnalysis,
    AgentOrchestrator.createPlanSteps.
  quiet_auto.
Qed.

#[local] Hint Resolve quiet_terminalBlock quiet_codeBlock quiet_notifyThinking
  quiet_notifyResponse quiet_analyse : quiet.

(** How a quiet computation ends. *)
Lemma quiet_run {A} (m : M A) (w : world) :
  quiet m ->
  (exists a w', m w = (Ok a, w') /\ turnsOf w' = turnsOf w)
  \/ (exists e w', m w = (Throw e, w') /\ turnsOf w' = turnsOf w).
Proof.
  intros H. destruct (H w) as [Hf Ht].
  destruct (m w) as [[a|e|] w1]; simpl in *.
  - left. eauto.
  - right. eauto.
  - contradiction.
Qed.

Lemma bind_inv_Ok {A B} (m : M A) (k : A -> M B) (w w' : world) (b : B) :
  Js.bind m k w = (Ok b, w') ->
  exists a w1, m w = (Ok a, w1) /\ k a w1 = (Ok b, w').
Proof.
  unfold Js.bind. destruct (m w) as [[a|e|] w1]; intros H; try discriminate. eauto.
Qed.

Lemma ensures_ret {A} (a : A) (Q : A -> Prop) : Q a -> ensures (Js.ret a) Q.
Proof. intros H w b w' Hr. inversion Hr. subst. exact H. Qed.

Lemma ensures_bind {A B} (m : M A) (k : A -> M B) (Q : B -> Prop) :
  (forall a, ensures (k a) Q) -> ensures (Js.bind m k) Q.
Proof.
  intros H w b w' Hr. apply bind_inv_Ok in Hr. destruct Hr as (a & w1 & _ & Hk).
  exact (H a w1 b w' Hk).
Qed.

Lemma terminalBlock_ensures (E : env) (O : options) (p : option plan) (r : response)
      (st : AgentOrchestrator.loopState) :
  ensures (AgentOrchestrator.terminalBlock E O p r st)
          (fun f =>
             AgentOrchestrator.lsIteration (snd (flowState f)) = AgentOrchestrator.lsIteration st
             /\ sameSetting (AgentOrchestrator.lsAgentContext st)
                            (AgentOrchestrator.lsAgentContext (snd (flowState f)))).
Proof.
  unfold AgentOrchestrator.terminalBlock, sameSetting.
  destruct (String.eqb (choice r) "terminalCommand").
  - apply ensures_bind. intros t. destruct (executed t).
    + repeat (apply ensures_bind; intros). apply ensures_ret. simpl. auto.
    + apply ensures_bind; intros.
      destruct (Nat.leb _ _).
      * apply ensures_bind; intros. apply ensures_ret. simpl. auto.
      * apply ensures_ret. simpl. auto.
  - apply ensures_ret. simpl. auto.
Qed.

Lemma queryBaseAgent_run (E : env) (q c : string) (w : world) :
  exists w',
    turnsOf w' = (q, c) :: turnsOf w
    /\ ((exists r, queryBaseAgent E q c w = (Ok r, w'))
        \/ (exists e, queryBaseAgent E q c w = (Throw e, w'))).
Proof.
  unfold queryBaseAgent, logCall, Js.bind, Js.lift.
  destruct (baseAgent E (List.length (agentCalls w)) q c) as [r|e];
    eexists; (split; [|solve [left; eexists; reflexivity | right; eexists; reflexivity]]);
    reflexivity.
Qed.

(** One pass of the loop calls the base agent once, with the context built
    of the agent context of the pass; it counts the pass, asks for another
    one only below the cap, and leaves the memory text and the notes of the
    agent context as they were. *)
Lemma turn_spec (E : env) (O : options) (q : string) (p : option plan)
      (st : AgentOrchestrator.loopState) (w : world) :
  let c := AgentOrchestrator.buildContextString (AgentOrchestrator.lsAgentContext st) in
  match AgentOrchestrator.turn E O q p st w with
  | (Ok (again, st'), w') =>
      turnsOf w' = (q, c) :: turnsOf w
      /\ AgentOrchestrator.lsIteration st' = S (AgentOrchestrator.lsIteration st)
      /\ (again = true ->
          S (AgentOrchestrator.lsIteration st) < AgentOrchestrator.MAX_CONTINUE_ITERATIONS)
      /\ sameSetting (AgentOrchestrator.lsAgentContext st) (AgentOrchestrator.lsAgentContext st')
  | (Throw _, w') => turnsOf w' = turnsOf w \/ turnsOf w' = (q, c) :: turnsOf w
  | (OutOfFuel, _) => False
  end.
Proof.
  intros c. unfold AgentOrchestrator.turn. fold c.
  destruct (quiet_run _ w (quiet_notifyThinking O (S (AgentOrchestrator.lsIteration st))))
    as [(u & w1 & H1 & T1) | (e & w1 & H1 & T1)].
  2:{ rewrite (bind_Throw _ _ _ _ _ H1). left. exact T1. }
  rewrite (bind_Ok _ _ _ _ _ H1).
  destruct (queryBaseAgent_run E q c w1) as (w2 & T2 & [[r H2] | [e H2]]).
  2:{ rewrite (bind_Throw _ _ _ _ _ H2). right. congruence. }
  rewrite (bind_Ok _ _ _ _ _ H2). rewrite T1 in T2.
  match goal with |- context [AgentOrchestrator.terminalBlock E O p r ?s] => set (st1 := s) end.
  destruct (quiet_run _ w2 (quiet_terminalBlock E O p r st1))
    as [(f & w3 & H3 & T3) | (e & w3 & H3 & T3)].
  2:{ rewrite (bind_Throw _ _ _ _ _ H3). right. congruence. }
  rewrite (bind_Ok _ _ _ _ _ H3).
  destruct (terminalBlock_ensures E O p r st1 _ _ _ H3) as [Hi Hs].
  destruct f as [[r' st'] | [r' st']]; cbn [flowState snd] in Hi, Hs.
  - match goal with |- match ?tail w3 with _ => _ end => set (m := tail) end.
    assert (Hq : quiet m) by (unfold m; quiet_auto).
    assert (He : ensures m (fun v =>
                  AgentOrchestrator.lsIteration (snd v) = S (AgentOrchestrator.lsIteration st)
                  /\ (fst v = true ->
                      S (AgentOrchestrator.lsIteration st) < AgentOrchestrator.MAX_CONTINUE_ITERATIONS)
                  /\ sameSetting (AgentOrchestrator.lsAgentContext st)
                                 (AgentOrchestrator.lsAgentContext (snd v)))).
    { unfold m. repeat (apply ensures_bind; intros). apply ensures_ret.
      cbn [fst snd AgentOrchestrator.lsIteration AgentOrchestrator.pushResponse
           AgentOrchestrator.lsAgentContext].
      split; [exact Hi|]. split.
      - intros Hc. apply andb_prop in Hc. destruct Hc as [_ Hc].
        apply Nat.ltb_lt in Hc. exact Hc.
      - unfold sameSetting in *. destruct Hs as [Hs1 Hs2]. simpl. auto. }
    destruct (quiet_run m w3 Hq) as [(v & w4 & H4 & T4) | (e & w4 & H4 & T4)]; rewrite H4.
    + destruct v as [again st2]. destruct (He _ _ _ H4) as (Ha & Hb & Hc).
      cbn [fst snd] in *. repeat split; try assumption; try congruence; apply Hc.
    + right. congruence.
  - unfold Js.ret. cbn [AgentOrchestrator.pushResponse AgentOrchestrator.lsIteration
                        AgentOrchestrator.lsAgentContext].
    repeat split; try assumption; try congruence; try discriminate; apply Hs.
Qed.

(** The loop, from any state: the calls it makes to the base agent, latest
    first.  They are no more than the passes left below the cap (one at
    least: the loop tests its condition after the pass), each is made with
    the query and with a context built with the memory text and the notes of
    the agent context at the start; and the budget of the model is not used
    up when it allows that many passes. *)
Lemma iterate_spec (E : env) (O : options) (q : string) (p : option plan) :
  forall (fuel : nat) (st : AgentOrchestrator.loopState) (w : world),
    let passes := Nat.max 1 (AgentOrchestrator.MAX_CONTINUE_ITERATIONS
                             - AgentOrchestrator.lsIteration st) in
    let mem := AgentOrchestrator.acMemory (AgentOrchestrator.lsAgentContext st) in
    let notes := AgentOrchestrator.acNotes (AgentOrchestrator.lsAgentContext st) in
    exists new,
      turnsOf (snd (AgentOrchestrator.iterate E fuel O q p st w)) = (new ++ turnsOf w)%list
      /\ List.length new <= passes
      /\ List.Forall (fun qc => fst qc = q /\ builtWith mem notes (snd qc)) new
      /\ (passes <= fuel -> fst (AgentOrchestrator.iterate E fuel O q p st w) <> OutOfFuel).
Proof.
  induction fuel as [|k IH]; intros st w passes mem notes.
  - exists []. simpl. repeat split; auto; lia.
  - cbn [AgentOrchestrator.iterate].
    pose proof (turn_spec E O q p st w) as Ht. cbv zeta in Ht.
    destruct (AgentOrchestrator.turn E O q p st w) as [[[again st']|e|] w1] eqn:Hturn;
      [rewrite (bind_Ok _ _ _ _ _ Hturn) | rewrite (bind_Throw _ _ _ _ _ Hturn) | contradiction].
    + destruct Ht as (T & Hi & Hc & Hs).
      assert (Hb : builtWith mem notes
                     (AgentOrchestrator.buildContextString (AgentOrchestrator.lsAgentContext st))).
      { exists (AgentOrchestrator.lsAgentContext st). auto. }
      cbn [fst snd]. destruct again.
      * specialize (Hc eq_refl).
        destruct (IH st' w1) as (new & Hn & Hl & Hf & Hfuel).
        exists (new ++ [(q, AgentOrchestrator.buildContextString (AgentOrchestrator.lsAgentContext st))])%list.
        rewrite Hn, T, <- app_assoc. split; [reflexivity|].
        split. { rewrite length_app. simpl. unfold passes. rewrite Hi in Hl. lia. }
        split.
        { apply Forall_app. split.
          - destruct Hs as [Hs1 Hs2]. unfold mem, notes. rewrite <- Hs1, <- Hs2. exact Hf.
          - constructor; [|constructor]. split; [reflexivity | exact Hb]. }
        intros Hp. apply Hfuel. unfold passes in Hp. rewrite Hi. lia.
      * exists [(q, AgentOrchestrator.buildContextString (AgentOrchestrator.lsAgentContext st))].
        unfold Js.ret. cbn [fst snd]. rewrite T. split; [reflexivity|].
        split. { simpl. unfold passes. lia. }
        split. { constructor; [|constructor]. split; [reflexivity | exact Hb]. }
        intros _. discriminate.
    + cbn [fst snd]. destruct Ht as [T | T].
      * exists []. rewrite T. repeat split; auto; try (simpl; lia). discriminate.
      * exists [(q, AgentOrchestrator.buildContextString (AgentOrchestrator.lsAgentContext st))].
        rewrite T. split; [reflexivity|].
        split. { simpl. unfold passes. lia. }
        split. { constructor; [|constructor]. split; [reflexivity|].
                 exists (AgentOrchestrator.lsAgentContext st). auto. }
        intros _. discriminate.
Qed.

Lemma loadNotes_run (E : env) (w : world) :
  exists w1,
    NotesManager.loadNotes E w = (Ok (loadedNotes E w), w1)
    /\ memoryFile w1 = memoryFile w
    /\ notesFile w1 = notesFile w
    /\ agentCalls w1 = agentCalls w.
Proof.
  unfold NotesManager.loadNotes, Js.try_catch, Fs.readNotesFile, loadedNotes.
  destruct (notesFile w) as [|r wr s] eqn:Hn; try destruct r; cbn;
    eexists; repeat split; try reflexivity; auto.
Qed.

Lemma getMemoryContextString_run (w : world) :
  MemorySystem.getMemoryContextString w = (Ok (loadedMemoryContext w), w).
Proof.
  unfold MemorySystem.getMemoryContextString.
  rewrite (bind_Ok _ _ _ _ _ (loadMemory_stored w)). reflexivity.
Qed.

(** The [try] block of [orchestrate]: the calls it makes to the base agent. *)
Lemma tryBlock_spec (E : env) (fuel : nat) (q : string) (O : options) (w : world) :
  exists new,
    turnsOf (snd (AgentOrchestrator.tryBlock E fuel q O w)) = (new ++ turnsOf w)%list
    /\ List.length new <= AgentOrchestrator.MAX_CONTINUE_ITERATIONS
    /\ List.Forall (fun qc => fst qc = q
                              /\ builtWith (loadedMemoryContext w) (loadedNotes E w) (snd qc)) new
    /\ (AgentOrchestrator.MAX_CONTINUE_ITERATIONS <= fuel ->
        fst (AgentOrchestrator.tryBlock E fuel q O w) <> OutOfFuel).
Proof.
  unfold AgentOrchestrator.tryBlock.
  destruct (loadNotes_run E w) as (w1 & H1 & Hm & _ & Hc).
  rewrite (bind_Ok _ _ _ _ _ H1).
  rewrite (bind_Ok _ _ _ _ _ (getMemoryContextString_run w1)).
  assert (T1 : turnsOf w1 = turnsOf w) by (unfold turnsOf; rewrite Hc; reflexivity).
  assert (Hmem : loadedMemoryContext w1 = loadedMemoryContext w)
    by (unfold loadedMemoryContext; rewrite Hm; reflexivity).
  rewrite Hmem.
  destruct (quiet_run _ w1 (quiet_analyse E O q)) as [(lp & w2 & H2 & T2) | (e & w2 & H2 & T2)].
  2:{ rewrite (bind_Throw _ _ _ _ _ H2). exists []. cbn [fst snd List.app].
      repeat split; auto; try (simpl; lia); try congruence. }
  rewrite (bind_Ok _ _ _ _ _ H2).
  match goal with |- context [AgentOrchestrator.iterate E fuel O q ?pl ?s] =>
    destruct (iterate_spec E O q pl fuel s w2) as (new & Hn & Hl & Hf & Hfuel)
  end.
  cbn [AgentOrchestrator.lsIteration AgentOrchestrator.lsAgentContext
       AgentOrchestrator.acMemory AgentOrchestrator.acNotes] in Hl, Hf, Hfuel.
  exists new.
  destruct (AgentOrchestrator.iterate E fuel O q (snd lp) _ w2) as [[st|e|] w3] eqn:Hit;
    [rewrite (bind_Ok _ _ _ _ _ Hit) | rewrite (bind_Throw _ _ _ _ _ Hit)
     | rewrite (bind_OutOfFuel _ _ _ _ Hit)];
    cbn [fst snd] in *; unfold Js.ret; cbn [fst snd];
    (split; [congruence|]); (split; [exact Hl|]); (split; [exact Hf|]);
    intros H; try discriminate.
  exfalso. apply Hfuel; [|reflexivity]. simpl. exact H.
Qed.

(** [orchestrate]: the calls it makes to the base agent.  The handler of
    its [catch] makes none. *)
Lemma orchestrate_spec (E : env) (fuel : nat) (q : string) (O : options) (w : world) :
  exists new,
    turnsOf (snd (AgentOrchestrator.orchestrate E fuel q O w)) = (new ++ turnsOf w)%list
    /\ List.length new <= AgentOrchestrator.MAX_CONTINUE_ITERATIONS
    /\ List.Forall (fun qc => fst qc = q
                              /\ builtWith (loadedMemoryContext w) (loadedNotes E w) (snd qc)) new
    /\ (AgentOrchestrator.MAX_CONTINUE_ITERATIONS <= fuel ->
        fst (AgentOrchestrator.orchestrate E fuel q O w) <> OutOfFuel).
Proof.
  destruct (tryBlock_spec E fuel q O w) as (new & Hn & Hl & Hf & Hfuel).
  exists new. unfold AgentOrchestrator.orchestrate, Js.try_catch.
  destruct (AgentOrchestrator.tryBlock E fuel q O w) as [[a|e|] w1]; cbn [fst snd] in *.
  - repeat split; auto.
  - match goal with |- context [Js.bind ?m ?k w1] =>
      assert (Hq : quiet (Js.bind m k)) by quiet_auto;
      destruct (Hq w1) as [Hq1 Hq2]
    end.
    repeat split; auto. congruence.
  - repeat split; auto.
Qed.

(** C1. Whatever the collaborators answer, one call of [orchestrate] calls
    the base agent (the turn-level reasoning collaborator) at most 5 times:
    the loop ends after at most 5 passes, also when every response asks to
    continue.  The loop of the model needs no more than 5 passes either: a
    budget of 5 is never used up. *)
Theorem orchestrate_turn_calls_bounded (E : env) (fuel : nat) (q : string)
        (O : options) (w : world) :
  AgentOrchestrator.MAX_CONTINUE_ITERATIONS <= fuel ->
  fst (AgentOrchestrator.orchestrate E fuel q O w) <> OutOfFuel
  /\ exists new,
       turnsOf (snd (AgentOrchestrator.orchestrate E fuel q O w)) = (new ++ turnsOf w)%list
       /\ List.length new <= 5.
Proof.
  intros Hfuel. destruct (orchestrate_spec E fuel q O w) as (new & Hn & Hl & _ & Hf).
  split; [exact (Hf Hfuel)|]. exists new. split; [exact Hn | exact Hl].
Qed.

(** C7, as the code has it. In one call of [orchestrate], every call to the
    base agent, that of pass N+1 included, is made with a context string
    built with the memory text and the notes that were loaded once, before
    the analysis and the loop: not with what pass N recorded since. *)
Theorem context_built_with_state_loaded_before_loop (E : env) (fuel : nat) (q : string)
        (O : options) (w : world) :
  exists new,
    turnsOf (snd (AgentOrchestrator.orchestrate E fuel q O w)) = (new ++ turnsOf w)%list
    /\ List.Forall
         (fun qc => builtWith (loadedMemoryContext w) (loadedNotes E w) (snd qc)) new.
Proof.
  destruct (orchestrate_spec E fuel q O w) as (new & Hn & _ & Hf & _).
  exists new. split; [exact Hn|].
  eapply Forall_impl; [|exact Hf]. intros qc [_ H]. exact H.
Qed.

(* ================================================================== *)
(** ** The notes under a heading *)

Lemma addUnder_durable (E : env) (heading item : string) (w : world) :
  durable (notesFile w) = true ->
  NotesManager.addUnder E heading item w = (Ok tt, withLine E heading item w).
Proof.
  intros Hd. unfold NotesManager.addUnder, NotesManager.loadNotes, Js.try_catch,
    Fs.readNotesFile, withLine, loadedNotes, stampClock, NotesManager.saveNotes,
    Fs.writeNotesFile, Js.bind, isoNow.
  destruct (notesFile w) as [|r wr s] eqn:Hn.
  - cbn [Fs.readFile Js.lift Js.throw Js.ret notesFile clock Fs.writeFile].
    rewrite Hn. reflexivity.
  - cbn in Hd. destruct r, wr; try discriminate.
    cbn [Fs.readFile Js.lift Js.throw Js.ret notesFile clock Fs.writeFile].
    rewrite Hn. reflexivity.
Qed.

Lemma withLine_durable (E : env) (heading item : string) (w : world) :
  durable (notesFile (withLine E heading item w)) = true.
Proof. reflexivity. Qed.

(* ================================================================== *)
(** ** Declined commands *)

Lemma handleTerminalCommand_declined (E : env) (r : response)
      (f : nat -> string -> string -> completion bool) (w : world) :
  requiresApproval r = true ->
  f (List.length (asked w)) (terminalCommand r) (commandReasoning r) = Returns false ->
  AgentOrchestrator.handleTerminalCommand E r (Some f) w
  = (Ok AgentOrchestrator.declined, askedFor (terminalCommand r) (commandReasoning r) w).
Proof.
  intros Ha Hf. unfold AgentOrchestrator.handleTerminalCommand. rewrite Ha.
  unfold AgentOrchestrator.callApproval, Js.bind. rewrite Hf. reflexivity.
Qed.

Lemma terminalBlock_declined (E : env) (O : options) (p : option plan) (r : response)
      (st : AgentOrchestrator.loopState)
      (f : nat -> string -> string -> completion bool) (w : world) :
  choice r = "terminalCommand" ->
  requiresApproval r = true ->
  askApproval O = Some f ->
  f (List.length (asked w)) (terminalCommand r) (commandReasoning r) = Returns false ->
  durable (notesFile w) = true ->
  AgentOrchestrator.terminalBlock E O p r st w =
  if Nat.leb AgentOrchestrator.MAX_DENIAL_RETRIES
             (AgentOrchestrator.lsDenialCount (snd (afterDecline r st)))
  then (Ok (AgentOrchestrator.Break (afterDecline r st)),
        withLine E "## Blockers" tooManyDenials (declineNoted E r w))
  else (Ok (AgentOrchestrator.Proceed (afterDecline r st)), declineNoted E r w).
Proof.
  intros Hc Ha Hask Hf Hd. unfold AgentOrchestrator.terminalBlock.
  rewrite Hc, Hask, String.eqb_refl.
  rewrite (bind_Ok _ _ _ _ _ (handleTerminalCommand_declined E r f w Ha Hf)).
  cbn [executed AgentOrchestrator.declined].
  unfold NotesManager.addBlocker.
  rewrite (bind_Ok _ _ _ _ _
             (addUnder_durable E _ _ (askedFor (terminalCommand r) (commandReasoning r) w) Hd)).
  fold (declineNoted E r w).
  unfold afterDecline. cbn [snd fst AgentOrchestrator.lsDenialCount].
  destruct (Nat.leb _ _); [|reflexivity].
  rewrite (bind_Ok _ _ _ _ _
             (addUnder_durable E _ _ (declineNoted E r w) (withLine_durable _ _ _ _))).
  reflexivity.
Qed.

(** A pass of the loop in which the user declines the command that the
    base agent proposes.  The denial counter is 1 after the decline of a
    command other than the last one declined (or when none was), and one
    more than before after the decline of the same command again.  When the
    counter reaches 2, the final blocker is noted and the loop ends with this
    pass, whatever the continue flag of the response: no further call is made
    to the base agent, the command is not executed and the response of the
    pass is the last of the list. *)
Lemma decline_at_the_limit (E : env) (O : options) (q : string) (p : option plan)
        (st : AgentOrchestrator.loopState) (w : world) (r : response)
        (f : nat -> string -> string -> completion bool) (fuel : nat) :
  let c := AgentOrchestrator.buildContextString (AgentOrchestrator.lsAgentContext st) in
  let pass := S (AgentOrchestrator.lsIteration st) in
  AgentOrchestrator.notifyThinking O pass w = (Ok tt, w) ->
  baseAgent E (List.length (agentCalls w)) q c = Returns r ->
  choice r = "terminalCommand" ->
  requiresApproval r = true ->
  askApproval O = Some f ->
  f (List.length (asked w)) (terminalCommand r) (commandReasoning r) = Returns false ->
  durable (notesFile w) = true ->
  let st1 := AgentOrchestrator.mkLoopState
               (AgentOrchestrator.lsResponses st) pass (AgentOrchestrator.lsDenialCount st)
               (AgentOrchestrator.lsLastDeniedCommand st) (AgentOrchestrator.lsAgentContext st) in
  let w1 := logged (TurnCall q c) w in
  let st2 := snd (afterDecline r st1) in
  (* the counter *)
  AgentOrchestrator.lsLastDeniedCommand st2 = Some (terminalCommand r)
  /\ AgentOrchestrator.lsDenialCount st2 =
       match AgentOrchestrator.lsLastDeniedCommand st with
       | Some last => if String.eqb last (terminalCommand r)
                      then S (AgentOrchestrator.lsDenialCount st) else 1
       | None => 1
       end
  (* below the limit the pass goes on *)
  /\ (AgentOrchestrator.lsDenialCount st2 < 2 ->
      AgentOrchestrator.terminalBlock E O p r st1 w1
      = (Ok (AgentOrchestrator.Proceed (afterDecline r st1)), declineNoted E r w1))
  (* at the limit the loop ends *)
  /\ (2 <= AgentOrchestrator.lsDenialCount st2 ->
      let w2 := withLine E "## Blockers" tooManyDenials (declineNoted E r w1) in
      AgentOrchestrator.iterate E (S fuel) O q p st w
      = (Ok (AgentOrchestrator.pushResponse (fst (afterDecline r st1)) st2), w2)
        /\ turnsOf w2 = (q, c) :: turnsOf w
        /\ commands w2 = commands w
        /\ notesFile w2 =
             Holds true true
               (NotesManager.insertUnder "## Blockers"
                  (NotesManager.stamped (now E (stampClock (declineNoted E r w1))) tooManyDenials)
                  (loadedNotes E (declineNoted E r w1)))).
Proof.
  intros c pass Hthink Hresp Hc Ha Hask Hf Hd st1 w1 st2.
  assert (Hblock := terminalBlock_declined E O p r st1 f w1 Hc Ha Hask Hf Hd).
  fold st2 in Hblock.
  split; [|split; [|split]].
  - unfold st2, afterDecline, AgentOrchestrator.trackDenial. cbn [snd fst st1
      AgentOrchestrator.lsLastDeniedCommand AgentOrchestrator.lsDenialCount].
    destruct (AgentOrchestrator.lsLastDeniedCommand st) as [last|]; [|reflexivity].
    destruct (String.eqb last (terminalCommand r)) eqn:He; [|reflexivity].
    apply String.eqb_eq in He. subst last. reflexivity.
  - unfold st2, afterDecline, AgentOrchestrator.trackDenial. cbn [snd fst st1
      AgentOrchestrator.lsLastDeniedCommand AgentOrchestrator.lsDenialCount].
    destruct (AgentOrchestrator.lsLastDeniedCommand st) as [last|]; [|reflexivity].
    destruct (String.eqb last (terminalCommand r)); reflexivity.
  - intros Hlt. rewrite Hblock.
    replace (Nat.leb AgentOrchestrator.MAX_DENIAL_RETRIES (AgentOrchestrator.lsDenialCount st2))
      with false; [reflexivity|].
    symmetry. apply Nat.leb_gt. exact Hlt.
  - intros Hge w2.
    replace (Nat.leb AgentOrchestrator.MAX_DENIAL_RETRIES (AgentOrchestrator.lsDenialCount st2))
      with true in Hblock by (symmetry; apply Nat.leb_le; exact Hge).
    split; [|split; [|split]]; try reflexivity.
    cbn [AgentOrchestrator.iterate]. unfold AgentOrchestrator.turn.
    fold pass. fold c.
    rewrite bind_assoc.
    rewrite (bind_Ok _ _ _ _ _ Hthink).
    rewrite bind_assoc.
    assert (Hq : queryBaseAgent E q c w = (Ok r, w1)).
    { unfold queryBaseAgent, logCall, Js.bind. rewrite Hresp. reflexivity. }
    rewrite (bind_Ok _ _ _ _ _ Hq).
    rewrite bind_assoc. fold st1.
    rewrite (bind_Ok _ _ _ _ _ Hblock).
    destruct (afterDecline r st1) as [r' st'] eqn:Had.
    unfold Js.bind, Js.ret. cbn [fst snd]. subst st2. reflexivity.
Qed.

(* ================================================================== *)
(** ** The approval callback *)

(** C5, on the code. When no approval callback is given and the response
    requires approval, [handleTerminalCommand] calls [null]: a TypeError is
    thrown.  The command is not executed, but no declined outcome is
    recorded either: [orchestrate] notes the error as a blocker and throws
    it, whereas with a callback that answers false it notes the decline and
    returns. *)
Theorem absent_approval_callback_raises (E : env) (r : response) (w : world) :
  AgentOrchestrator.handleTerminalCommand E r None w =
    (if requiresApproval r
     then (Throw (mkError TypeError "askApproval is not a function"), w)
     else AgentOrchestrator.execute E r w)
  /\ (let E1 := Scenario.scripted [Scenario.command "rm -rf /tmp" "clean up" false] in
      let absent := AgentOrchestrator.orchestrate E1 5 "tidy" (Scenario.simple None) Scenario.blank in
      let denied := AgentOrchestrator.orchestrate E1 5 "tidy"
                      (Scenario.simple (Some Scenario.alwaysDeny)) Scenario.blank in
      fst absent = Throw (mkError TypeError "askApproval is not a function")
      /\ commands (snd absent) = []
      /\ Str.includes (Scenario.notesText (snd absent)) "Command declined" = false
      /\ Str.includes (Scenario.notesText (snd absent))
           "Error: askApproval is not a function" = true
      /\ memoryFile (snd absent) = Absent
      /\ List.map (fun x => List.map terminalResultOf (AgentOrchestrator.responses x))
           (match fst denied with Ok x => [x] | _ => [] end)
         = [[Some AgentOrchestrator.declined]]
      /\ commands (snd denied) = []
      /\ Str.includes (Scenario.notesText (snd denied)) "Command declined: rm -rf /tmp" = true).
Proof.
  split.
  - unfold AgentOrchestrator.handleTerminalCommand. destruct (requiresApproval r); reflexivity.
  - vm_compute. repeat split; reflexivity.
Qed.

(* ================================================================== *)
(** ** The matcher of the plan steps *)

(** C6, as the code has it. [tryCompleteMatchingStep] looks at the steps in
    their order, complete or not, and stops at the first one of which at
    least two keywords (the pieces of the lower-cased description between
    white space that are longer than 4 characters, counted as often as they
    occur) are found in the lower-cased text of the action, a space and the
    rationale.  For that step alone it calls [completeStep], and then
    [addContext] with the audit line, also when the step was complete
    already; when no step matches it does nothing at all. *)
Theorem matcher_completes_first_match (E : env) (l : list step)
        (action rationale : string) (w : world) :
  (List.Forall (fun s => AgentOrchestrator.stepMatches s action rationale = false) l ->
   AgentOrchestrator.tryCompleteMatchingStep E l action rationale w = (Ok tt, w))
  /\ (forall pre s post,
        l = (pre ++ s :: post)%list ->
        List.Forall (fun t => AgentOrchestrator.stepMatches t action rationale = false) pre ->
        AgentOrchestrator.stepMatches s action rationale = true ->
        AgentOrchestrator.tryCompleteMatchingStep E l action rationale w
        = (NotesManager.completeStep E (List.length pre + 1) ;;;
           NotesManager.addContext E
             ("Auto-completed step " ++ Str.ofNat (List.length pre + 1) ++ ": "
              ++ stepDescription s)) w).
Proof.
  unfold AgentOrchestrator.tryCompleteMatchingStep.
  assert (Hgen : forall pre i,
            List.Forall (fun t => AgentOrchestrator.stepMatches t action rationale = false) pre ->
            forall rest,
              AgentOrchestrator.tryCompleteFrom E i (pre ++ rest)%list action rationale
              = AgentOrchestrator.tryCompleteFrom E (i + List.length pre) rest action rationale).
  { induction pre as [|t pre IH]; intros i Hpre rest; simpl.
    - rewrite Nat.add_0_r. reflexivity.
    - inversion Hpre as [|? ? Ht Hpre']; subst. rewrite Ht.
      rewrite (IH (S i) Hpre' rest). f_equal. lia. }
  split.
  - intros Hall. rewrite <- (app_nil_r l), (Hgen l 0 Hall []). reflexivity.
  - intros pre s post Hl Hpre Hs. subst l. rewrite (Hgen pre 0 Hpre (s :: post)).
    simpl. rewrite Hs. reflexivity.
Qed.

(** C6, against the claim. Two steps match the action; the first is complete
    already and the second is not.  The matcher does not skip the complete
    step: it completes it again and leaves the second one, the first
    uncompleted match, unchecked.  And when the only step that matches is
    complete already, the call is no no-op: it adds an audit line to the
    notes.  Nor are whole tokens compared: a keyword counts when it occurs
    inside a word of the action, and as often as the description repeats it. *)
Lemma matcher_ignores_completion :
  let E := Scenario.scripted [] in
  let action := "npm install express package" in
  let w := Scenario.planned E Scenario.twoSteps [1] in
  let w' := snd (AgentOrchestrator.tryCompleteMatchingStep E Scenario.twoSteps action "" w) in
  let search := "find javascript files" in
  let v := Scenario.planned E Scenario.threeSteps [2] in
  let v' := snd (AgentOrchestrator.tryCompleteMatchingStep E Scenario.threeSteps search "" v) in
  List.map (fun s => AgentOrchestrator.stepMatches s action "") Scenario.twoSteps = [true; true]
  /\ Str.includes (Scenario.notesText w) "- [x] 1. Install express package" = true
  /\ Str.includes (Scenario.notesText w) "- [ ] 2. Configure express package settings" = true
  /\ Str.includes (Scenario.notesText w') "- [ ] 2. Configure express package settings" = true
  /\ Str.includes (Scenario.notesText w') "- [x] 2." = false
  /\ Str.includes (Scenario.notesText w') "Auto-completed step 1: Install express package" = true
  /\ List.map (fun s => AgentOrchestrator.stepMatches s search "") Scenario.threeSteps
     = [false; true; false]
  /\ Str.includes (Scenario.notesText v) "- [x] 2. List JavaScript files" = true
  /\ Scenario.notesText v' <> Scenario.notesText v
  /\ Str.includes (Scenario.notesText v') "Auto-completed step 2: List JavaScript files" = true
  /\ AgentOrchestrator.stepMatches (mkStep "build build" "") "rebuilding" "" = true.
Proof.
  vm_compute. repeat split; try reflexivity. discriminate.
Qed.

(** C7, against the claim. In a run of two passes, the first pass records
    an interaction in the memory and a line in the notes; the context of the
    second call to the base agent holds neither: it is built with the empty
    memory text and with the notes as they were loaded before the loop. *)
Lemma second_pass_context_is_stale :
  let E := Scenario.twoPasses in
  let run := AgentOrchestrator.orchestrate E 5 "write it" (Scenario.simple None) Scenario.blank in
  let w1 := Scenario.afterFirstPass in
  exists c1 c2,
    turnsOf (snd run) = [("write it", c2); ("write it", c1)]
    /\ turnsOf w1 = [("write it", c1)]
    /\ Str.includes (loadedMemoryContext w1) "Interaction 1" = true
    /\ Str.includes (loadedNotes E w1) "Generated javascript code" = true
    /\ Str.includes c2 "Interaction 1" = false
    /\ Str.includes c2 "Generated javascript code" = false
    /\ c2 = AgentOrchestrator.buildContextString
              (AgentOrchestrator.mkAgentContext
                 "" (NotesManager.template (Scenario.tick 0)) None None None None
                 (Some (Scenario.generated "javascript" "console.log(1)" "prints one" true))
                 (Some 1)).
Proof.
  vm_compute. eexists. eexists. repeat split; reflexivity.
Qed.

(* ================================================================== *)
(** ** Summaries, truncation and interrupted writes, evaluated *)

(** C4, on the code. Once the window is full, every call of
    [addInteraction] creates a summary, of the 21 interactions that stay in
    the window: after 23 calls the two summaries cover the ids 2 to 22 and 3
    to 23, which overlap; after the 65 calls of the test of the repository
    the three summaries kept cover 43 to 63, 44 to 64 and 45 to 65, all of
    them interactions that are still in the window, and nothing older. *)
Theorem summaries_overlap :
  let E := Scenario.scripted [] in
  let after n := stored (memoryFile (snd (addAll E (Scenario.exchanges n) Scenario.blank))) in
  covered (summaries (after 23)) = [(2, 22); (3, 23)]
  /\ ids (interactions (after 23)) = List.seq 3 21
  /\ covered (summaries (after 65)) = [(43, 63); (44, 64); (45, 65)]
  /\ ids (interactions (after 65)) = List.seq 45 21.
Proof.
  vm_compute. repeat split; reflexivity.
Qed.

(** C8, on the code. [getMemoryContextString] shows a query whole, whatever
    its length; it cuts the content at 200 characters (not at 300) and then
    adds the marker; and it shows the text of a summary whole. *)
Theorem context_string_truncation :
  (forall n k, MemorySystem.shownQuery (Scenario.sized (S n) k) = Scenario.repeat "q" (S n))
  /\ MemorySystem.shownContent (Scenario.sized 201 250) = Scenario.repeat "b" 200 ++ "..."
  /\ MemorySystem.shownContent (Scenario.sized 201 200) = Scenario.repeat "b" 200
  /\ (forall n, MemorySystem.renderSummary 0 (Scenario.sizedSummary n)
                = "Summary 1 (Interactions 2-22, T1 to T21):" ++ Str.nl
                  ++ Scenario.repeat "s" n ++ Str.nl ++ Str.nl)
  /\ (let m := mkMemory [Scenario.sized 201 250] [Scenario.sizedSummary 501] 22 in
      let w := Fs.setMemoryFile (Holds true true (Document m)) Scenario.blank in
      exists text,
        MemorySystem.getMemoryContextString w = (Ok text, w)
        /\ Str.includes text (Scenario.repeat "q" 201) = true
        /\ Str.includes text (Scenario.repeat "s" 501) = true
        /\ Str.includes text (Scenario.repeat "b" 201) = false).
Proof.
  split; [|split; [|split; [|split]]].
  - intros n k. reflexivity.
  - vm_compute. reflexivity.
  - vm_compute. reflexivity.
  - intros n. reflexivity.
  - eexists. split; [vm_compute; reflexivity|]. vm_compute. repeat split; reflexivity.
Qed.

(** C9, on the code. [saveNotes] and [saveMemory] write the file itself,
    with one call of [fs.writeFile]: no temporary file, no rename.  When the
    write is interrupted, the document saved before is lost: [loadNotes]
    returns the part of the new text that was written, and [loadMemory]
    returns the empty memory. *)
Theorem interrupted_write_loses_the_document (E : env) (w : world)
        (old new : string) (n : nat) (m : memory) :
  NotesManager.saveNotes new w = Fs.writeNotesFile new w
  /\ MemorySystem.saveMemory m w = Fs.writeMemoryFile (Document m) w
  /\ fst (NotesManager.loadNotes E
            (Scenario.saveNotesInterrupted n new (Fs.setNotesFile (Holds true true old) w)))
     = Ok (Str.take n new)
  /\ fst (MemorySystem.loadMemory
            (Scenario.saveMemoryInterrupted (Fs.setMemoryFile (Holds true true (Document m)) w)))
     = Ok MemorySystem.emptyMemory
  /\ fst (NotesManager.loadNotes E
            (Scenario.saveNotesInterrupted 7 "# Agent Notes (new)"
               (Fs.setNotesFile (Holds true true "# Agent Notes (old)") Scenario.blank)))
     = Ok "# Agent".
Proof.
  repeat split.
Qed.

(* ================================================================== *)
(** ** The theorems at concrete inputs *)

(** The cap of C1 is reached: when every response asks to continue, the
    base agent is called exactly 5 times, whatever the budget above 5. *)
Example five_passes_when_every_response_continues :
  List.length (turnsOf (snd (AgentOrchestrator.orchestrate Scenario.eager 9 "go"
                               (Scenario.simple None) Scenario.blank))) = 5
  /\ List.map AgentOrchestrator.iterations
       (match fst (AgentOrchestrator.orchestrate Scenario.eager 9 "go"
                     (Scenario.simple None) Scenario.blank) with
        | Ok x => [x]
        | _ => []
        end) = [5].
Proof. vm_compute. split; reflexivity. Qed.

(** The bound of C1 in a run in which every response asks to continue,
    with a budget of exactly 5 passes. *)
Lemma orchestrate_turn_calls_bounded_witness :
  AgentOrchestrator.MAX_CONTINUE_ITERATIONS <= 5
  /\ fst (AgentOrchestrator.orchestrate Scenario.eager 5 "go" (Scenario.simple None) Scenario.blank)
     <> OutOfFuel
  /\ exists new,
       turnsOf (snd (AgentOrchestrator.orchestrate Scenario.eager 5 "go"
                       (Scenario.simple None) Scenario.blank))
       = (new ++ turnsOf Scenario.blank)%list
       /\ List.length new <= 5.
Proof.
  split; [apply le_n|].
  apply (orchestrate_turn_calls_bounded Scenario.eager 5 "go" (Scenario.simple None)
           Scenario.blank).
  apply le_n.
Defined.

(** C3 for 21 interactions added to the empty memory, and one more. *)
Lemma window_fills_then_slides_witness :
  let E := Scenario.scripted [] in
  let l := Scenario.exchanges 21 in
  let x := (mkRequest "one more" None, Scenario.plain "ok" false) in
  durable (memoryFile Scenario.blank) = true
  /\ stored (memoryFile Scenario.blank) = MemorySystem.emptyMemory
  /\ List.length l <= 21
  /\ fst (addAll E l Scenario.blank) = Ok tt
  /\ (exists m1,
        MemorySystem.loadMemory (snd (addAll E l Scenario.blank))
        = (Ok m1, snd (addAll E l Scenario.blank))
        /\ List.length (interactions m1) = 21
        /\ ids (interactions m1) = List.seq 1 21
        /\ summaries m1 = [])
  /\ (exists i m2,
        fst (MemorySystem.addInteraction E (fst x) (snd x) (snd (addAll E l Scenario.blank))) = Ok i
        /\ id i = 22
        /\ fst (MemorySystem.loadMemory
                  (snd (MemorySystem.addInteraction E (fst x) (snd x)
                          (snd (addAll E l Scenario.blank))))) = Ok m2
        /\ ids (interactions m2) = List.seq 2 21
        /\ covered (summaries m2) = [(2, 22)]).
Proof.
  intros E l x.
  assert (Hl : List.length l <= 21) by apply le_n.
  pose proof (window_fills_then_slides E Scenario.blank l x eq_refl eq_refl Hl) as H.
  cbv zeta in H. destruct H as (H1 & (m1 & Hm1 & Hn1 & Hi1 & Hs1 & _) & H2).
  destruct (H2 eq_refl) as (i & m2 & prompt & Hi & Hid & Hm2 & _ & _ & _ & Hids & Hc).
  split; [reflexivity|]. split; [reflexivity|]. split; [exact Hl|]. split; [exact H1|].
  split.
  - exists m1. split; [exact Hm1|]. split; [exact Hn1|]. split; [exact Hi1 | exact Hs1].
  - exists i, m2. split; [exact Hi|]. split; [exact Hid|].
    split; [rewrite Hm2; reflexivity|]. split; [exact Hids|]. exact Hc.
Defined.

(** C6 on the plan of three steps: the action matches the second step only. *)
Lemma matcher_completes_first_match_witness :
  let E := Scenario.scripted [] in
  let w := Scenario.planned E Scenario.threeSteps [] in
  List.map (fun s => AgentOrchestrator.stepMatches s "find javascript files" "")
           Scenario.threeSteps = [false; true; false]
  /\ AgentOrchestrator.tryCompleteMatchingStep E Scenario.threeSteps "find javascript files" "" w
     = (NotesManager.completeStep E 2 ;;;
        NotesManager.addContext E "Auto-completed step 2: List JavaScript files") w.
Proof.
  intros E w. split; [reflexivity|].
  apply (proj2 (matcher_completes_first_match E Scenario.threeSteps
                  "find javascript files" "" w)
           [mkStep "Check package.json file" ""]
           (mkStep "List JavaScript files" "")
           [mkStep "Run tests" ""]).
  - reflexivity.
  - constructor; [reflexivity | constructor].
  - reflexivity.
Defined.

(* ================================================================== *)
(** * More properties *)

(* ================================================================== *)
(** ** The window and the summaries, for every number of interactions *)

Lemma pushSummary_grows (l : list summary) (s : summary) :
  List.length (pushSummary l s) <= S (List.length l).
Proof.
  unfold pushSummary, MemorySystem.shift.
  destruct (Nat.ltb _ _); [rewrite length_tl|]; rewrite length_app; simpl; lia.
Qed.

Lemma Forall_tl {A} (P : A -> Prop) (l : list A) :
  List.Forall P l -> List.Forall P (List.tl l).
Proof. intros H. destruct l; [exact H | inversion H; assumption]. Qed.

Lemma map_tail {A B} (f : A -> B) (l : list A) :
  List.map f (List.tl l) = List.tl (List.map f l).
Proof. destruct l; reflexivity. Qed.

Lemma StronglySorted_tl (l : list nat) :
  StronglySorted lt l -> StronglySorted lt (List.tl l).
Proof. intros H. destruct l; [exact H | inversion H; assumption]. Qed.

Lemma StronglySorted_snoc (l : list nat) (x : nat) :
  StronglySorted lt l -> List.Forall (fun y => y < x) l -> StronglySorted lt (l ++ [x])%list.
Proof.
  induction l as [|a l IH]; intros Hs Hf; simpl.
  - constructor; constructor.
  - inversion Hs as [|? ? Hs' Ha]; subst. inversion Hf as [|? ? Hax Hf']; subst.
    constructor; [apply IH; assumption|].
    apply Forall_app. split; [exact Ha|]. constructor; [exact Hax | constructor].
Qed.

Lemma pushSummary_kept (l : list summary) (s : summary) (c : nat) :
  List.Forall (fun t => endId (sRange t) = startId (sRange t) + 20 /\ endId (sRange t) <= c) l ->
  StronglySorted lt (rangeEnds l) ->
  endId (sRange s) = startId (sRange s) + 20 ->
  endId (sRange s) = S c ->
  List.Forall (fun t => endId (sRange t) = startId (sRange t) + 20 /\ endId (sRange t) <= S c)
              (pushSummary l s)
  /\ StronglySorted lt (rangeEnds (pushSummary l s)).
Proof.
  intros Hf Hs Hw He.
  assert (Hall : List.Forall
            (fun t => endId (sRange t) = startId (sRange t) + 20 /\ endId (sRange t) <= S c)
            (l ++ [s])%list).
  { apply Forall_app. split.
    - eapply Forall_impl; [|exact Hf]. intros t [H1 H2]. split; [exact H1 | lia].
    - constructor; [|constructor]. split; [exact Hw | lia]. }
  assert (Hsorted : StronglySorted lt (rangeEnds (l ++ [s])%list)).
  { unfold rangeEnds. rewrite map_app. cbn [List.map]. apply StronglySorted_snoc; [exact Hs|].
    apply Forall_map. eapply Forall_impl; [|exact Hf]. intros t [_ H2]. cbn. lia. }
  unfold pushSummary, MemorySystem.shift. destruct (Nat.ltb _ _).
  - split; [apply Forall_tl; exact Hall|].
    unfold rangeEnds in *. rewrite map_tail. apply StronglySorted_tl. exact Hsorted.
  - split; assumption.
Qed.

(** One call of [addInteraction] keeps the window and the summaries. *)
Lemma addInteraction_keeps (E : env) (req : request) (resp : response) (w : world) :
  durable (memoryFile w) = true ->
  windowKept (stored (memoryFile w)) ->
  summariesKept (stored (memoryFile w)) ->
  let w' := snd (MemorySystem.addInteraction E req resp w) in
  fst (MemorySystem.addInteraction E req resp w)
    = Ok (mkInteraction req resp (now E (clock w)) (S (count (stored (memoryFile w)))))
  /\ durable (memoryFile w') = true
  /\ count (stored (memoryFile w')) = S (count (stored (memoryFile w)))
  /\ windowKept (stored (memoryFile w'))
  /\ summariesKept (stored (memoryFile w'))
  /\ notesFile w' = notesFile w.
Proof.
  intros Hd [Hlen Hids] (Hsl & Hsf & Hss) w'.
  set (m := stored (memoryFile w)) in *.
  assert (Hi : nextInteraction E req resp w
               = mkInteraction req resp (now E (clock w)) (S (count m))).
  { unfold nextInteraction. fold m. rewrite Nat.add_1_r. reflexivity. }
  destruct (Nat.lt_ge_cases (List.length (interactions m)) MemorySystem.MAX_INTERACTIONS)
    as [Hlt | Hge].
  - (* the window is not full *)
    pose proof (addInteraction_appends E req resp w Hd Hlt) as Ha.
    subst w'. rewrite Ha, Hi. cbn [fst snd Fs.setMemoryFile memoryFile stored notesFile setClock].
    fold m. unfold MemorySystem.MAX_INTERACTIONS in *.
    assert (Hc : List.length (interactions m) = count m) by lia.
    split; [reflexivity|]. split; [reflexivity|].
    unfold appended. cbn [count interactions summaries].
    split; [lia|]. split; [|split].
    + unfold windowKept. cbn [interactions count]. split.
      * rewrite length_app. cbn [List.length]. unfold MemorySystem.MAX_INTERACTIONS. lia.
      * unfold ids in *. rewrite map_app, Hids, length_app, Hc. cbn [List.map List.length id].
        replace (S (count m + 1) - (count m + 1)) with 1 by lia.
        replace (S (count m) - count m) with 1 by lia.
        rewrite Nat.add_1_r, seq_S. reflexivity.
    + unfold summariesKept. cbn [count summaries].
      assert (Hnil : summaries m = []).
      { destruct (summaries m); [reflexivity|]. simpl in Hsl.
        unfold MemorySystem.MAX_INTERACTIONS in Hsl. lia. }
      rewrite Hnil. simpl. repeat split; try lia; constructor.
    + reflexivity.
  - (* the window is full: it slides *)
    destruct (addInteraction_slides E req resp w Hd Hge) as (w1 & kept & Ha & Hf & Hn & _ & Hk).
    subst w'. rewrite Ha, Hi. cbn [fst snd]. rewrite Hf. cbn [stored durable andb count].
    fold m. fold m in Hk, Hf. rewrite Hi in Hk. rewrite ?Hi.
    set (i := mkInteraction req resp (now E (clock w)) (S (count m))) in *.
    set (toSummarize := List.tl (interactions m ++ [i])%list) in *.
    unfold MemorySystem.MAX_INTERACTIONS, MemorySystem.MAX_SUMMARIES in *.
    assert (H21 : List.length (interactions m) = 21) by lia.
    assert (Hc : 21 <= count m) by lia.
    assert (Hts : ids toSummarize = List.seq (count m - 19) 21).
    { unfold toSummarize. rewrite ids_tl. unfold ids in *. rewrite map_app, Hids, H21.
      cbn [List.map id i].
      replace (S (count m) - 21) with (count m - 20) by lia.
      replace (count m - 19) with (S (count m - 20)) by lia.
      replace (S (count m)) with ((count m - 20) + 21) at 1 by lia.
      generalize (count m - 20). intros a. simpl.
      repeat (f_equal; try lia). }
    assert (Hl21 : List.length toSummarize = 21).
    { unfold ids in Hts. rewrite <- (length_map id), Hts. apply length_seq. }
    split; [reflexivity|]. split; [reflexivity|]. split; [lia|].
    split; [|split; [|exact Hn]].
    + unfold windowKept. split; cbn [interactions count].
      * rewrite Hl21. unfold MemorySystem.MAX_INTERACTIONS. lia.
      * rewrite Hts, Hl21. f_equal. lia.
    + unfold summariesKept. cbn [summaries count]. rewrite Hk.
      rewrite !(Nat.add_1_r (count m)).
      destruct (summarizeAgent E _ _) as [sr|e].
      * assert (Hw : endId (sRange (summaryOf toSummarize (List.hd i toSummarize) sr
                                      (now E (S (clock w)))))
                     = startId (sRange (summaryOf toSummarize (List.hd i toSummarize) sr
                                          (now E (S (clock w))))) + 20
                     /\ endId (sRange (summaryOf toSummarize (List.hd i toSummarize) sr
                                         (now E (S (clock w))))) = S (count m)).
        { unfold summaryOf. cbn [sRange startId endId].
          rewrite id_last, id_hd, Hts.
          replace (count m - 19) with (S (count m - 20)) by lia.
          replace (S (count m)) with (S (count m - 20) + 20) by lia.
          generalize (count m - 20). intros a. simpl. split; lia. }
        destruct Hw as [Hw1 Hw2].
        destruct (pushSummary_kept (summaries m) _ (count m) Hsf Hss Hw1 Hw2) as [Hp1 Hp2].
        split; [|split; assumption].
        assert (Hb3 : List.length (summaries m) <= 3) by lia.
        pose proof (pushSummary_bounded (summaries m)
                      (summaryOf toSummarize (List.hd i toSummarize) sr (now E (S (clock w))))
                      Hb3) as Hb.
        pose proof (pushSummary_grows (summaries m)
                      (summaryOf toSummarize (List.hd i toSummarize) sr (now E (S (clock w))))) as Hg.
        unfold MemorySystem.MAX_SUMMARIES, MemorySystem.MAX_INTERACTIONS in *. lia.
      * unfold MemorySystem.MAX_SUMMARIES, MemorySystem.MAX_INTERACTIONS.
        split; [lia|]. split; [|exact Hss].
        eapply Forall_impl; [|exact Hsf]. intros t [H1 H2]. split; [exact H1 | lia].
Qed.

(** A sequence of calls keeps them as well. *)
Lemma addAll_keeps (E : env) (l : list (request * response)) (w : world) :
  durable (memoryFile w) = true ->
  windowKept (stored (memoryFile w)) ->
  summariesKept (stored (memoryFile w)) ->
  let w' := snd (addAll E l w) in
  fst (addAll E l w) = Ok tt
  /\ durable (memoryFile w') = true
  /\ count (stored (memoryFile w')) = count (stored (memoryFile w)) + List.length l
  /\ windowKept (stored (memoryFile w'))
  /\ summariesKept (stored (memoryFile w'))
  /\ notesFile w' = notesFile w.
Proof.
  revert w. induction l as [|x l IH]; intros w Hd Hw Hs; cbn [addAll].
  - cbn [fst snd Js.ret List.length]. rewrite Nat.add_0_r.
    split; [reflexivity|]. split; [exact Hd|]. split; [reflexivity|].
    split; [exact Hw|]. split; [exact Hs | reflexivity].
  - destruct (addInteraction_keeps E (fst x) (snd x) w Hd Hw Hs)
      as (Ha & Hd1 & Hc1 & Hw1 & Hs1 & Hn1).
    destruct (MemorySystem.addInteraction E (fst x) (snd x) w) as [r w1] eqn:Hrun.
    cbn [fst snd] in *. subst r.
    rewrite (bind_Ok _ _ _ _ _ Hrun).
    destruct (IH w1 Hd1 Hw1 Hs1) as (Hb & Hd2 & Hc2 & Hw2 & Hs2 & Hn2).
    split; [exact Hb|]. split; [exact Hd2|].
    split; [rewrite Hc2, Hc1; cbn [List.length]; lia|].
    split; [exact Hw2|]. split; [exact Hs2|]. rewrite Hn2. exact Hn1.
Qed.

Lemma emptyMemory_kept : windowKept MemorySystem.emptyMemory /\ summariesKept MemorySystem.emptyMemory.
Proof.
  split.
  - split; reflexivity.
  - split; [cbn; lia|]. split; constructor.
Qed.

(** X1. Starting from the empty memory, after any number N of calls of
    [addInteraction] (none of which fails, whatever the summarize agent
    does), [getMemoryStats] counts N interactions processed and
    min N 21 stored, and the stored interactions are the latest: their ids
    are the consecutive numbers that end at N. *)
Theorem window_holds_the_latest (E : env) (w : world) (l : list (request * response)) :
  durable (memoryFile w) = true ->
  stored (memoryFile w) = MemorySystem.emptyMemory ->
  let N := List.length l in
  let w' := snd (addAll E l w) in
  fst (addAll E l w) = Ok tt
  /\ exists st m,
       getMemoryStats w' = (Ok st, w')
       /\ totalInteractionsProcessed st = N
       /\ currentInteractionsStored st = Nat.min N 21
       /\ MemorySystem.loadMemory w' = (Ok m, w')
       /\ ids (interactions m) = List.seq (S N - Nat.min N 21) (Nat.min N 21).
Proof.
  intros Hd He N w'.
  destruct emptyMemory_kept as [Hw0 Hs0]. rewrite <- He in Hw0, Hs0.
  destruct (addAll_keeps E l w Hd Hw0 Hs0) as (Ha & Hd1 & Hc & [Hlen Hids] & _ & _).
  fold w' in Hd1, Hc, Hlen, Hids. rewrite He in Hc. cbn [count MemorySystem.emptyMemory] in Hc.
  fold N in Hc. rewrite Hc in Hlen, Hids.
  unfold MemorySystem.MAX_INTERACTIONS in Hlen. rewrite Hlen in Hids.
  split; [exact Ha|].
  eexists. exists (stored (memoryFile w')).
  split; [unfold getMemoryStats; rewrite (bind_Ok _ _ _ _ _ (loadMemory_stored w')); reflexivity|].
  cbn [totalInteractionsProcessed currentInteractionsStored].
  split; [exact Hc|]. split; [exact Hlen|]. split; [apply loadMemory_stored | exact Hids].
Qed.

Lemma window_holds_the_latest_witness :
  let E := Scenario.scripted [] in
  let l := Scenario.exchanges 30 in
  durable (memoryFile Scenario.blank) = true
  /\ stored (memoryFile Scenario.blank) = MemorySystem.emptyMemory
  /\ fst (addAll E l Scenario.blank) = Ok tt
  /\ exists st m,
       getMemoryStats (snd (addAll E l Scenario.blank)) = (Ok st, snd (addAll E l Scenario.blank))
       /\ totalInteractionsProcessed st = 30
       /\ currentInteractionsStored st = 21
       /\ MemorySystem.loadMemory (snd (addAll E l Scenario.blank))
          = (Ok m, snd (addAll E l Scenario.blank))
       /\ ids (interactions m) = List.seq 10 21.
Proof.
  intros E l.
  split; [reflexivity|]. split; [reflexivity|].
  exact (window_holds_the_latest E Scenario.blank l eq_refl eq_refl).
Defined.

(** X2. Starting from the empty memory, after any number N of calls of
    [addInteraction], whatever the summarize agent answered: there are at
    most min (N - 21) 3 summaries, each covers a range of exactly 21 ids
    that ends at N at the latest, and the ranges are stored in the order
    of their ends. *)
Theorem summaries_cover_windows (E : env) (w : world) (l : list (request * response)) :
  durable (memoryFile w) = true ->
  stored (memoryFile w) = MemorySystem.emptyMemory ->
  let N := List.length l in
  let w' := snd (addAll E l w) in
  exists m,
    MemorySystem.loadMemory w' = (Ok m, w')
    /\ List.length (summaries m) <= Nat.min (N - 21) 3
    /\ List.Forall (fun s => endId (sRange s) = startId (sRange s) + 20
                             /\ endId (sRange s) <= N) (summaries m)
    /\ Sorted.StronglySorted lt (rangeEnds (summaries m)).
Proof.
  intros Hd He N w'.
  destruct emptyMemory_kept as [Hw0 Hs0]. rewrite <- He in Hw0, Hs0.
  destruct (addAll_keeps E l w Hd Hw0 Hs0) as (_ & _ & Hc & _ & (H1 & H2 & H3) & _).
  fold w' in Hc, H1, H2, H3. rewrite He in Hc. cbn [count MemorySystem.emptyMemory] in Hc.
  fold N in Hc. rewrite Hc in H1, H2.
  exists (stored (memoryFile w')).
  split; [apply loadMemory_stored|]. split; [exact H1|]. split; [exact H2 | exact H3].
Qed.

Lemma summaries_cover_windows_witness :
  let E := Scenario.scripted [] in
  let l := Scenario.exchanges 30 in
  let w' := snd (addAll E l Scenario.blank) in
  durable (memoryFile Scenario.blank) = true
  /\ stored (memoryFile Scenario.blank) = MemorySystem.emptyMemory
  /\ exists m,
       MemorySystem.loadMemory w' = (Ok m, w')
       /\ List.length (summaries m) <= 3
       /\ List.Forall (fun s => endId (sRange s) = startId (sRange s) + 20
                                /\ endId (sRange s) <= 30) (summaries m)
       /\ Sorted.StronglySorted lt (rangeEnds (summaries m)).
Proof.
  intros E l w'.
  split; [reflexivity|]. split; [reflexivity|].
  exact (summaries_cover_windows E Scenario.blank l eq_refl eq_refl).
Defined.

Lemma covered_pushSummary (l : list summary) (s : summary) :
  covered (pushSummary l s)
  = (if Nat.ltb 3 (S (List.length (covered l)))
     then List.tl (covered l ++ [(startId (sRange s), endId (sRange s))])
     else covered l ++ [(startId (sRange s), endId (sRange s))])%list.
Proof.
  unfold pushSummary, MemorySystem.shift, MemorySystem.MAX_SUMMARIES, covered.
  rewrite length_app, length_map. cbn [List.length]. rewrite Nat.add_1_r.
  destruct (Nat.ltb 3 (S (List.length l))); [rewrite map_tail|]; rewrite map_app; reflexivity.
Qed.

(** One call of [addInteraction] when the summarize agent answers. *)
Lemma addInteraction_summarizes (E : env) (req : request) (resp : response) (w : world) :
  (forall n p, exists r, summarizeAgent E n p = Returns r) ->
  durable (memoryFile w) = true ->
  windowKept (stored (memoryFile w)) ->
  windowsSummarized (stored (memoryFile w)) ->
  windowsSummarized (stored (memoryFile (snd (MemorySystem.addInteraction E req resp w)))).
Proof.
  intros Hans Hd [Hlen Hids] Hx.
  set (m := stored (memoryFile w)) in *.
  unfold windowsSummarized in *. unfold MemorySystem.MAX_INTERACTIONS in Hlen.
  destruct (Nat.lt_ge_cases (List.length (interactions m)) MemorySystem.MAX_INTERACTIONS)
    as [Hlt | Hge].
  - rewrite (addInteraction_appends E req resp w Hd Hlt).
    cbn [snd Fs.setMemoryFile memoryFile stored]. fold m.
    unfold appended. cbn [summaries count]. rewrite Hx.
    unfold MemorySystem.MAX_INTERACTIONS in Hlt.
    replace (Nat.min (count m - 21) 3) with 0 by lia.
    replace (Nat.min (count m + 1 - 21) 3) with 0 by lia. reflexivity.
  - destruct (addInteraction_slides E req resp w Hd Hge) as (w1 & kept & Ha & Hf & _ & _ & Hk).
    rewrite Ha. cbn [snd]. rewrite Hf. cbn [stored summaries count].
    fold m. fold m in Hk, Hf.
    set (i := nextInteraction E req resp w) in *.
    set (toSummarize := List.tl (interactions m ++ [i])%list) in *.
    unfold MemorySystem.MAX_INTERACTIONS in Hge.
    assert (H21 : List.length (interactions m) = 21) by lia.
    assert (Hc : 21 <= count m) by lia.
    assert (Hts : ids toSummarize = List.seq (count m - 19) 21).
    { unfold toSummarize. rewrite ids_tl. unfold ids in *. rewrite map_app, Hids, H21.
      cbn [List.map id i nextInteraction]. fold m.
      replace (S (count m) - 21) with (count m - 20) by lia.
      replace (count m - 19) with (S (count m - 20)) by lia.
      replace (count m + 1) with ((count m - 20) + 21) by lia.
      generalize (count m - 20). intros a. simpl.
      repeat (f_equal; try lia). }
    destruct (Hans (List.length (agentCalls w)) (MemorySystem.summaryPrompt E toSummarize))
      as [sr Hsr].
    rewrite Hsr in Hk. rewrite Hk, covered_pushSummary.
    unfold summaryOf. cbn [sRange startId endId].
    rewrite id_last, id_hd, Hts, Hx, length_map, length_seq.
    replace (List.hd (id i) (List.seq (count m - 19) 21)) with (S (count m) - 20)
      by (replace (count m - 19) with (S (count m - 20)) by lia; simpl; lia).
    replace (List.last (List.seq (count m - 19) 21) (S (count m) - 20)) with (S (count m))
      by (replace (count m - 19) with (S (count m - 20)) by lia;
          replace (S (count m)) with (20 + S (count m - 20)) at 1 by lia;
          generalize (S (count m - 20)); intros a; simpl; repeat f_equal; lia).
    replace (count m + 1) with (S (count m)) by lia.
    clear Hk Hts Hf Hids Hlen Hx. remember (count m) as c eqn:Hcm. clear Hcm.
    destruct (Nat.le_gt_cases 3 (c - 21)) as [H3 | H3].
    + assert (Ha3 : exists a, c = 24 + a) by (exists (c - 24); lia).
      destruct Ha3 as [a ->].
      replace (Nat.min (24 + a - 21) 3) with 3 by lia.
      replace (Nat.min (S (24 + a) - 21) 3) with 3 by lia.
      simpl. reflexivity.
    + assert (Hc3 : c = 21 \/ c = 22 \/ c = 23) by lia.
      destruct Hc3 as [-> | [-> | ->]]; reflexivity.
Qed.

Lemma addAll_summarizes (E : env) (l : list (request * response)) (w : world) :
  (forall n p, exists r, summarizeAgent E n p = Returns r) ->
  durable (memoryFile w) = true ->
  windowKept (stored (memoryFile w)) ->
  summariesKept (stored (memoryFile w)) ->
  windowsSummarized (stored (memoryFile w)) ->
  windowsSummarized (stored (memoryFile (snd (addAll E l w)))).
Proof.
  intros Hans. revert w. induction l as [|x l IH]; intros w Hd Hw Hs Hx; cbn [addAll].
  - exact Hx.
  - destruct (addInteraction_keeps E (fst x) (snd x) w Hd Hw Hs)
      as (Ha & Hd1 & _ & Hw1 & Hs1 & _).
    pose proof (addInteraction_summarizes E (fst x) (snd x) w Hans Hd Hw Hx) as Hx1.
    destruct (MemorySystem.addInteraction E (fst x) (snd x) w) as [r w1] eqn:Hrun.
    cbn [fst snd] in *. subst r.
    rewrite (bind_Ok _ _ _ _ _ Hrun). exact (IH w1 Hd1 Hw1 Hs1 Hx1).
Qed.

(** X3. Starting from the empty memory, when the summarize agent answers
    every call, after N calls of [addInteraction] the summaries cover the
    ranges (e - 20, e) for the last min (N - 21) 3 numbers e up to N: each
    summary covers the 21 interactions that were kept when it was made, so
    that two summaries in a row share 20 ids, and the interaction that
    leaves the window (of id e - 21) is in none of them. *)
Theorem summaries_cover_the_kept_windows (E : env) (w : world)
        (l : list (request * response)) :
  (forall n p, exists r, summarizeAgent E n p = Returns r) ->
  durable (memoryFile w) = true ->
  stored (memoryFile w) = MemorySystem.emptyMemory ->
  let N := List.length l in
  let w' := snd (addAll E l w) in
  exists m,
    MemorySystem.loadMemory w' = (Ok m, w')
    /\ covered (summaries m)
       = List.map (fun e => (e - 20, e))
           (List.seq (S N - Nat.min (N - 21) 3) (Nat.min (N - 21) 3)).
Proof.
  intros Hans Hd He N w'.
  destruct emptyMemory_kept as [Hw0 Hs0]. rewrite <- He in Hw0, Hs0.
  assert (Hx0 : windowsSummarized (stored (memoryFile w))) by (rewrite He; reflexivity).
  pose proof (addAll_summarizes E l w Hans Hd Hw0 Hs0 Hx0) as Hx.
  destruct (addAll_keeps E l w Hd Hw0 Hs0) as (_ & _ & Hc & _).
  fold w' in Hc, Hx. rewrite He in Hc. cbn [count MemorySystem.emptyMemory] in Hc.
  fold N in Hc. unfold windowsSummarized in Hx. rewrite Hc in Hx.
  exists (stored (memoryFile w')). split; [apply loadMemory_stored | exact Hx].
Qed.

Lemma summaries_cover_the_kept_windows_witness :
  let E := Scenario.scripted [] in
  let w' := snd (addAll E (Scenario.exchanges 30) Scenario.blank) in
  (forall n p, exists r, summarizeAgent E n p = Returns r)
  /\ durable (memoryFile Scenario.blank) = true
  /\ stored (memoryFile Scenario.blank) = MemorySystem.emptyMemory
  /\ exists m,
       MemorySystem.loadMemory w' = (Ok m, w')
       /\ covered (summaries m) = [(8, 28); (9, 29); (10, 30)].
Proof.
  intros E w'.
  assert (Hans : forall n p, exists r, summarizeAgent E n p = Returns r)
    by (intros n p; eexists; reflexivity).
  split; [exact Hans|]. split; [reflexivity|]. split; [reflexivity|].
  exact (summaries_cover_the_kept_windows E Scenario.blank (Scenario.exchanges 30)
           Hans eq_refl eq_refl).
Defined.

(* ================================================================== *)
(** ** Failures while an interaction is added *)

(** [summarizeAndShift] never raises, and leaves the files alone. *)
Lemma summarizeAndShift_total (E : env) (m : memory) (w : world) :
  exists m' w',
    MemorySystem.summarizeAndShift E m w = (Ok m', w')
    /\ memoryFile w' = memoryFile w
    /\ notesFile w' = notesFile w
    /\ interactions m' = List.tl (interactions m)
    /\ count m' = count m.
Proof.
  unfold MemorySystem.summarizeAndShift, MemorySystem.summarize, querySummarizeAgent, logCall,
    MemorySystem.shift, MemorySystem.firstAndLast.
  unfold Js.bind, Js.try_catch, Js.lift, Js.ret, Js.throw, isoNow, consoleError, Js.modify.
  cbn [agentCalls clock notesFile memoryFile asked commands console fst snd].
  destruct (summarizeAgent E _ _) as [sr|e].
  - destruct (List.tl (interactions m)) as [|t0 rest];
      cbn [agentCalls clock notesFile memoryFile asked commands console fst snd];
      eexists _, _; repeat split; reflexivity.
  - cbn [agentCalls clock notesFile memoryFile asked commands console fst snd].
    eexists _, _. repeat split; reflexivity.
Qed.

(** X4. When the window is full and the summarize agent fails,
    [addInteraction] still succeeds: the error goes to the console, the
    summaries stay as they were, and the oldest interaction leaves the
    window all the same, so that nothing of it is kept. *)
Theorem failed_summary_is_swallowed (E : env) (req : request) (resp : response)
        (w : world) (e : jsError) :
  durable (memoryFile w) = true ->
  MemorySystem.MAX_INTERACTIONS <= List.length (interactions (stored (memoryFile w))) ->
  summarizeAgent E (List.length (agentCalls w))
    (MemorySystem.summaryPrompt E
       (List.tl (interactions (stored (memoryFile w)) ++ [nextInteraction E req resp w])%list))
  = Throws e ->
  let m := stored (memoryFile w) in
  let w' := snd (MemorySystem.addInteraction E req resp w) in
  fst (MemorySystem.addInteraction E req resp w) = Ok (nextInteraction E req resp w)
  /\ MemorySystem.loadMemory w'
     = (Ok (mkMemory (List.tl (interactions m ++ [nextInteraction E req resp w])%list)
              (summaries m) (count m + 1)), w')
  /\ console w' = ("Error creating memory summary: " ++ message e) :: console w.
Proof.
  intros Hd Hlen He m w'.
  set (i := nextInteraction E req resp w) in *.
  assert (Hrun : MemorySystem.addInteraction E req resp w
                 = (Ok i,
                    mkWorld (notesFile w)
                      (Holds true true
                         (Document (mkMemory (List.tl (interactions m ++ [i])%list)
                                      (summaries m) (count m + 1))))
                      (S (clock w))
                      (SummaryCall (MemorySystem.summaryPrompt E
                                      (List.tl (interactions m ++ [i])%list)) :: agentCalls w)
                      (asked w) (commands w)
                      (("Error creating memory summary: " ++ message e) :: console w))).
  { unfold MemorySystem.addInteraction.
    rewrite (bind_Ok _ _ _ _ _ (loadMemory_stored _)).
    unfold isoNow at 1. unfold Js.bind at 1.
    cbn [interactions]. fold m.
    change (mkInteraction req resp (now E (clock w)) (count m + 1)) with i.
    replace (Nat.ltb MemorySystem.MAX_INTERACTIONS (List.length (interactions m ++ [i])%list))
      with true.
    2:{ symmetry. apply Nat.ltb_lt. rewrite length_app. simpl. unfold m. lia. }
    unfold MemorySystem.summarizeAndShift, MemorySystem.shift at 1.
    cbn [interactions summaries count].
    unfold MemorySystem.summarize, querySummarizeAgent, logCall.
    unfold Js.bind, Js.try_catch, Js.lift, Js.ret, Js.throw, isoNow, consoleError, Js.modify,
      MemorySystem.firstAndLast, MemorySystem.saveMemory, Fs.writeMemoryFile.
    cbn [agentCalls clock notesFile memoryFile asked commands console fst snd].
    fold m in He. rewrite He.
    cbn [agentCalls clock notesFile memoryFile asked commands console fst snd].
    clear He. subst m.
    destruct (memoryFile w) as [|r wr a] eqn:Hf.
    - exfalso. cbn in Hlen. unfold MemorySystem.MAX_INTERACTIONS in Hlen. lia.
    - cbn in Hd. destruct r, wr; try discriminate. reflexivity. }
  subst w'. rewrite Hrun. cbn [fst snd console].
  split; [reflexivity|]. split; [|reflexivity].
  rewrite loadMemory_stored. reflexivity.
Qed.

Lemma failed_summary_is_swallowed_witness :
  let E := Cases.noSummary in
  let w := Cases.filled 21 in
  let req := mkRequest "one more" None in
  let resp := Scenario.plain "ok" false in
  let w' := snd (MemorySystem.addInteraction E req resp w) in
  durable (memoryFile w) = true
  /\ MemorySystem.MAX_INTERACTIONS <= List.length (interactions (stored (memoryFile w)))
  /\ fst (MemorySystem.addInteraction E req resp w) = Ok (nextInteraction E req resp w)
  /\ (exists m, MemorySystem.loadMemory w' = (Ok m, w')
                /\ ids (interactions m) = List.seq 2 21 /\ summaries m = [])
  /\ console w' = ["Error creating memory summary: no answer"].
Proof.
  intros E w req resp w'.
  assert (Hd : durable (memoryFile w) = true) by (vm_compute; reflexivity).
  assert (Hlen : MemorySystem.MAX_INTERACTIONS
                 <= List.length (interactions (stored (memoryFile w))))
    by (vm_compute; apply le_n).
  destruct (failed_summary_is_swallowed E req resp w
              (mkError CollaboratorError "no answer") Hd Hlen eq_refl) as (H1 & H2 & H3).
  split; [exact Hd|]. split; [exact Hlen|]. split; [exact H1|].
  split; [|exact H3].
  eexists. split; [exact H2|]. split; vm_compute; reflexivity.
Defined.

(** [addInteraction] is [addInteractionTo] at the memory that [loadMemory]
    gives. *)
Lemma addInteraction_from_loaded (E : env) (req : request) (resp : response) :
  MemorySystem.addInteraction E req resp
  = (m <- MemorySystem.loadMemory ;; addInteractionTo E req resp (AMemory m))%js.
Proof. reflexivity. Qed.



(* ================================================================== *)
(** ** The context string and the reset of the memory *)

Lemma length_substring_0 (n : nat) (s : string) :
  String.length (substring 0 n s) = Nat.min n (String.length s).
Proof.
  revert s. induction n as [|n IH]; intros s; destruct s as [|c s]; simpl; try reflexivity.
  rewrite IH. reflexivity.
Qed.

Lemma substring_0_all (n : nat) (s : string) :
  String.length s <= n -> substring 0 n s = s.
Proof.
  revert s. induction n as [|n IH]; intros s; destruct s as [|c s]; simpl; intros H;
    try reflexivity; try lia.
  rewrite IH by lia. reflexivity.
Qed.

Lemma length_append (a b : string) :
  String.length (a ++ b) = String.length a + String.length b.
Proof. induction a as [|c a IH]; simpl; [reflexivity | rewrite IH; reflexivity]. Qed.

Lemma append_empty_r (a : string) : a ++ "" = a.
Proof. induction a as [|c a IH]; simpl; [reflexivity | rewrite IH; reflexivity]. Qed.

Lemma orElse_cases (a b : string) : orElse a b = if truthy a then a else b.
Proof. destruct a; reflexivity. Qed.

(** X6. What [getMemoryContextString] shows of the answer of an
    interaction.  The content is the first non-empty one of the response
    text, the code and the summary of the answer, and the text
    'Response data' when all three are empty, so that it is never empty.
    It is shown whole when it has at most 200 characters; otherwise its
    first 200 characters are shown, followed by '...': 203 characters, and
    never more. *)
Theorem shown_content_is_bounded (i : interaction) :
  let a := aiResponse i in
  let content :=
    if truthy (responseText a) then responseText a
    else if truthy (code a) then code a
    else if truthy (responseSummary a) then responseSummary a
    else "Response data" in
  content <> ""
  /\ MemorySystem.shownContent i <> ""
  /\ String.length (MemorySystem.shownContent i) <= 203
  /\ (if Nat.leb (String.length content) 200
      then MemorySystem.shownContent i = content
      else MemorySystem.shownContent i = substring 0 200 content ++ "..."
           /\ String.length (MemorySystem.shownContent i) = 203).
Proof.
  intros a content.
  assert (Hc : aiContentOf i = content).
  { unfold aiContentOf. rewrite !orElse_cases. reflexivity. }
  assert (Hne : content <> "").
  { unfold content.
    destruct (responseText a) as [|c1 s1]; [|discriminate].
    destruct (code a) as [|c2 s2]; [|discriminate].
    destruct (responseSummary a) as [|c3 s3]; discriminate. }
  split; [exact Hne|].
  unfold MemorySystem.shownContent, Str.take. fold (aiContentOf i). rewrite Hc.
  destruct (Nat.leb (String.length content) 200) eqn:Hle.
  - apply Nat.leb_le in Hle.
    replace (Nat.ltb 200 (String.length content)) with false
      by (symmetry; apply Nat.ltb_ge; exact Hle).
    rewrite append_empty_r, (substring_0_all 200 content Hle).
    split; [exact Hne|]. split; [lia | reflexivity].
  - apply Nat.leb_gt in Hle.
    replace (Nat.ltb 200 (String.length content)) with true
      by (symmetry; apply Nat.ltb_lt; exact Hle).
    assert (Hlen : String.length (substring 0 200 content ++ "...") = 203).
    { rewrite length_append, length_substring_0.
      replace (Nat.min 200 (String.length content)) with 200 by lia. reflexivity. }
    split.
    { intros He. rewrite He in Hlen. discriminate. }
    split; [rewrite Hlen; apply le_n|]. split; [reflexivity | exact Hlen].
Qed.

(** X7. [clearMemory] forgets everything: whatever the memory held, the
    context string is empty afterwards, and the next interaction added has
    the id 1 and is alone in the memory. *)
Theorem clearing_restarts_the_numbering (E : env) (req : request) (resp : response)
        (w : world) :
  durable (memoryFile w) = true ->
  exists w1 i w2,
    MemorySystem.clearMemory w = (Ok MemorySystem.emptyMemory, w1)
    /\ MemorySystem.getMemoryContextString w1 = (Ok "", w1)
    /\ MemorySystem.addInteraction E req resp w1 = (Ok i, w2)
    /\ id i = 1
    /\ MemorySystem.loadMemory w2 = (Ok (mkMemory [i] [] 1), w2).
Proof.
  intros Hd.
  set (w1 := Fs.setMemoryFile (Holds true true (Document MemorySystem.emptyMemory)) w).
  assert (Hc : MemorySystem.clearMemory w = (Ok MemorySystem.emptyMemory, w1)).
  { unfold MemorySystem.clearMemory.
    rewrite (bind_Ok _ _ _ _ _ (saveMemory_durable _ w Hd)). reflexivity. }
  assert (Hd1 : durable (memoryFile w1) = true) by reflexivity.
  assert (Hlt : List.length (interactions (stored (memoryFile w1)))
                < MemorySystem.MAX_INTERACTIONS)
    by (cbn; unfold MemorySystem.MAX_INTERACTIONS; lia).
  pose proof (addInteraction_appends E req resp w1 Hd1 Hlt) as Ha.
  eexists w1, _, _.
  split; [exact Hc|].
  split; [unfold MemorySystem.getMemoryContextString;
          rewrite (bind_Ok _ _ _ _ _ (loadMemory_stored w1)); reflexivity|].
  split; [exact Ha|]. split; [reflexivity|].
  rewrite loadMemory_stored. reflexivity.
Qed.

Lemma clearing_restarts_the_numbering_witness :
  let E := Cases.noSummary in
  let w := Cases.filled 30 in
  durable (memoryFile w) = true
  /\ count (stored (memoryFile w)) = 30
  /\ exists w1 i w2,
       MemorySystem.clearMemory w = (Ok MemorySystem.emptyMemory, w1)
       /\ MemorySystem.getMemoryContextString w1 = (Ok "", w1)
       /\ MemorySystem.addInteraction E (mkRequest "hello" None) (Scenario.plain "hi" false) w1
          = (Ok i, w2)
       /\ id i = 1
       /\ MemorySystem.loadMemory w2 = (Ok (mkMemory [i] [] 1), w2).
Proof.
  intros E w.
  assert (Hd : durable (memoryFile w) = true) by (vm_compute; reflexivity).
  split; [exact Hd|]. split; [vm_compute; reflexivity|].
  exact (clearing_restarts_the_numbering E (mkRequest "hello" None)
           (Scenario.plain "hi" false) w Hd).
Defined.

(* ================================================================== *)
(** ** The retries of queryOpenAI *)

Section RetryFacts.

Variable A : Type.
Variable request : nat -> OpenaiWrapper.attempted A.

(** The loop from the attempt [attempt] on, when [left] passes are left
    of the [maxRetries + 1]. *)
Lemma attempts_bounded (maxRetries left attempt : nat)
      (lastError : option (option nat * jsError)) (t : OpenaiWrapper.trace) :
  attempt + left = S maxRetries ->
  0 < left ->
  let r := OpenaiWrapper.attempts A request maxRetries attempt left lastError t in
  (forall l, fst r <> OpenaiWrapper.RejectedLast l)
  /\ OpenaiWrapper.calls t < OpenaiWrapper.calls (snd r)
  /\ OpenaiWrapper.calls (snd r) <= OpenaiWrapper.calls t + left
  /\ List.length (OpenaiWrapper.delays (snd r)) + OpenaiWrapper.calls t + 1
     = List.length (OpenaiWrapper.delays t) + OpenaiWrapper.calls (snd r)
  /\ List.length (OpenaiWrapper.warnings (snd r)) + OpenaiWrapper.calls t + 1
     = List.length (OpenaiWrapper.warnings t) + OpenaiWrapper.calls (snd r).
Proof.
  revert attempt lastError t. induction left as [|left IH]; intros attempt lastError t Hsum Hpos.
  - lia.
  - cbn [OpenaiWrapper.attempts].
    destruct (request attempt) as [a | status e].
    + cbn. split; [discriminate|]. lia.
    + destruct (OpenaiWrapper.retryableStatus status && Nat.ltb attempt maxRetries) eqn:Hretry.
      * apply andb_true_iff in Hretry. destruct Hretry as [_ Hlt]. apply Nat.ltb_lt in Hlt.
        assert (Hleft : 0 < left) by lia.
        specialize (IH (S attempt) (Some (status, e))
                       (OpenaiWrapper.mkTrace (S (OpenaiWrapper.calls t))
                          (Nat.pow 2 attempt * 1000 :: OpenaiWrapper.delays t)
                          (("Retry " ++ Str.ofNat (attempt + 1) ++ ": " ++ message e)
                             :: OpenaiWrapper.warnings t))
                       ltac:(lia) Hleft).
        cbn [OpenaiWrapper.calls OpenaiWrapper.delays OpenaiWrapper.warnings List.length] in IH.
        cbn [OpenaiWrapper.calls OpenaiWrapper.delays OpenaiWrapper.warnings].
        destruct IH as (I1 & I2 & I3 & I4 & I5).
        split; [exact I1|]. lia.
      * cbn. split; [discriminate|]. lia.
Qed.

(** The loop when the attempts [attempt .. k-1] fail with a status that is
    retried and the attempt [k] is the last one. *)
Lemma attempts_settle (maxRetries k left attempt : nat)
      (lastError : option (option nat * jsError)) (t : OpenaiWrapper.trace) :
  attempt + left = S maxRetries ->
  attempt <= k <= maxRetries ->
  (forall j, attempt <= j < k -> retryable (request j) = true) ->
  k = maxRetries \/ retryable (request k) = false ->
  let r := OpenaiWrapper.attempts A request maxRetries attempt left lastError t in
  fst r = settledAs (request k)
  /\ OpenaiWrapper.calls (snd r) = OpenaiWrapper.calls t + S (k - attempt)
  /\ OpenaiWrapper.delays (snd r)
     = (List.rev (List.map (fun j => Nat.pow 2 j * 1000) (List.seq attempt (k - attempt)))
        ++ OpenaiWrapper.delays t)%list.
Proof.
  revert attempt lastError t.
  induction left as [|left IH]; intros attempt lastError t Hsum Hk Hbefore Hlast.
  - lia.
  - cbn [OpenaiWrapper.attempts].
    destruct (Nat.eq_dec attempt k) as [-> | Hne].
    + replace (k - k) with 0 by lia. cbn [List.seq List.map List.rev List.app].
      destruct (request k) as [a | status e] eqn:Hreq.
      * cbn. split; [reflexivity|]. split; [lia | reflexivity].
      * replace (OpenaiWrapper.retryableStatus status && Nat.ltb k maxRetries) with false.
        { cbn. split; [reflexivity|]. split; [lia | reflexivity]. }
        symmetry. apply andb_false_iff. destruct Hlast as [-> | Hno].
        -- right. apply Nat.ltb_irrefl.
        -- left. exact Hno.
    + assert (Hr : retryable (request attempt) = true) by (apply Hbefore; lia).
      destruct (request attempt) as [a | status e]; [discriminate|]. cbn in Hr.
      rewrite Hr. replace (Nat.ltb attempt maxRetries) with true
        by (symmetry; apply Nat.ltb_lt; lia).
      cbn [andb].
      destruct (IH (S attempt) (Some (status, e))
                  (OpenaiWrapper.mkTrace (S (OpenaiWrapper.calls t))
                     (Nat.pow 2 attempt * 1000 :: OpenaiWrapper.delays t)
                     (("Retry " ++ Str.ofNat (attempt + 1) ++ ": " ++ message e)
                        :: OpenaiWrapper.warnings t))
                  ltac:(lia) ltac:(lia)
                  ltac:(intros j Hj; apply Hbefore; lia) Hlast) as (I1 & I2 & I3).
      cbn [OpenaiWrapper.calls OpenaiWrapper.delays OpenaiWrapper.warnings] in *.
      split; [exact I1|]. split; [lia|].
      rewrite I3. replace (k - attempt) with (S (k - S attempt)) by lia.
      cbn [List.seq List.map List.rev]. rewrite <- app_assoc. reflexivity.
Qed.

Lemma backoff_sum (k : nat) : List.list_sum (backoff k) + 1000 = Nat.pow 2 k * 1000.
Proof.
  unfold backoff. induction k as [|k IH].
  - reflexivity.
  - rewrite seq_S, map_app, rev_app_distr. cbn [List.map List.rev List.app Nat.add].
    unfold List.list_sum in *. cbn [List.fold_right].
    rewrite Nat.pow_succ_r'. lia.
Qed.

End RetryFacts.

Section RetryUnderFacts.

Variable A : Type.
Variable request : nat -> OpenaiWrapper.attempted A.

(** For a whole number, the loop for any number is the loop above. *)
Lemma attemptsUnder_whole (n left : nat) :
  forall (fuel attempt : nat) (lastError : option (option nat * jsError))
         (t : OpenaiWrapper.trace),
    attempt + left = S n ->
    0 < left ->
    left <= fuel ->
    OpenaiWrapper.attemptsUnder A request (OpenaiWrapper.Whole n) fuel attempt lastError t
    = Some (OpenaiWrapper.attempts A request n attempt left lastError t).
Proof.
  induction left as [|left IH]; intros fuel attempt lastError t Hsum Hpos Hfuel.
  - lia.
  - destruct fuel as [|fuel]; [lia|].
    cbn [OpenaiWrapper.attemptsUnder OpenaiWrapper.attempts OpenaiWrapper.withinLimit
         OpenaiWrapper.belowLimit].
    replace (Nat.leb attempt n) with true by (symmetry; apply Nat.leb_le; lia).
    destruct (request attempt) as [a | status e]; [reflexivity|].
    destruct (OpenaiWrapper.retryableStatus status && Nat.ltb attempt n) eqn:Hretry;
      [|reflexivity].
    apply andb_true_iff in Hretry. destruct Hretry as [_ Hlt]. apply Nat.ltb_lt in Hlt.
    apply IH; lia.
Qed.

(** The loop for a number that is [n] or lies between [n] and [n + 1],
    when [left] attempts are left of the [n + 1]: it settles, with at most
    [left] calls more, and with a sleep and a warning for every call but,
    at most, one. *)
Lemma attemptsUnder_bounded (x : OpenaiWrapper.retryLimit) (n left : nat) :
  x = OpenaiWrapper.Whole n \/ x = OpenaiWrapper.Fraction n ->
  forall (fuel attempt : nat) (lastError : option (option nat * jsError))
         (t : OpenaiWrapper.trace),
    attempt + left = S n ->
    left < fuel ->
    exists r,
      OpenaiWrapper.attemptsUnder A request x fuel attempt lastError t = Some r
      /\ OpenaiWrapper.calls t <= OpenaiWrapper.calls (snd r) <= OpenaiWrapper.calls t + left
      /\ (0 < left -> OpenaiWrapper.calls t < OpenaiWrapper.calls (snd r))
      /\ List.length (OpenaiWrapper.delays (snd r)) + OpenaiWrapper.calls t
         <= List.length (OpenaiWrapper.delays t) + OpenaiWrapper.calls (snd r)
      /\ OpenaiWrapper.calls (snd r) + List.length (OpenaiWrapper.delays t)
         <= List.length (OpenaiWrapper.delays (snd r)) + OpenaiWrapper.calls t + 1
      /\ List.length (OpenaiWrapper.warnings (snd r)) + List.length (OpenaiWrapper.delays t)
         = List.length (OpenaiWrapper.warnings t) + List.length (OpenaiWrapper.delays (snd r)).
Proof.
  intros Hx.
  assert (Hin : forall a, OpenaiWrapper.withinLimit a x = Nat.leb a n)
    by (intros a; destruct Hx as [-> | ->]; reflexivity).
  induction left as [|left IH]; intros fuel attempt lastError t Hsum Hfuel.
  - destruct fuel as [|fuel]; [lia|].
    cbn [OpenaiWrapper.attemptsUnder]. rewrite Hin.
    replace (Nat.leb attempt n) with false by (symmetry; apply Nat.leb_gt; lia).
    eexists. split; [reflexivity|]. cbn [fst snd]. lia.
  - destruct fuel as [|fuel]; [lia|].
    cbn [OpenaiWrapper.attemptsUnder]. rewrite Hin.
    replace (Nat.leb attempt n) with true by (symmetry; apply Nat.leb_le; lia).
    destruct (request attempt) as [a | status e].
    + eexists. split; [reflexivity|].
      cbn [fst snd OpenaiWrapper.calls OpenaiWrapper.delays OpenaiWrapper.warnings]. lia.
    + destruct (OpenaiWrapper.retryableStatus status && OpenaiWrapper.belowLimit attempt x).
      * destruct (IH fuel (S attempt) (Some (status, e))
                    (OpenaiWrapper.mkTrace (S (OpenaiWrapper.calls t))
                       (Nat.pow 2 attempt * 1000 :: OpenaiWrapper.delays t)
                       (("Retry " ++ Str.ofNat (attempt + 1) ++ ": " ++ message e)
                          :: OpenaiWrapper.warnings t))
                    ltac:(lia) ltac:(lia)) as (r & R0 & R1 & R2 & R3 & R4 & R5).
        cbn [OpenaiWrapper.calls OpenaiWrapper.delays OpenaiWrapper.warnings List.length]
          in R0, R1, R2, R3, R4, R5.
        cbn [OpenaiWrapper.calls OpenaiWrapper.delays OpenaiWrapper.warnings].
        exists r. split; [exact R0|]. lia.
      * eexists. split; [reflexivity|].
        cbn [fst snd OpenaiWrapper.calls OpenaiWrapper.delays OpenaiWrapper.warnings]. lia.
Qed.

(** The loop for a number between [n] and [n + 1], when every attempt up
    to that of number [n] fails with a status that is retried: after the
    attempt [n] it sleeps once more, makes no further call and leaves the
    loop, and the error thrown after the loop is that of the attempt [n]. *)
Lemma attemptsUnder_fraction_exhausted (n left : nat) :
  forall (fuel attempt : nat) (lastError : option (option nat * jsError))
         (t : OpenaiWrapper.trace),
    attempt + left = S n ->
    0 < left ->
    left < fuel ->
    (forall j, attempt <= j <= n -> retryable (request j) = true) ->
    exists status e ws,
      request n = OpenaiWrapper.Failed status e
      /\ OpenaiWrapper.attemptsUnder A request (OpenaiWrapper.Fraction n) fuel attempt lastError t
         = Some (OpenaiWrapper.RejectedLast (Some (status, e)),
                 OpenaiWrapper.mkTrace (OpenaiWrapper.calls t + left)
                   (List.rev (List.map (fun j => Nat.pow 2 j * 1000) (List.seq attempt left))
                    ++ OpenaiWrapper.delays t)%list ws).
Proof.
  induction left as [|left IH]; intros fuel attempt lastError t Hsum Hpos Hfuel Hall.
  - lia.
  - destruct fuel as [|fuel]; [lia|].
    cbn [OpenaiWrapper.attemptsUnder OpenaiWrapper.withinLimit OpenaiWrapper.belowLimit].
    replace (Nat.leb attempt n) with true by (symmetry; apply Nat.leb_le; lia).
    assert (Hr : retryable (request attempt) = true) by (apply Hall; lia).
    destruct (request attempt) as [a | status e] eqn:Hreq; [discriminate|].
    cbn in Hr. rewrite Hr. cbn [andb].
    destruct left as [|left].
    + assert (attempt = n) by lia. subst attempt.
      destruct fuel as [|fuel]; [lia|].
      cbn [OpenaiWrapper.attemptsUnder OpenaiWrapper.withinLimit].
      replace (Nat.leb (S n) n) with false by (symmetry; apply Nat.leb_gt; lia).
      exists status, e. eexists. split; [exact Hreq|].
      cbn [OpenaiWrapper.calls OpenaiWrapper.delays OpenaiWrapper.warnings
           List.seq List.map List.rev List.app].
      rewrite (Nat.add_1_r (OpenaiWrapper.calls t)). reflexivity.
    + destruct (IH fuel (S attempt) (Some (status, e))
                  (OpenaiWrapper.mkTrace (S (OpenaiWrapper.calls t))
                     (Nat.pow 2 attempt * 1000 :: OpenaiWrapper.delays t)
                     (("Retry " ++ Str.ofNat (attempt + 1) ++ ": " ++ message e)
                        :: OpenaiWrapper.warnings t))
                  ltac:(lia) ltac:(lia) ltac:(lia)
                  ltac:(intros j Hj; apply Hall; lia)) as (status' & e' & ws & I1 & I2).
      cbn [OpenaiWrapper.calls OpenaiWrapper.delays OpenaiWrapper.warnings] in *.
      exists status', e', ws. split; [exact I1|].
      rewrite I2. f_equal. f_equal.
      replace (S (OpenaiWrapper.calls t) + S left) with (OpenaiWrapper.calls t + S (S left))
        by lia.
      f_equal.
      change (List.seq attempt (S (S left))) with (attempt :: List.seq (S attempt) (S left)).
      cbn [List.map List.rev]. rewrite <- app_assoc. reflexivity.
Qed.

(** With no limit, the loop goes on as long as the attempts fail with a
    status that is retried: no budget of passes is enough. *)
Lemma attemptsUnder_unlimited (fuel : nat) :
  (forall j, retryable (request j) = true) ->
  forall (attempt : nat) (lastError : option (option nat * jsError))
         (t : OpenaiWrapper.trace),
    OpenaiWrapper.attemptsUnder A request OpenaiWrapper.Unlimited fuel attempt lastError t
    = None.
Proof.
  intros Hall. induction fuel as [|fuel IH]; intros attempt lastError t; [reflexivity|].
  cbn [OpenaiWrapper.attemptsUnder OpenaiWrapper.withinLimit OpenaiWrapper.belowLimit].
  pose proof (Hall attempt) as Hr.
  destruct (request attempt) as [a | status e]; [discriminate|].
  cbn in Hr. rewrite Hr. cbn [andb]. apply IH.
Qed.

End RetryUnderFacts.

(** X8. How many times [queryOpenAI] calls the API, for every API and for
    every number that the option [maxRetries] can be.
    For the whole number [n] (the default is 3), it calls at least once
    and at most [n + 1] times, sleeps and warns once before every call but
    the first, and never reaches the [throw lastError] that follows the
    loop.
    For a number between [n] and [n + 1], it calls at least once and at
    most [n + 1] times too, but when the [n + 1] attempts all fail with a
    status that is retried it sleeps after the last one as well, and then
    leaves the loop and throws [lastError], the error of that attempt.
    For a number below 0 or for [NaN], it makes no call at all and throws
    [lastError], which is [null].
    For [Infinity], it never settles while the attempts fail with a status
    that is retried. *)
Theorem queryOpenAI_calls_bounded (A : Type) (request : nat -> OpenaiWrapper.attempted A) :
  (forall n fuel,
      n < fuel ->
      exists r,
        OpenaiWrapper.queryOpenAIWith A request (OpenaiWrapper.Whole n) fuel = Some r
        /\ r = OpenaiWrapper.queryOpenAI A request n
        /\ (forall l, fst r <> OpenaiWrapper.RejectedLast l)
        /\ 1 <= OpenaiWrapper.calls (snd r) <= n + 1
        /\ S (List.length (OpenaiWrapper.delays (snd r))) = OpenaiWrapper.calls (snd r)
        /\ S (List.length (OpenaiWrapper.warnings (snd r))) = OpenaiWrapper.calls (snd r))
  /\ (forall n fuel,
         S n < fuel ->
         exists r,
           OpenaiWrapper.queryOpenAIWith A request (OpenaiWrapper.Fraction n) fuel = Some r
           /\ 1 <= OpenaiWrapper.calls (snd r) <= n + 1
           /\ List.length (OpenaiWrapper.delays (snd r)) <= OpenaiWrapper.calls (snd r)
              <= S (List.length (OpenaiWrapper.delays (snd r)))
           /\ List.length (OpenaiWrapper.warnings (snd r))
              = List.length (OpenaiWrapper.delays (snd r))
           /\ ((forall j, j <= n -> retryable (request j) = true) ->
               exists status e,
                 request n = OpenaiWrapper.Failed status e
                 /\ fst r = OpenaiWrapper.RejectedLast (Some (status, e))
                 /\ OpenaiWrapper.calls (snd r) = n + 1
                 /\ OpenaiWrapper.delays (snd r) = backoff (S n)))
  /\ (forall fuel,
         OpenaiWrapper.queryOpenAIWith A request OpenaiWrapper.NotANumber (S fuel)
         = Some (OpenaiWrapper.RejectedLast None, OpenaiWrapper.mkTrace 0 [] [])
         /\ OpenaiWrapper.queryOpenAIWith A request OpenaiWrapper.BelowZero (S fuel)
            = Some (OpenaiWrapper.RejectedLast None, OpenaiWrapper.mkTrace 0 [] []))
  /\ ((forall j, retryable (request j) = true) ->
      forall fuel,
        OpenaiWrapper.queryOpenAIWith A request OpenaiWrapper.Unlimited fuel = None).
Proof.
  split; [|split; [|split]].
  - intros n fuel Hfuel. eexists. split.
    { unfold OpenaiWrapper.queryOpenAIWith.
      apply (attemptsUnder_whole A request n (S n) fuel 0); lia. }
    split; [reflexivity|].
    unfold OpenaiWrapper.queryOpenAI.
    destruct (attempts_bounded A request n (S n) 0 None
                (OpenaiWrapper.mkTrace 0 [] []) eq_refl ltac:(lia)) as (H1 & H2 & H3 & H4 & H5).
    cbn [OpenaiWrapper.calls OpenaiWrapper.delays OpenaiWrapper.warnings List.length] in *.
    split; [exact H1|]. lia.
  - intros n fuel Hfuel. unfold OpenaiWrapper.queryOpenAIWith.
    destruct (attemptsUnder_bounded A request (OpenaiWrapper.Fraction n) n (S n)
                (or_intror eq_refl) fuel 0 None (OpenaiWrapper.mkTrace 0 [] [])
                eq_refl Hfuel) as (r & R0 & R1 & R2 & R3 & R4 & R5).
    cbn [OpenaiWrapper.calls OpenaiWrapper.delays OpenaiWrapper.warnings List.length] in *.
    exists r. split; [exact R0|].
    split; [specialize (R2 ltac:(lia)); lia|]. split; [lia|]. split; [lia|].
    intros Hall.
    destruct (attemptsUnder_fraction_exhausted A request n (S n) fuel 0 None
                (OpenaiWrapper.mkTrace 0 [] []) eq_refl ltac:(lia) Hfuel
                ltac:(intros j Hj; apply Hall; lia)) as (status & e & ws & E1 & E2).
    rewrite R0 in E2. injection E2 as E2. subst r.
    cbn [fst snd OpenaiWrapper.calls OpenaiWrapper.delays].
    exists status, e. split; [exact E1|]. split; [reflexivity|].
    split; [lia|]. rewrite app_nil_r. reflexivity.
  - intros fuel. split; reflexivity.
  - intros Hall fuel. apply attemptsUnder_unlimited. exact Hall.
Qed.

(** X8 for an API that is overloaded five times in a row.  With the option
    at 1.5, the loop calls twice, sleeps 1 and 2 seconds, and throws the
    last error after the loop; with the option at -1, it makes no call and
    throws [null]; with the option at 1, it calls twice, sleeps once and
    rejects from inside the loop. *)
Lemma queryOpenAI_calls_bounded_witness :
  let request := Cases.overloaded 5 in
  let busy := mkError CollaboratorError "Service Unavailable" in
  (exists r, OpenaiWrapper.queryOpenAIWith string request (OpenaiWrapper.Fraction 1) 5 = Some r
             /\ fst r = OpenaiWrapper.RejectedLast (Some (Some 503, busy))
             /\ OpenaiWrapper.calls (snd r) = 2
             /\ OpenaiWrapper.delays (snd r) = [2000; 1000])
  /\ OpenaiWrapper.queryOpenAIWith string request OpenaiWrapper.BelowZero 5
     = Some (OpenaiWrapper.RejectedLast None, OpenaiWrapper.mkTrace 0 [] [])
  /\ (exists r, OpenaiWrapper.queryOpenAIWith string request (OpenaiWrapper.Whole 1) 5 = Some r
                /\ fst r = OpenaiWrapper.Rejected (Some 503) busy
                /\ OpenaiWrapper.calls (snd r) = 2
                /\ OpenaiWrapper.delays (snd r) = [1000]).
Proof.
  intros request busy.
  destruct (queryOpenAI_calls_bounded string request) as (Hwhole & Hfraction & Hnone & _).
  split; [|split].
  - destruct (Hfraction 1 5 ltac:(lia)) as (r & R0 & _ & _ & _ & Hall).
    destruct Hall as (status & e & E1 & E2 & E3 & E4).
    { intros j Hj. destruct j as [|[|j]]; [reflexivity | reflexivity | lia]. }
    exists r. split; [exact R0|].
    vm_compute in E1. injection E1 as <- <-.
    split; [exact E2|]. split; [exact E3 | exact E4].
  - exact (proj2 (Hnone 4)).
  - destruct (Hwhole 1 5 ltac:(lia)) as (r & R0 & R1 & _).
    exists r. split; [exact R0|]. rewrite R1. vm_compute. repeat split.
Defined.



(* ================================================================== *)
(** ** Texts *)

Lemma append_assoc (a b c : string) : (a ++ b) ++ c = a ++ (b ++ c).
Proof. induction a as [|x a IH]; simpl; [reflexivity | rewrite IH; reflexivity]. Qed.

Lemma take_drop (n : nat) (s : string) : Str.take n s ++ Str.drop n s = s.
Proof.
  unfold Str.take. revert s. induction n as [|n IH]; intros s; destruct s as [|c s]; simpl;
    try reflexivity.
  rewrite IH. reflexivity.
Qed.

Lemma cut_at (i n : nat) (s : string) :
  Str.take i s ++ substring i n s ++ Str.drop (i + n) s = s.
Proof.
  unfold Str.take. revert s. induction i as [|i IH]; intros s.
  - replace (substring 0 0 s) with "" by (destruct s; reflexivity).
    apply (take_drop n s).
  - destruct s as [|c s]; simpl.
    + destruct n; reflexivity.
    + rewrite IH. reflexivity.
Qed.

Lemma dollarFree_append (a b : string) :
  dollarFree (a ++ b) = dollarFree a && dollarFree b.
Proof.
  induction a as [|c a IH]; simpl; [reflexivity|].
  rewrite IH. apply andb_assoc.
Qed.

(** A replacement text without dollar sign stands for itself. *)
Lemma expand_dollarFree (repl matched before after : string) :
  dollarFree repl = true -> Str.expand repl matched before after = repl.
Proof.
  induction repl as [|c r IH]; simpl; intros H; [reflexivity|].
  apply andb_true_iff in H. destruct H as [Hc Hr].
  destruct (Ascii.eqb c "$"); [discriminate|]. rewrite (IH Hr). reflexivity.
Qed.

Lemma expand_other (c : ascii) (t matched before after : string) :
  Ascii.eqb c "$" = false ->
  Str.expand (String c t) matched before after = String c (Str.expand t matched before after).
Proof. intros H. cbn [Str.expand]. rewrite H. reflexivity. Qed.

(** A dollar-free text followed by two dollar signs: one is written. *)
Lemma expand_doubled (a b matched before after : string) :
  dollarFree a = true ->
  Str.expand (a ++ "$$" ++ b) matched before after
  = a ++ "$" ++ Str.expand b matched before after.
Proof.
  induction a as [|c r IH]; intros H; [reflexivity|].
  cbn [dollarFree] in H. apply andb_true_iff in H. destruct H as [Hc Hr].
  apply negb_true_iff in Hc.
  change (String c r ++ "$$" ++ b) with (String c (r ++ "$$" ++ b)).
  rewrite (expand_other _ _ _ _ _ Hc), (IH Hr). reflexivity.
Qed.

Lemma replaceAt_dollarFree (s : string) (i len : nat) (repl : string) :
  dollarFree repl = true ->
  Str.replaceAt s i len repl = Str.take i s ++ repl ++ Str.drop (i + len) s.
Proof. intros H. unfold Str.replaceAt. rewrite (expand_dollarFree _ _ _ _ H). reflexivity. Qed.

Lemma rev_onto_append (s acc r : string) :
  Str.rev_onto s acc ++ r = Str.rev_onto s (acc ++ r).
Proof.
  revert acc. induction s as [|c s IH]; intros acc; simpl; [reflexivity|].
  rewrite IH. reflexivity.
Qed.

Lemma split_from_cons (sep : ascii) (s cur : string) :
  exists x l, Str.split_from sep s cur = x :: l.
Proof.
  revert cur. induction s as [|c s IH]; intros cur; simpl.
  - eexists _, _. reflexivity.
  - destruct (Ascii.eqb c sep); [eexists _, _; reflexivity | apply IH].
Qed.

Lemma join_split_from (s cur : string) :
  Str.join Str.nl (Str.split_from Str.LF s cur) = Str.rev cur ++ s.
Proof.
  unfold Str.join, Str.rev. revert cur. induction s as [|c s IH]; intros cur; simpl.
  - rewrite append_empty_r. reflexivity.
  - destruct (Ascii.eqb c Str.LF) eqn:Hc.
    + apply Ascii.eqb_eq in Hc. subst c.
      destruct (split_from_cons Str.LF s "") as (x & l & Hx).
      specialize (IH ""). rewrite Hx in *.
      change (String.concat Str.nl (Str.rev cur :: x :: l))
        with (Str.rev cur ++ Str.nl ++ String.concat Str.nl (x :: l)).
      rewrite IH. reflexivity.
    + rewrite IH. simpl.
      rewrite (rev_onto_append cur (String c "") s), (rev_onto_append cur "" (String c s)).
      reflexivity.
Qed.

(** [s.split('\n').join('\n')] is [s]. *)
Lemma join_split (s : string) : Str.join Str.nl (Str.split Str.LF s) = s.
Proof. unfold Str.split. rewrite join_split_from. reflexivity. Qed.

(* ================================================================== *)
(** ** The notes *)

Lemma world_same_notes (w : world) (notes : string) :
  notesFile w = Holds true true notes ->
  Fs.setNotesFile (Holds true true notes) w = w.
Proof. destruct w; cbn. intros ->. reflexivity. Qed.

Lemma loadNotes_holds (E : env) (w : world) (wr : bool) (notes : string) :
  notesFile w = Holds true wr notes ->
  NotesManager.loadNotes E w = (Ok notes, w).
Proof.
  intros H. unfold NotesManager.loadNotes, Js.try_catch, Fs.readNotesFile.
  rewrite H. reflexivity.
Qed.

Lemma saveNotes_holds (w : world) (r : bool) (old content : string) :
  notesFile w = Holds r true old ->
  NotesManager.saveNotes content w = (Ok tt, Fs.setNotesFile (Holds r true content) w).
Proof.
  intros H. unfold NotesManager.saveNotes, Fs.writeNotesFile. rewrite H. reflexivity.
Qed.

(** A step number that the count has passed, or will not reach, changes
    no line. *)
Lemma completeLines_past (n : nat) (lines : list string) (b : bool) (c : nat) :
  n <= c -> NotesManager.completeLines n b c lines = lines.
Proof.
  revert b c. induction lines as [|line rest IH]; intros b c H;
    cbn [NotesManager.completeLines]; [reflexivity|].
  destruct (Str.startsWith line "## Plan"); [rewrite IH by lia; reflexivity|].
  destruct (Str.startsWith line "##"); [rewrite IH by lia; reflexivity|].
  destruct (b && Str.startsWith (Str.trim line) "- [").
  - replace (Nat.eqb (S c) n) with false by (symmetry; apply Nat.eqb_neq; lia).
    rewrite IH by lia. reflexivity.
  - rewrite IH by lia. reflexivity.
Qed.

Lemma completeLines_beyond (n : nat) (lines : list string) (b : bool) (c : nat) :
  c + checklistLines b lines < n -> NotesManager.completeLines n b c lines = lines.
Proof.
  revert b c. induction lines as [|line rest IH]; intros b c H;
    cbn [NotesManager.completeLines checklistLines] in *; [reflexivity|].
  destruct (Str.startsWith line "## Plan"); [rewrite IH by lia; reflexivity|].
  destruct (Str.startsWith line "##"); [rewrite IH by lia; reflexivity|].
  destruct (b && Str.startsWith (Str.trim line) "- [").
  - replace (Nat.eqb (S c) n) with false by (symmetry; apply Nat.eqb_neq; lia).
    rewrite IH by lia. reflexivity.
  - rewrite IH by lia. reflexivity.
Qed.

(** X10. [completeStep] with a step number that is no checklist line of
    the plan section (zero, or more than there are) does not fail and
    leaves the notes as they are, character for character. *)
Theorem completeStep_out_of_range (E : env) (n : nat) (w : world) (notes : string) :
  notesFile w = Holds true true notes ->
  n = 0 \/ checklistLines false (Str.split Str.LF notes) < n ->
  NotesManager.completeStep E n w = (Ok notes, w).
Proof.
  intros Hn Hrange. unfold NotesManager.completeStep.
  rewrite (bind_Ok _ _ _ _ _ (loadNotes_holds E w true notes Hn)).
  replace (NotesManager.completeLines n false 0 (Str.split Str.LF notes))
    with (Str.split Str.LF notes).
  2:{ symmetry. destruct Hrange as [-> | Hlt].
      - apply completeLines_past. lia.
      - apply completeLines_beyond. exact Hlt. }
  rewrite join_split.
  rewrite (bind_Ok _ _ _ _ _ (saveNotes_holds w true notes notes Hn)).
  rewrite (world_same_notes w notes Hn). reflexivity.
Qed.

Lemma completeStep_out_of_range_witness :
  let E := Scenario.scripted [] in
  let w := Scenario.planned E Scenario.threeSteps [] in
  exists notes,
    notesFile w = Holds true true notes
    /\ checklistLines false (Str.split Str.LF notes) = 3
    /\ NotesManager.completeStep E 4 w = (Ok notes, w)
    /\ NotesManager.completeStep E 0 w = (Ok notes, w).
Proof.
  intros E w.
  exists (Scenario.notesText w).
  assert (Hn : notesFile w = Holds true true (Scenario.notesText w)) by (vm_compute; reflexivity).
  assert (Hc : checklistLines false (Str.split Str.LF (Scenario.notesText w)) = 3)
    by (vm_compute; reflexivity).
  split; [exact Hn|]. split; [exact Hc|].
  split.
  - apply (completeStep_out_of_range E 4 w (Scenario.notesText w) Hn).
    right. rewrite Hc. apply le_n.
  - apply (completeStep_out_of_range E 0 w (Scenario.notesText w) Hn).
    left. reflexivity.
Defined.

(** *** Where a pattern is found *)

Lemma prefix_length (p s : string) :
  prefix p s = true -> String.length p <= String.length s.
Proof.
  revert s. induction p as [|a p IH]; intros s H; [simpl; lia|].
  destruct s as [|b s]; simpl in H; [discriminate|].
  destruct (Ascii.ascii_dec a b); [|discriminate]. simpl. apply IH in H. lia.
Qed.

Lemma prefix_append (p x : string) : prefix p (p ++ x) = true.
Proof.
  induction p as [|a p IH]; simpl; [destruct x; reflexivity|].
  destruct (Ascii.ascii_dec a a); [exact IH | congruence].
Qed.

Lemma prefix_agree (p s t : string) :
  Str.take (String.length p) s = Str.take (String.length p) t -> prefix p s = prefix p t.
Proof.
  unfold Str.take. revert s t. induction p as [|a p IH]; intros s t H;
    [destruct s, t; reflexivity|].
  destruct s as [|b s], t as [|c t]; simpl in *; try reflexivity; try discriminate.
  inversion H; subst. destruct (Ascii.ascii_dec a c); [apply IH; assumption | reflexivity].
Qed.

Lemma index_here (p s : string) : prefix p s = true -> index 0 p s = Some 0.
Proof.
  intros H. destruct s as [|c s]; cbn [index].
  - destruct p; [reflexivity | discriminate].
  - rewrite H. reflexivity.
Qed.

Lemma index_length (p s : string) (i : nat) :
  index 0 p s = Some i -> i + String.length p <= String.length s.
Proof.
  revert i. induction s as [|c s IH]; intros i H; cbn [index] in H.
  - destruct p; [|discriminate]. inversion H. simpl. lia.
  - destruct (prefix p (String c s)) eqn:Hp.
    + inversion H. subst. apply prefix_length in Hp. lia.
    + destruct (index 0 p s) as [n|]; [|discriminate]. inversion H. subst.
      specialize (IH n eq_refl). simpl. lia.
Qed.

Lemma take_append_long (n : nat) (s x : string) :
  n <= String.length s -> Str.take n (s ++ x) = Str.take n s.
Proof.
  unfold Str.take. revert s. induction n as [|n IH]; intros s H.
  - destruct s, x; reflexivity.
  - destruct s as [|c s]; simpl in *; [lia|]. rewrite IH by lia. reflexivity.
Qed.

Lemma take_take (n k : nat) (s : string) :
  n <= k -> Str.take n (Str.take k s) = Str.take n s.
Proof.
  unfold Str.take. revert k s. induction n as [|n IH]; intros k s H.
  - destruct k, s; reflexivity.
  - destruct k as [|k]; [lia|]. destruct s as [|c s]; simpl; [reflexivity|].
    rewrite IH by lia. reflexivity.
Qed.

(** What follows the match does not change where the first match is. *)
Lemma index_stable (p s x : string) (i : nat) :
  index 0 p s = Some i ->
  index 0 p (Str.take (i + String.length p) s ++ x) = Some i.
Proof.
  revert i. induction s as [|c s IH]; intros i H.
  - cbn [index] in H. destruct p; [|discriminate]. inversion H. subst.
    change (Str.take (0 + String.length "") "" ++ x) with x.
    apply index_here. destruct x; reflexivity.
  - pose proof (index_length _ _ _ H) as Hlen.
    cbn [index] in H. destruct (prefix p (String c s)) eqn:Hp.
    + inversion H. subst. cbn [Nat.add].
      apply index_here. apply prefix_correct in Hp. unfold Str.take. rewrite Hp.
      apply prefix_append.
    + destruct (index 0 p s) as [n|] eqn:Hi; [|discriminate]. inversion H. subst.
      specialize (IH n eq_refl).
      change (Str.take (S n + String.length p) (String c s) ++ x)
        with (String c (Str.take (n + String.length p) s ++ x)).
      cbn [index]. rewrite IH.
      replace (prefix p (String c (Str.take (n + String.length p) s ++ x))) with false;
        [reflexivity|].
      rewrite <- Hp. apply prefix_agree.
      destruct (String.length p) as [|m] eqn:Hm; [reflexivity|].
      unfold Str.take. cbn [substring]. f_equal. fold (Str.take m s).
      fold (Str.take m (Str.take (n + S m) s ++ x)).
      simpl in Hlen.
      rewrite take_append_long by (unfold Str.take; rewrite length_substring_0; lia).
      symmetry. apply take_take. lia.
Qed.

Lemma drop_append_exact (a b : string) : Str.drop (String.length a) (a ++ b) = b.
Proof. induction a as [|c a IH]; simpl; [destruct b; reflexivity | exact IH]. Qed.

Lemma take_append_exact (a b : string) : Str.take (String.length a) (a ++ b) = a.
Proof.
  unfold Str.take. induction a as [|c a IH]; simpl; [destruct b; reflexivity|].
  rewrite IH. reflexivity.
Qed.

Lemma length_take_le (n : nat) (s : string) :
  n <= String.length s -> String.length (Str.take n s) = n.
Proof. intros H. unfold Str.take. rewrite length_substring_0. lia. Qed.

Lemma take_plus (i n : nat) (s : string) :
  Str.take (i + n) s = Str.take i s ++ substring i n s.
Proof.
  unfold Str.take. revert s. induction i as [|i IH]; intros s.
  - replace (substring 0 0 s) with "" by (destruct s; reflexivity). reflexivity.
  - destruct s as [|c s]; simpl.
    + destruct n; reflexivity.
    + rewrite IH. reflexivity.
Qed.

Lemma dollarFree_stamped (stamp item : string) :
  dollarFree stamp = true -> dollarFree item = true ->
  dollarFree (NotesManager.stamped stamp item) = true.
Proof.
  intros Hs Hi. unfold NotesManager.stamped.
  rewrite !dollarFree_append, Hs, Hi. reflexivity.
Qed.

(** The text that [insertUnder] gives when the heading is found. *)
Lemma insertUnder_text (heading line notes : string) (i : nat) :
  Str.indexOf (heading ++ Str.nl) notes = Some i ->
  dollarFree heading = true ->
  dollarFree line = true ->
  NotesManager.insertUnder heading line notes
  = Str.take i notes ++ heading ++ Str.nl ++ line ++ Str.nl
    ++ Str.drop (i + String.length heading + 1) notes
  /\ notes = Str.take i notes ++ heading ++ Str.nl
             ++ Str.drop (i + String.length heading + 1) notes
  /\ Str.indexOf (heading ++ Str.nl) (NotesManager.insertUnder heading line notes) = Some i.
Proof.
  intros Hi Hh Hl.
  assert (Hlen : String.length (heading ++ Str.nl) = String.length heading + 1)
    by (rewrite length_append; reflexivity).
  assert (Hfree : dollarFree (heading ++ Str.nl ++ line ++ Str.nl) = true)
    by (rewrite !dollarFree_append, Hh, Hl; reflexivity).
  assert (Htext : NotesManager.insertUnder heading line notes
                  = Str.take i notes ++ heading ++ Str.nl ++ line ++ Str.nl
                    ++ Str.drop (i + String.length heading + 1) notes).
  { unfold NotesManager.insertUnder, Str.replace. rewrite Hi.
    rewrite (replaceAt_dollarFree _ _ _ _ Hfree), Hlen, Nat.add_assoc.
    rewrite !append_assoc. reflexivity. }
  assert (Hsub : substring i (String.length (heading ++ Str.nl)) notes = heading ++ Str.nl)
    by (apply (index_correct1 0); exact Hi).
  split; [exact Htext|]. split.
  - pose proof (cut_at i (String.length (heading ++ Str.nl)) notes) as Hcut.
    rewrite Hsub, Hlen, Nat.add_assoc, append_assoc in Hcut. symmetry. exact Hcut.
  - rewrite Htext. unfold Str.indexOf in *.
    pose proof (index_stable _ _ (line ++ Str.nl ++ Str.drop (i + String.length heading + 1) notes)
                  _ Hi) as Hst.
    rewrite take_plus, Hsub, !append_assoc in Hst. exact Hst.
Qed.

(** X11. [addContext], [addCompleted] and [addBlocker] (the function
    [addUnder] at their headings) write the line [- [<time>] <item>]
    directly under the first occurrence of the heading and change nothing
    else, when the item and the time hold no dollar sign; when the notes
    have no such heading, they write the notes back as they are and the
    item is lost, without an error. *)
Theorem item_lands_under_the_heading (E : env) (heading item notes : string) (w : world) :
  notesFile w = Holds true true notes ->
  dollarFree heading = true ->
  dollarFree (now E (clock w)) = true ->
  dollarFree item = true ->
  let line := "- [" ++ now E (clock w) ++ "] " ++ item in
  exists w',
    NotesManager.addUnder E heading item w = (Ok tt, w')
    /\ match Str.indexOf (heading ++ Str.nl) notes with
       | Some i =>
           notes = Str.take i notes ++ heading ++ Str.nl
                   ++ Str.drop (i + String.length heading + 1) notes
           /\ notesFile w' = Holds true true
                (Str.take i notes ++ heading ++ Str.nl ++ line ++ Str.nl
                 ++ Str.drop (i + String.length heading + 1) notes)
       | None => notesFile w' = Holds true true notes
       end.
Proof.
  intros Hn Hh Hs Hi line.
  assert (Hd : durable (notesFile w) = true) by (rewrite Hn; reflexivity).
  exists (withLine E heading item w).
  split; [apply addUnder_durable; exact Hd|].
  unfold withLine, stampClock, loadedNotes. rewrite Hn. cbn [notesFile Fs.setNotesFile].
  destruct (Str.indexOf (heading ++ Str.nl) notes) as [i|] eqn:Hidx.
  - destruct (insertUnder_text heading (NotesManager.stamped (now E (clock w)) item) notes i
                Hidx Hh (dollarFree_stamped _ _ Hs Hi)) as (H1 & H2 & _).
    split; [exact H2|]. rewrite H1. reflexivity.
  - unfold NotesManager.insertUnder, Str.replace. rewrite Hidx. reflexivity.
Qed.

Lemma item_lands_under_the_heading_witness :
  let E := Scenario.scripted [] in
  let w := Scenario.planned E Scenario.twoSteps [] in
  exists notes w',
    notesFile w = Holds true true notes
    /\ dollarFree "## Blockers" = true
    /\ dollarFree (now E (clock w)) = true
    /\ dollarFree "disk full" = true
    /\ NotesManager.addBlocker E "disk full" w = (Ok tt, w')
    /\ Str.includes (Scenario.notesText w')
         ("## Blockers" ++ Str.nl ++ "- [T1] disk full" ++ Str.nl ++ "None") = true.
Proof.
  intros E w.
  assert (Hn : notesFile w = Holds true true (Scenario.notesText w)) by (vm_compute; reflexivity).
  destruct (item_lands_under_the_heading E "## Blockers" "disk full" (Scenario.notesText w) w
              Hn eq_refl eq_refl eq_refl) as (w' & Hrun & Hfile).
  exists (Scenario.notesText w), w'.
  split; [exact Hn|]. do 3 (split; [reflexivity|]). split; [exact Hrun|].
  assert (Hidx : Str.indexOf ("## Blockers" ++ Str.nl) (Scenario.notesText w) = Some 185)
    by (vm_compute; reflexivity).
  rewrite Hidx in Hfile. destruct Hfile as [_ Hfile].
  unfold Scenario.notesText at 1. rewrite Hfile. vm_compute. reflexivity.
Defined.

Lemma take_at (a b : string) (i : nat) :
  String.length a = i -> Str.take i (a ++ b) = a.
Proof. intros <-. apply take_append_exact. Qed.

Lemma drop_under (a h rest : string) (i : nat) :
  String.length a = i ->
  Str.drop (i + String.length h + 1) (a ++ h ++ Str.nl ++ rest) = rest.
Proof.
  intros <-.
  replace (String.length a + String.length h + 1)
    with (String.length ((a ++ h) ++ Str.nl)) by (rewrite !length_append; reflexivity).
  rewrite <- (append_assoc a h (Str.nl ++ rest)), <- (append_assoc (a ++ h) Str.nl rest).
  apply drop_append_exact.
Qed.

(** X12. Of two items added under the same heading, the later one is
    written above the earlier one: the lines under a heading are in the
    order newest first. *)
Theorem later_item_lands_above (E : env) (heading item1 item2 notes : string)
        (i : nat) (w : world) :
  notesFile w = Holds true true notes ->
  Str.indexOf (heading ++ Str.nl) notes = Some i ->
  dollarFree heading = true ->
  (forall n, dollarFree (now E n) = true) ->
  dollarFree item1 = true ->
  dollarFree item2 = true ->
  exists w',
    (NotesManager.addUnder E heading item1 ;;; NotesManager.addUnder E heading item2)%js w
    = (Ok tt, w')
    /\ notesFile w' = Holds true true
         (Str.take i notes ++ heading ++ Str.nl
          ++ ("- [" ++ now E (S (clock w)) ++ "] " ++ item2) ++ Str.nl
          ++ ("- [" ++ now E (clock w) ++ "] " ++ item1) ++ Str.nl
          ++ Str.drop (i + String.length heading + 1) notes).
Proof.
  intros Hn Hidx Hh Hs H1 H2.
  assert (Hd : durable (notesFile w) = true) by (rewrite Hn; reflexivity).
  rewrite (bind_Ok _ _ _ _ _ (addUnder_durable E heading item1 w Hd)).
  set (w1 := withLine E heading item1 w).
  set (line1 := NotesManager.stamped (now E (clock w)) item1).
  set (line2 := NotesManager.stamped (now E (S (clock w))) item2).
  destruct (insertUnder_text heading line1 notes i Hidx Hh (dollarFree_stamped _ _ (Hs _) H1))
    as (T1 & T2 & T3).
  assert (Hn1 : notesFile w1 = Holds true true (NotesManager.insertUnder heading line1 notes)).
  { unfold w1, withLine, stampClock, loadedNotes. rewrite Hn. reflexivity. }
  assert (Hc1 : clock w1 = S (clock w)).
  { unfold w1, withLine, stampClock. rewrite Hn. reflexivity. }
  assert (Hd1 : durable (notesFile w1) = true) by (rewrite Hn1; reflexivity).
  exists (withLine E heading item2 w1).
  split; [apply addUnder_durable; exact Hd1|].
  unfold withLine at 1, stampClock, loadedNotes. rewrite Hn1, Hc1. cbn [notesFile Fs.setNotesFile].
  fold line2.
  destruct (insertUnder_text heading line2 _ i T3 Hh (dollarFree_stamped _ _ (Hs _) H2))
    as (U1 & _ & _).
  pose proof (index_length _ _ _ Hidx) as Hlen. rewrite length_append in Hlen. cbn in Hlen.
  assert (Hti : String.length (Str.take i notes) = i) by (apply length_take_le; lia).
  rewrite U1, T1, (take_at _ _ i Hti), (drop_under _ _ _ i Hti). reflexivity.
Qed.

Lemma dollarFree_uint (d : Decimal.uint) : dollarFree (NilEmpty.string_of_uint d) = true.
Proof. induction d; simpl; auto. Qed.

Lemma dollarFree_tick (n : nat) : dollarFree (Scenario.tick n) = true.
Proof. unfold Scenario.tick, Str.ofNat. rewrite dollarFree_append, dollarFree_uint. reflexivity. Qed.

Lemma later_item_lands_above_witness :
  let E := Scenario.scripted [] in
  let w := Scenario.planned E Scenario.twoSteps [] in
  exists notes w',
    notesFile w = Holds true true notes
    /\ Str.indexOf ("## Context" ++ Str.nl) notes = Some 123
    /\ (forall n, dollarFree (now E n) = true)
    /\ (NotesManager.addContext E "first" ;;; NotesManager.addContext E "second")%js w
       = (Ok tt, w')
    /\ Str.includes (Scenario.notesText w')
         ("## Context" ++ Str.nl ++ "- [T2] second" ++ Str.nl ++ "- [T1] first" ++ Str.nl
          ++ "- Session started: T0") = true.
Proof.
  intros E w.
  assert (Hn : notesFile w = Holds true true (Scenario.notesText w)) by (vm_compute; reflexivity).
  assert (Hidx : Str.indexOf ("## Context" ++ Str.nl) (Scenario.notesText w) = Some 123)
    by (vm_compute; reflexivity).
  destruct (later_item_lands_above E "## Context" "first" "second" (Scenario.notesText w) 123 w
              Hn Hidx eq_refl dollarFree_tick eq_refl eq_refl) as (w' & Hrun & Hfile).
  exists (Scenario.notesText w), w'.
  split; [exact Hn|]. split; [exact Hidx|]. split; [exact dollarFree_tick|].
  split; [exact Hrun|].
  unfold Scenario.notesText at 1. rewrite Hfile. vm_compute. reflexivity.
Defined.

(** X13. A doubled dollar sign in an item is written as one: the item
    is the replacement text of [String.prototype.replace], in which [$$]
    stands for a dollar sign.  So the note of [echo $$] reads [echo $]. *)
Theorem doubled_dollar_is_written_once (E : env) (heading a b notes : string)
        (i : nat) (w : world) :
  notesFile w = Holds true true notes ->
  Str.indexOf (heading ++ Str.nl) notes = Some i ->
  dollarFree heading = true ->
  dollarFree (now E (clock w)) = true ->
  dollarFree a = true ->
  dollarFree b = true ->
  exists w',
    NotesManager.addUnder E heading (a ++ "$$" ++ b) w = (Ok tt, w')
    /\ notesFile w' = Holds true true
         (Str.take i notes ++ heading ++ Str.nl
          ++ ("- [" ++ now E (clock w) ++ "] " ++ a ++ "$" ++ b) ++ Str.nl
          ++ Str.drop (i + String.length heading + 1) notes).
Proof.
  intros Hn Hidx Hh Hs Ha Hb.
  assert (Hd : durable (notesFile w) = true) by (rewrite Hn; reflexivity).
  exists (withLine E heading (a ++ "$$" ++ b) w).
  split; [apply addUnder_durable; exact Hd|].
  unfold withLine, stampClock, loadedNotes. rewrite Hn. cbn [notesFile Fs.setNotesFile].
  f_equal.
  unfold NotesManager.insertUnder, Str.replace. rewrite Hidx.
  unfold Str.replaceAt, NotesManager.stamped.
  replace (heading ++ Str.nl ++ ("- [" ++ now E (clock w) ++ "] " ++ a ++ "$$" ++ b) ++ Str.nl)
    with ((heading ++ Str.nl ++ "- [" ++ now E (clock w) ++ "] " ++ a) ++ "$$" ++ (b ++ Str.nl))
    by (rewrite !append_assoc; reflexivity).
  rewrite expand_doubled by (rewrite !dollarFree_append, Hh, Hs, Ha; reflexivity).
  rewrite expand_dollarFree by (rewrite dollarFree_append, Hb; reflexivity).
  rewrite length_append, Nat.add_assoc, !append_assoc. reflexivity.
Qed.

Lemma doubled_dollar_is_written_once_witness :
  let E := Scenario.scripted [] in
  let w := Scenario.planned E Scenario.twoSteps [] in
  exists notes w',
    notesFile w = Holds true true notes
    /\ Str.indexOf ("## Completed" ++ Str.nl) notes = Some 157
    /\ dollarFree (now E (clock w)) = true
    /\ NotesManager.addCompleted E ("Executed: echo " ++ "$$" ++ " > pid") w = (Ok tt, w')
    /\ Str.includes (Scenario.notesText w')
         ("## Completed" ++ Str.nl ++ "- [T1] Executed: echo $ > pid" ++ Str.nl) = true.
Proof.
  intros E w.
  assert (Hn : notesFile w = Holds true true (Scenario.notesText w)) by (vm_compute; reflexivity).
  assert (Hidx : Str.indexOf ("## Completed" ++ Str.nl) (Scenario.notesText w) = Some 157)
    by (vm_compute; reflexivity).
  destruct (doubled_dollar_is_written_once E "## Completed" "Executed: echo " " > pid"
              (Scenario.notesText w) 157 w Hn Hidx eq_refl eq_refl eq_refl eq_refl)
    as (w' & Hrun & Hfile).
  exists (Scenario.notesText w), w'.
  split; [exact Hn|]. split; [exact Hidx|]. split; [reflexivity|]. split; [exact Hrun|].
  unfold Scenario.notesText at 1. rewrite Hfile. vm_compute. reflexivity.
Defined.

(** *** Sections that are replaced *)

Lemma dollarFree_freeOf (s : string) : dollarFree s = freeOf "$" s.
Proof. induction s as [|c s IH]; simpl; [reflexivity | rewrite IH; reflexivity]. Qed.

Lemma freeOf_append (c : ascii) (a b : string) :
  freeOf c (a ++ b) = freeOf c a && freeOf c b.
Proof.
  induction a as [|d a IH]; simpl; [reflexivity|].
  rewrite IH. apply andb_assoc.
Qed.

Lemma freeOf_ofNat (c : ascii) (n : nat) :
  c = "$"%char \/ c = "#"%char \/ c = Str.LF -> freeOf c (Str.ofNat n) = true.
Proof.
  intros Hc. unfold Str.ofNat. generalize (Nat.to_uint n). intros d.
  destruct Hc as [-> | [-> | ->]]; induction d; simpl; auto.
Qed.

Lemma freeOf_planLine (c : ascii) (idx : nat) (st : step) :
  c = "$"%char \/ c = "#"%char \/ c = Str.LF ->
  freeOf c (stepDescription st) && freeOf c (reasoning st) = true ->
  freeOf c (NotesManager.planLine idx st) = true.
Proof.
  intros Hc H. apply andb_true_iff in H. destruct H as [Hd Hr].
  unfold NotesManager.planLine.
  rewrite !freeOf_append, (freeOf_ofNat c _ Hc), Hd.
  destruct (truthy (reasoning st)).
  - rewrite !freeOf_append, Hr. destruct Hc as [-> | [-> | ->]]; reflexivity.
  - destruct Hc as [-> | [-> | ->]]; reflexivity.
Qed.

Lemma freeOf_planText (c : ascii) (l : list step) (idx : nat) :
  c = "$"%char \/ c = "#"%char ->
  planFreeOf c l = true ->
  freeOf c (Str.join Str.nl (NotesManager.planLines idx l)) = true.
Proof.
  intros Hc. assert (Hc' : c = "$"%char \/ c = "#"%char \/ c = Str.LF) by tauto.
  revert idx. induction l as [|st l IH]; intros idx H; [reflexivity|].
  cbn [planFreeOf List.forallb] in H. apply andb_true_iff in H. destruct H as [Hst Hl].
  cbn [NotesManager.planLines]. unfold Str.join in *.
  destruct l as [|st2 l].
  - cbn. apply freeOf_planLine; assumption.
  - change (String.concat Str.nl (NotesManager.planLine idx st
                                    :: NotesManager.planLines (S idx) (st2 :: l)))
      with (NotesManager.planLine idx st ++ Str.nl
            ++ String.concat Str.nl (NotesManager.planLines (S idx) (st2 :: l))).
    rewrite !freeOf_append, (freeOf_planLine c idx st Hc' Hst), (IH (S idx) Hl).
    destruct Hc as [-> | ->]; reflexivity.
Qed.

Lemma drop_plus (a b : nat) (s : string) : Str.drop (a + b) s = Str.drop b (Str.drop a s).
Proof.
  revert s. induction a as [|a IH]; intros s; [reflexivity|].
  destruct s as [|c s]; simpl; [destruct b; reflexivity | apply IH].
Qed.

Lemma drop_takeWhile (p : ascii -> bool) (s : string) :
  Str.drop (String.length (Str.takeWhile p s)) s = Str.dropWhile p s.
Proof.
  induction s as [|c s IH]; simpl; [reflexivity|].
  destruct (p c); simpl; [exact IH | reflexivity].
Qed.

Lemma dropWhile_dropWhile (p : ascii -> bool) (s : string) :
  Str.dropWhile p (Str.dropWhile p s) = Str.dropWhile p s.
Proof.
  induction s as [|c s IH]; simpl; [reflexivity|].
  destruct (p c) eqn:Hp; [exact IH | simpl; rewrite Hp; reflexivity].
Qed.

Lemma dropWhile_free (a r : string) :
  freeOf "#" a = true ->
  Str.dropWhile (fun c => negb (Ascii.eqb c "#")) (a ++ r)
  = Str.dropWhile (fun c => negb (Ascii.eqb c "#")) r.
Proof.
  induction a as [|c a IH]; simpl; intros H; [reflexivity|].
  apply andb_true_iff in H. destruct H as [Hc Ha]. rewrite Hc. apply IH. exact Ha.
Qed.

(** The text that [replaceSection] gives when the heading is found: the
    heading and what follows it up to the next [#] are replaced. *)
Lemma replaceSection_text (s heading repl : string) (i : nat) :
  Str.indexOf heading s = Some i ->
  dollarFree repl = true ->
  Str.replaceSection s heading repl
  = Str.take i s ++ repl
    ++ Str.dropWhile (fun c => negb (Ascii.eqb c "#")) (Str.drop (i + String.length heading) s).
Proof.
  intros Hi Hr. unfold Str.replaceSection. rewrite Hi.
  rewrite (replaceAt_dollarFree _ _ _ _ Hr), Nat.add_assoc, drop_plus, drop_takeWhile.
  reflexivity.
Qed.

(** A section replaced twice is as replaced once, by the second text,
    when the first text holds no [#]. *)
Lemma replaceSection_twice (s heading t1 t2 : string) :
  dollarFree (heading ++ t1) = true ->
  dollarFree (heading ++ t2) = true ->
  freeOf "#" t1 = true ->
  Str.replaceSection (Str.replaceSection s heading (heading ++ t1)) heading (heading ++ t2)
  = Str.replaceSection s heading (heading ++ t2).
Proof.
  intros H1 H2 Hfree.
  destruct (Str.indexOf heading s) as [i|] eqn:Hi.
  2:{ unfold Str.replaceSection. rewrite Hi, Hi. reflexivity. }
  rewrite (replaceSection_text s heading (heading ++ t1) i Hi H1).
  rewrite (replaceSection_text s heading (heading ++ t2) i Hi H2).
  set (rest := Str.dropWhile _ (Str.drop (i + String.length heading) s)).
  pose proof (index_length _ _ _ Hi) as Hlen.
  assert (Hti : String.length (Str.take i s) = i) by (apply length_take_le; lia).
  assert (Hsub : substring i (String.length heading) s = heading)
    by (apply (index_correct1 0); exact Hi).
  assert (Hi1 : Str.indexOf heading (Str.take i s ++ (heading ++ t1) ++ rest) = Some i).
  { pose proof (index_stable _ _ (t1 ++ rest) _ Hi) as Hst.
    rewrite take_plus, Hsub, !append_assoc in Hst. rewrite !append_assoc. exact Hst. }
  rewrite (replaceSection_text _ heading (heading ++ t2) i Hi1 H2).
  rewrite (take_at _ _ i Hti). f_equal. f_equal.
  replace (Str.take i s ++ (heading ++ t1) ++ rest)
    with ((Str.take i s ++ heading) ++ t1 ++ rest) by (rewrite !append_assoc; reflexivity).
  replace (i + String.length heading) with (String.length (Str.take i s ++ heading))
    by (rewrite length_append, Hti; reflexivity).
  rewrite drop_append_exact, (dropWhile_free _ _ Hfree).
  unfold rest. apply dropWhile_dropWhile.
Qed.

(** X14. [updateCurrentTask] overwrites: after two calls the notes are as
    after the second call alone, and nothing of the first task is left,
    when the first task holds no [#] (the section that is replaced ends
    at the first [#]) and the tasks hold no dollar sign. *)
Theorem current_task_is_overwritten (E : env) (task1 task2 notes : string) (w : world) :
  notesFile w = Holds true true notes ->
  dollarFree task1 = true ->
  dollarFree task2 = true ->
  freeOf "#" task1 = true ->
  (NotesManager.updateCurrentTask E task1 ;;; NotesManager.updateCurrentTask E task2)%js w
  = NotesManager.updateCurrentTask E task2 w.
Proof.
  intros Hn H1 H2 Hfree.
  assert (Hrun : forall task text (w0 : world),
             notesFile w0 = Holds true true text ->
             NotesManager.updateCurrentTask E task w0
             = (Ok tt, Fs.setNotesFile
                         (Holds true true
                            (Str.replaceSection text ("## Current Task" ++ Str.nl)
                               ("## Current Task" ++ Str.nl ++ task ++ Str.nl ++ Str.nl))) w0)).
  { intros task text w0 H0. unfold NotesManager.updateCurrentTask.
    rewrite (bind_Ok _ _ _ _ _ (loadNotes_holds E w0 true text H0)).
    apply (saveNotes_holds w0 true text _ H0). }
  rewrite (bind_Ok _ _ _ _ _ (Hrun task1 notes w Hn)).
  rewrite (Hrun task2 _ (Fs.setNotesFile _ w) eq_refl), (Hrun task2 notes w Hn).
  f_equal. unfold Fs.setNotesFile. cbn [notesFile memoryFile clock agentCalls asked commands console].
  f_equal. f_equal.
  pose proof (replaceSection_twice notes ("## Current Task" ++ Str.nl)
                (task1 ++ Str.nl ++ Str.nl) (task2 ++ Str.nl ++ Str.nl)) as Htw.
  rewrite !append_assoc in Htw. apply Htw.
  - rewrite !dollarFree_append, H1. reflexivity.
  - rewrite !dollarFree_append, H2. reflexivity.
  - rewrite !freeOf_append, Hfree. reflexivity.
Qed.

Lemma current_task_is_overwritten_witness :
  let E := Scenario.scripted [] in
  let w := Scenario.planned E Scenario.twoSteps [] in
  exists notes w',
    notesFile w = Holds true true notes
    /\ (NotesManager.updateCurrentTask E "tidy the logs"
        ;;; NotesManager.updateCurrentTask E "ship it")%js w = (Ok tt, w')
    /\ NotesManager.updateCurrentTask E "ship it" w = (Ok tt, w')
    /\ Str.includes (Scenario.notesText w') "ship it" = true
    /\ Str.includes (Scenario.notesText w') "tidy" = false.
Proof.
  intros E w.
  assert (Hn : notesFile w = Holds true true (Scenario.notesText w)) by (vm_compute; reflexivity).
  pose proof (current_task_is_overwritten E "tidy the logs" "ship it" (Scenario.notesText w) w
                Hn eq_refl eq_refl eq_refl) as H.
  exists (Scenario.notesText w), (snd (NotesManager.updateCurrentTask E "ship it" w)).
  split; [exact Hn|].
  split; [rewrite H; vm_compute; reflexivity|].
  split; vm_compute; [reflexivity|]. split; reflexivity.
Defined.

(** X15. [setPlan] overwrites as well: after two calls the notes, and the
    text returned, are as after the second call alone, when the steps of
    the first plan hold no [#] and no step holds a dollar sign. *)
Theorem plan_is_overwritten (E : env) (plan1 plan2 : list step) (notes : string) (w : world) :
  notesFile w = Holds true true notes ->
  planFreeOf "$" plan1 = true ->
  planFreeOf "$" plan2 = true ->
  planFreeOf "#" plan1 = true ->
  (NotesManager.setPlan E plan1 ;;; NotesManager.setPlan E plan2)%js w
  = NotesManager.setPlan E plan2 w.
Proof.
  intros Hn H1 H2 Hfree.
  assert (Hrun : forall l text (w0 : world),
             notesFile w0 = Holds true true text ->
             NotesManager.setPlan E l w0
             = (Ok (Str.replaceSection text ("## Plan" ++ Str.nl)
                      ("## Plan" ++ Str.nl ++ Str.join Str.nl (NotesManager.planLines 0 l)
                       ++ Str.nl ++ Str.nl)),
                Fs.setNotesFile
                  (Holds true true
                     (Str.replaceSection text ("## Plan" ++ Str.nl)
                        ("## Plan" ++ Str.nl ++ Str.join Str.nl (NotesManager.planLines 0 l)
                         ++ Str.nl ++ Str.nl))) w0)).
  { intros l text w0 H0. unfold NotesManager.setPlan.
    rewrite (bind_Ok _ _ _ _ _ (loadNotes_holds E w0 true text H0)).
    rewrite (bind_Ok _ _ _ _ _ (saveNotes_holds w0 true text _ H0)). reflexivity. }
  rewrite (bind_Ok _ _ _ _ _ (Hrun plan1 notes w Hn)).
  rewrite (Hrun plan2 _ (Fs.setNotesFile _ w) eq_refl), (Hrun plan2 notes w Hn).
  pose proof (replaceSection_twice notes ("## Plan" ++ Str.nl)
                (Str.join Str.nl (NotesManager.planLines 0 plan1) ++ Str.nl ++ Str.nl)
                (Str.join Str.nl (NotesManager.planLines 0 plan2) ++ Str.nl ++ Str.nl)) as Htw.
  rewrite !append_assoc in Htw.
  unfold Fs.setNotesFile. cbn [notesFile memoryFile clock agentCalls asked commands console].
  rewrite Htw; [reflexivity| | |].
  - rewrite !dollarFree_append, (dollarFree_freeOf (Str.join _ _)),
      (freeOf_planText "$" plan1 0 (or_introl eq_refl) H1). reflexivity.
  - rewrite !dollarFree_append, (dollarFree_freeOf (Str.join _ _)),
      (freeOf_planText "$" plan2 0 (or_introl eq_refl) H2). reflexivity.
  - rewrite !freeOf_append, (freeOf_planText "#" plan1 0 (or_intror eq_refl) Hfree). reflexivity.
Qed.

Lemma plan_is_overwritten_witness :
  let E := Scenario.scripted [] in
  let w := Scenario.planned E [] [] in
  exists notes,
    notesFile w = Holds true true notes
    /\ planFreeOf "$" Scenario.threeSteps = true
    /\ planFreeOf "$" Scenario.twoSteps = true
    /\ planFreeOf "#" Scenario.threeSteps = true
    /\ (NotesManager.setPlan E Scenario.threeSteps ;;; NotesManager.setPlan E Scenario.twoSteps)%js w
       = NotesManager.setPlan E Scenario.twoSteps w
    /\ fst (NotesManager.setPlan E Scenario.twoSteps w)
       = Ok (notesWithPlan "T0" ["- [ ] 1. Install express package";
                                 "- [ ] 2. Configure express package settings"]).
Proof.
  intros E w.
  assert (Hn : notesFile w = Holds true true (Scenario.notesText w)) by (vm_compute; reflexivity).
  exists (Scenario.notesText w).
  split; [exact Hn|]. do 3 (split; [reflexivity|]).
  split; [|vm_compute; reflexivity].
  exact (plan_is_overwritten E Scenario.threeSteps Scenario.twoSteps (Scenario.notesText w) w
           Hn eq_refl eq_refl eq_refl).
Defined.

(** *** Lines *)

Lemma rev_onto_rev (s acc : string) : Str.rev_onto s acc = Str.rev s ++ acc.
Proof. unfold Str.rev. rewrite rev_onto_append. reflexivity. Qed.

Lemma rev_cons (c : ascii) (s : string) : Str.rev (String c s) = Str.rev s ++ String c "".
Proof. unfold Str.rev at 1. simpl. apply rev_onto_rev. Qed.

Lemma rev_append (a b : string) : Str.rev (a ++ b) = Str.rev b ++ Str.rev a.
Proof.
  induction a as [|c a IH]; simpl.
  - change (Str.rev "") with "". rewrite append_empty_r. reflexivity.
  - rewrite !rev_cons, IH, append_assoc. reflexivity.
Qed.

Lemma rev_involutive (s : string) : Str.rev (Str.rev s) = s.
Proof.
  induction s as [|c s IH]; [reflexivity|].
  rewrite rev_cons, rev_append, IH. reflexivity.
Qed.

Lemma dropWhile_append_stop (p : ascii -> bool) (x y : string) (c : ascii) :
  p c = false -> Str.dropWhile p (x ++ String c y) = Str.dropWhile p x ++ String c y.
Proof.
  intros Hc. induction x as [|d x IH]; simpl.
  - rewrite Hc. reflexivity.
  - destruct (p d); [exact IH | reflexivity].
Qed.

(** White space is stripped from the end up to the last other character. *)
Lemma stripEnd_after (a t : string) (c : ascii) :
  Str.isSpace c = false ->
  Str.rev (Str.dropWhile Str.isSpace (Str.rev (a ++ String c t)))
  = a ++ String c (Str.rev (Str.dropWhile Str.isSpace (Str.rev t))).
Proof.
  intros Hc.
  rewrite rev_append, rev_cons, append_assoc.
  change (String c "" ++ Str.rev a) with (String c (Str.rev a)).
  rewrite (dropWhile_append_stop _ _ _ _ Hc).
  rewrite rev_append, rev_cons, rev_involutive, append_assoc. reflexivity.
Qed.

Lemma split_from_append (a b cur : string) :
  Str.split_from Str.LF (a ++ String Str.LF b) cur
  = (Str.split_from Str.LF a cur ++ Str.split_from Str.LF b "")%list.
Proof.
  revert cur. induction a as [|c a IH]; intros cur; simpl.
  - reflexivity.
  - destruct (Ascii.eqb c Str.LF); [rewrite IH; reflexivity | apply IH].
Qed.

Lemma split_append (a b : string) :
  Str.split Str.LF (a ++ Str.nl ++ b) = (Str.split Str.LF a ++ Str.split Str.LF b)%list.
Proof. apply split_from_append. Qed.

Lemma split_from_free (s cur : string) :
  freeOf Str.LF s = true -> Str.split_from Str.LF s cur = [Str.rev cur ++ s].
Proof.
  revert cur. induction s as [|c s IH]; intros cur H; simpl in *.
  - rewrite append_empty_r. reflexivity.
  - apply andb_true_iff in H. destruct H as [Hc Hs]. apply negb_true_iff in Hc.
    rewrite Hc, (IH _ Hs), rev_cons, append_assoc. reflexivity.
Qed.

Lemma join_cons (x y : string) (l : list string) :
  Str.join Str.nl (x :: y :: l) = x ++ Str.nl ++ Str.join Str.nl (y :: l).
Proof. reflexivity. Qed.

Lemma join_app (X Y : list string) :
  X <> [] -> Y <> [] ->
  Str.join Str.nl (X ++ Y) = Str.join Str.nl X ++ Str.nl ++ Str.join Str.nl Y.
Proof.
  intros HX HY. induction X as [|x X IH]; [contradiction|].
  destruct X as [|x2 X].
  - destruct Y as [|y Y]; [contradiction|]. reflexivity.
  - change ((x :: x2 :: X) ++ Y)%list with (x :: x2 :: (X ++ Y))%list.
    rewrite !join_cons. change (x2 :: (X ++ Y))%list with ((x2 :: X) ++ Y)%list.
    rewrite IH by discriminate. rewrite !append_assoc. reflexivity.
Qed.

(** [lines.join('\n').split('\n')] is [lines], when no line holds a line
    feed and there is a line. *)
Lemma split_join (lines : list string) :
  lines <> [] ->
  List.forallb (freeOf Str.LF) lines = true ->
  Str.split Str.LF (Str.join Str.nl lines) = lines.
Proof.
  intros Hne H. induction lines as [|x l IH]; [contradiction|].
  cbn [List.forallb] in H. apply andb_true_iff in H. destruct H as [Hx Hl].
  destruct l as [|y l].
  - unfold Str.split. cbn. apply (split_from_free x "" Hx).
  - rewrite join_cons, split_append, IH by (assumption || discriminate).
    unfold Str.split. rewrite (split_from_free x "" Hx). reflexivity.
Qed.

(** *** The plan, set and completed *)

(** What [completeStep] finds in a checklist line that [setPlan] wrote. *)
Lemma open_line_checks (rest : string) :
  Str.startsWith ("- [ ] " ++ rest) "## Plan" = false
  /\ Str.startsWith ("- [ ] " ++ rest) "##" = false
  /\ Str.startsWith (Str.trim ("- [ ] " ++ rest)) "- [" = true
  /\ Str.replace ("- [ ] " ++ rest) "- [ ]" "- [x]" = "- [x] " ++ rest.
Proof.
  split; [reflexivity|]. split; [reflexivity|]. split.
  - unfold Str.trim, Str.startsWith.
    change (Str.dropWhile Str.isSpace ("- [ ] " ++ rest)) with ("- " ++ String "[" (" ] " ++ rest)).
    rewrite stripEnd_after by reflexivity.
    apply (prefix_append "- [").
  - unfold Str.replace, Str.indexOf.
    rewrite (index_here "- [ ]" ("- [ ] " ++ rest) (prefix_append "- [ ]" (" " ++ rest))).
    rewrite replaceAt_dollarFree by reflexivity. reflexivity.
Qed.

Lemma completeLines_plan (k c : nat) (l : list step) (R : list string) :
  NotesManager.completeLines k true c (NotesManager.planLines c l ++ R)%list
  = (planLinesWith k c l ++ NotesManager.completeLines k true (c + List.length l) R)%list.
Proof.
  revert c. induction l as [|st l IH]; intros c.
  - cbn [NotesManager.planLines planLinesWith List.app List.length]. rewrite Nat.add_0_r.
    reflexivity.
  - cbn [NotesManager.planLines planLinesWith List.app List.length].
    cbn [NotesManager.completeLines].
    unfold NotesManager.planLine, checkedLine.
    set (rest := Str.ofNat (c + 1) ++ ". " ++ stepDescription st ++
                 (if truthy (reasoning st) then " (" ++ reasoning st ++ ")" else "")).
    destruct (open_line_checks rest) as (H1 & H2 & H3 & H4).
    rewrite H1, H2, H3, H4. cbn [andb].
    rewrite IH, Nat.add_succ_r. reflexivity.
Qed.

Lemma freeOf_planLines (l : list step) (idx : nat) :
  planFreeOf Str.LF l = true ->
  List.forallb (freeOf Str.LF) (NotesManager.planLines idx l) = true.
Proof.
  revert idx. induction l as [|st l IH]; intros idx H; [reflexivity|].
  cbn [planFreeOf List.forallb NotesManager.planLines] in *.
  apply andb_true_iff in H. destruct H as [Hst Hl].
  rewrite (freeOf_planLine Str.LF idx st (or_intror (or_intror eq_refl)) Hst).
  apply (IH _ Hl).
Qed.

Lemma planLines_cons (idx : nat) (l : list step) :
  l <> [] -> NotesManager.planLines idx l <> [] /\ forall k, planLinesWith k idx l <> [].
Proof. destruct l; [contradiction|]. intros _. split; [|intros k]; discriminate. Qed.

(** The template in which a plan is set. *)
Lemma template_with_plan (stamp planText : string) :
  dollarFree planText = true ->
  Str.replaceSection (NotesManager.template stamp) ("## Plan" ++ Str.nl)
    ("## Plan" ++ Str.nl ++ planText ++ Str.nl ++ Str.nl)
  = "# Agent Notes" ++ Str.nl ++ Str.nl ++ "## Current Task" ++ Str.nl ++ "None" ++ Str.nl ++
    Str.nl ++ "## Plan" ++ Str.nl ++ planText ++ Str.nl ++ Str.nl ++
    "## Context" ++ Str.nl ++ "- Session started: " ++ stamp ++ Str.nl ++ Str.nl ++
    "## Completed" ++ Str.nl ++ "- Nothing yet" ++ Str.nl ++ Str.nl ++
    "## Blockers" ++ Str.nl ++ "None" ++ Str.nl.
Proof.
  intros Hp.
  assert (Hi : Str.indexOf ("## Plan" ++ Str.nl) (NotesManager.template stamp) = Some 37)
    by reflexivity.
  rewrite (replaceSection_text _ _ _ 37 Hi)
    by (rewrite !dollarFree_append, Hp; reflexivity).
  change (Str.take 37 (NotesManager.template stamp))
    with ("# Agent Notes" ++ Str.nl ++ Str.nl ++ "## Current Task" ++ Str.nl ++ "None"
          ++ Str.nl ++ Str.nl).
  change (Str.dropWhile (fun c => negb (Ascii.eqb c "#"))
            (Str.drop (37 + String.length ("## Plan" ++ Str.nl)) (NotesManager.template stamp)))
    with ("## Context" ++ Str.nl ++ "- Session started: " ++ stamp ++ Str.nl ++ Str.nl ++
          "## Completed" ++ Str.nl ++ "- Nothing yet" ++ Str.nl ++ Str.nl ++
          "## Blockers" ++ Str.nl ++ "None" ++ Str.nl).
  rewrite !append_assoc. reflexivity.
Qed.

Lemma saveNotes_fresh (w : world) (content : string) :
  notesFile w = Absent ->
  NotesManager.saveNotes content w = (Ok tt, Fs.setNotesFile (Holds true true content) w).
Proof.
  intros H. unfold NotesManager.saveNotes, Fs.writeNotesFile. rewrite H. reflexivity.
Qed.

(** The lines of the notes in which the step [k] of the plan is checked. *)
Lemma completeLines_notesWithPlan (stamp : string) (l : list step) (k : nat) :
  planFreeOf Str.LF l = true ->
  1 <= k <= List.length l ->
  Str.join Str.nl
    (NotesManager.completeLines k false 0
       (Str.split Str.LF (notesWithPlan stamp (NotesManager.planLines 0 l))))
  = notesWithPlan stamp (planLinesWith k 0 l).
Proof.
  intros Hfree Hk.
  assert (Hne : l <> []) by (destruct l; [simpl in Hk; lia | discriminate]).
  destruct (planLines_cons 0 l Hne) as [Hp Hpw].
  set (A := "# Agent Notes" ++ Str.nl ++ Str.nl ++ "## Current Task" ++ Str.nl ++ "None"
            ++ Str.nl ++ Str.nl ++ "## Plan").
  set (B := Str.nl ++ "## Context" ++ Str.nl ++ "- Session started: " ++ stamp ++ Str.nl ++
            Str.nl ++ "## Completed" ++ Str.nl ++ "- Nothing yet" ++ Str.nl ++ Str.nl ++
            "## Blockers" ++ Str.nl ++ "None" ++ Str.nl).
  assert (Hshape : forall lines,
             notesWithPlan stamp lines = A ++ Str.nl ++ Str.join Str.nl lines ++ Str.nl ++ B)
    by (intros lines; reflexivity).
  rewrite !Hshape, !split_append, (split_join _ Hp (freeOf_planLines l 0 Hfree)).
  change (Str.split Str.LF A)
    with ["# Agent Notes"; ""; "## Current Task"; "None"; ""; "## Plan"].
  set (R := Str.split Str.LF B).
  change (NotesManager.completeLines k false 0
            (["# Agent Notes"; ""; "## Current Task"; "None"; ""; "## Plan"]
             ++ NotesManager.planLines 0 l ++ R)%list)
    with (["# Agent Notes"; ""; "## Current Task"; "None"; ""; "## Plan"]
          ++ NotesManager.completeLines k true 0 (NotesManager.planLines 0 l ++ R))%list.
  rewrite completeLines_plan, (completeLines_past k R true (0 + List.length l)) by (simpl; lia).
  assert (HR : R <> []).
  { unfold R, Str.split. destruct (split_from_cons Str.LF B "") as (x & r & ->). discriminate. }
  rewrite join_app; [|discriminate|].
  2:{ intros Hnil. apply app_eq_nil in Hnil. destruct Hnil as [Hnil _]. exact (Hpw k Hnil). }
  rewrite join_app by (auto using Hpw).
  unfold R. rewrite join_split. reflexivity.
Qed.

(** X16. On a fresh notes file, [setPlan] writes the template with one
    open checklist line per step, and [completeStep k], for a step k of the
    plan, then checks the line of the step k and changes nothing else, when
    no step holds a line feed or a dollar sign. *)
Theorem plan_step_is_checked_in_place (E : env) (l : list step) (k : nat) (w : world) :
  notesFile w = Absent ->
  planFreeOf "$" l = true ->
  planFreeOf Str.LF l = true ->
  1 <= k <= List.length l ->
  let stamp := now E (clock w) in
  exists w1 w2,
    NotesManager.setPlan E l w = (Ok (notesWithPlan stamp (NotesManager.planLines 0 l)), w1)
    /\ NotesManager.completeStep E k w1 = (Ok (notesWithPlan stamp (planLinesWith k 0 l)), w2)
    /\ notesFile w2 = Holds true true (notesWithPlan stamp (planLinesWith k 0 l)).
Proof.
  intros Hn Hd Hf Hk stamp.
  destruct (loadNotes_run E w) as (w0 & Hload & _ & Hn0 & _).
  assert (Hl : loadedNotes E w = NotesManager.template stamp)
    by (unfold loadedNotes; rewrite Hn; reflexivity).
  rewrite Hl in Hload. rewrite Hn in Hn0.
  set (text1 := notesWithPlan stamp (NotesManager.planLines 0 l)).
  assert (Hset : NotesManager.setPlan E l w
                 = (Ok text1, Fs.setNotesFile (Holds true true text1) w0)).
  { unfold NotesManager.setPlan. rewrite (bind_Ok _ _ _ _ _ Hload).
    rewrite template_with_plan
      by (rewrite dollarFree_freeOf; apply freeOf_planText; [left; reflexivity | exact Hd]).
    fold (notesWithPlan stamp (NotesManager.planLines 0 l)). fold text1.
    rewrite (bind_Ok _ _ _ _ _ (saveNotes_fresh w0 text1 Hn0)). reflexivity. }
  set (w1 := Fs.setNotesFile (Holds true true text1) w0) in *.
  assert (Hn1 : notesFile w1 = Holds true true text1) by reflexivity.
  set (text2 := notesWithPlan stamp (planLinesWith k 0 l)).
  exists w1, (Fs.setNotesFile (Holds true true text2) w1).
  split; [exact Hset|]. split; [|reflexivity].
  unfold NotesManager.completeStep.
  rewrite (bind_Ok _ _ _ _ _ (loadNotes_holds E w1 true text1 Hn1)).
  unfold text1. rewrite (completeLines_notesWithPlan stamp l k Hf Hk). fold text2.
  rewrite (bind_Ok _ _ _ _ _ (saveNotes_holds w1 true text1 text2 Hn1)). reflexivity.
Qed.

Lemma plan_step_is_checked_in_place_witness :
  let E := Scenario.scripted [] in
  exists w1 w2,
    notesFile Scenario.blank = Absent
    /\ planFreeOf "$" Scenario.threeSteps = true
    /\ planFreeOf Str.LF Scenario.threeSteps = true
    /\ 1 <= 2 <= List.length Scenario.threeSteps
    /\ NotesManager.setPlan E Scenario.threeSteps Scenario.blank
       = (Ok (notesWithPlan "T0" ["- [ ] 1. Check package.json file";
                                  "- [ ] 2. List JavaScript files";
                                  "- [ ] 3. Run tests"]), w1)
    /\ NotesManager.completeStep E 2 w1
       = (Ok (notesWithPlan "T0" ["- [ ] 1. Check package.json file";
                                  "- [x] 2. List JavaScript files";
                                  "- [ ] 3. Run tests"]), w2).
Proof.
  intros E.
  assert (Hk : 1 <= 2 <= List.length Scenario.threeSteps) by (cbn; lia).
  destruct (plan_step_is_checked_in_place E Scenario.threeSteps 2 Scenario.blank
              eq_refl eq_refl eq_refl Hk) as (w1 & w2 & H1 & H2 & _).
  exists w1, w2.
  split; [reflexivity|]. do 2 (split; [reflexivity|]). split; [exact Hk|].
  split; [exact H1 | exact H2].
Defined.

(* ================================================================== *)
(** ** What orchestrate returns *)

Lemma ensures_bind_with {A B} (m : M A) (k : A -> M B) (P : A -> Prop) (Q : B -> Prop) :
  ensures m P -> (forall a, P a -> ensures (k a) Q) -> ensures (Js.bind m k) Q.
Proof.
  intros Hm Hk w b w' Hr. apply bind_inv_Ok in Hr. destruct Hr as (a & w1 & Ha & Hb).
  exact (Hk a (Hm _ _ _ Ha) w1 b w' Hb).
Qed.

Lemma ensures_throw {A} (e : jsError) (Q : A -> Prop) : ensures (Js.throw e) Q.
Proof. intros w a w' H. discriminate. Qed.

Lemma terminalBlock_keeps_responses (E : env) (O : options) (p : option plan) (r : response)
      (st : AgentOrchestrator.loopState) :
  ensures (AgentOrchestrator.terminalBlock E O p r st)
          (fun f => AgentOrchestrator.lsResponses (snd (flowState f))
                    = AgentOrchestrator.lsResponses st).
Proof.
  unfold AgentOrchestrator.terminalBlock.
  destruct (String.eqb (choice r) "terminalCommand").
  - apply ensures_bind. intros t. destruct (executed t).
    + repeat (apply ensures_bind; intros). apply ensures_ret. reflexivity.
    + apply ensures_bind; intros.
      destruct (Nat.leb _ _).
      * apply ensures_bind; intros. apply ensures_ret. reflexivity.
      * apply ensures_ret. reflexivity.
  - apply ensures_ret. reflexivity.
Qed.

(** One pass adds one response to the list. *)
Lemma turn_pushes (E : env) (O : options) (q : string) (p : option plan)
      (st : AgentOrchestrator.loopState) :
  ensures (AgentOrchestrator.turn E O q p st)
          (fun v => List.length (AgentOrchestrator.lsResponses (snd v))
                    = S (List.length (AgentOrchestrator.lsResponses st))).
Proof.
  unfold AgentOrchestrator.turn.
  apply ensures_bind. intros _. apply ensures_bind. intros r.
  eapply ensures_bind_with; [apply terminalBlock_keeps_responses|].
  intros f Hf. cbn [AgentOrchestrator.lsResponses] in Hf.
  destruct f as [[r' st'] | [r' st']]; cbn [flowState snd] in Hf.
  - repeat (apply ensures_bind; intros). apply ensures_ret.
    cbn [snd AgentOrchestrator.lsResponses AgentOrchestrator.pushResponse].
    rewrite length_app, Hf. simpl. lia.
  - apply ensures_ret.
    cbn [snd AgentOrchestrator.lsResponses AgentOrchestrator.pushResponse].
    rewrite length_app, Hf. simpl. lia.
Qed.

(** The loop counts its passes: one response and one call to the base
    agent per pass, and no pass beyond the fifth. *)
Lemma iterate_counts (E : env) (O : options) (q : string) (p : option plan) :
  forall (fuel : nat) (st st' : AgentOrchestrator.loopState) (w w' : world),
    AgentOrchestrator.iterate E fuel O q p st w = (Ok st', w') ->
    List.length (AgentOrchestrator.lsResponses st) = AgentOrchestrator.lsIteration st ->
    AgentOrchestrator.lsIteration st < AgentOrchestrator.MAX_CONTINUE_ITERATIONS ->
    List.length (AgentOrchestrator.lsResponses st') = AgentOrchestrator.lsIteration st'
    /\ AgentOrchestrator.lsIteration st < AgentOrchestrator.lsIteration st'
    /\ AgentOrchestrator.lsIteration st' <= AgentOrchestrator.MAX_CONTINUE_ITERATIONS
    /\ List.length (turnsOf w') + AgentOrchestrator.lsIteration st
       = List.length (turnsOf w) + AgentOrchestrator.lsIteration st'.
Proof.
  induction fuel as [|k IH]; intros st st' w w' Hrun Hlen Hcap.
  - discriminate.
  - cbn [AgentOrchestrator.iterate] in Hrun.
    apply bind_inv_Ok in Hrun. destruct Hrun as ([again st1] & w1 & Hturn & Hrest).
    pose proof (turn_spec E O q p st w) as Ht. cbv zeta in Ht. rewrite Hturn in Ht.
    destruct Ht as (T & Hi & Hc & _).
    pose proof (turn_pushes E O q p st _ _ _ Hturn) as Hp. cbn [snd] in Hp.
    cbn [fst snd] in Hrest. destruct again.
    + specialize (Hc eq_refl).
      destruct (IH st1 st' w1 w' Hrest ltac:(lia) ltac:(lia)) as (I1 & I2 & I3 & I4).
      rewrite T in I4. simpl in I4. repeat split; lia.
    + inversion Hrest. subst. rewrite T. simpl. repeat split; lia.
Qed.

Lemma analyse_gates (E : env) (O : options) (q : string) :
  ensures (AgentOrchestrator.analyse E O q)
          (fun lp =>
             (snd lp <> None ->
              exists l, fst lp = Some l /\ AgentOrchestrator.isHighPriority l = true)
             /\ (fst lp <> None ->
                 skipLandscape O = false /\ AgentOrchestrator.shouldUseLandscape q = true)).
Proof.
  unfold AgentOrchestrator.analyse.
  destruct (negb (skipLandscape O) && AgentOrchestrator.shouldUseLandscape q) eqn:Hgate.
  - apply andb_true_iff in Hgate. destruct Hgate as [Hs Hu]. apply negb_true_iff in Hs.
    apply ensures_bind. intros l.
    destruct (AgentOrchestrator.isHighPriority l) eqn:Hh.
    + repeat (apply ensures_bind; intros). apply ensures_ret. cbn [fst snd].
      split; [intros _; exists l; auto | intros _; auto].
    + apply ensures_ret. cbn [fst snd]. split; [intros H; contradiction | intros _; auto].
  - apply ensures_ret. cbn [fst snd]. split; intros H; contradiction.
Qed.

Lemma orchestrate_Ok (E : env) (fuel : nat) (q : string) (O : options) (w w' : world)
      (r : AgentOrchestrator.orchestration) :
  AgentOrchestrator.orchestrate E fuel q O w = (Ok r, w') ->
  AgentOrchestrator.tryBlock E fuel q O w = (Ok r, w').
Proof.
  unfold AgentOrchestrator.orchestrate, Js.try_catch.
  destruct (AgentOrchestrator.tryBlock E fuel q O w) as [[a|e|] w1]; intros H.
  - exact H.
  - apply bind_inv_Ok in H. destruct H as (u & w2 & _ & H). discriminate.
  - discriminate.
Qed.

(** The landscape and the plan that [orchestrate] resolves to. *)
Lemma orchestrate_gates (E : env) (fuel : nat) (q : string) (O : options)
      (w : world) (r : AgentOrchestrator.orchestration) :
  fst (AgentOrchestrator.orchestrate E fuel q O w) = Ok r ->
  (AgentOrchestrator.orPlan r <> None ->
   exists l, AgentOrchestrator.orLandscape r = Some l
             /\ AgentOrchestrator.isHighPriority l = true)
  /\ (AgentOrchestrator.orLandscape r <> None ->
      skipLandscape O = false /\ AgentOrchestrator.shouldUseLandscape q = true).
Proof.
  intros Hrun.
  assert (Hok : AgentOrchestrator.orchestrate E fuel q O w
                = (Ok r, snd (AgentOrchestrator.orchestrate E fuel q O w)))
    by (rewrite <- Hrun; apply surjective_pairing).
  apply orchestrate_Ok in Hok. unfold AgentOrchestrator.tryBlock in Hok.
  apply bind_inv_Ok in Hok. destruct Hok as (notes & w1 & H1 & Hok).
  apply bind_inv_Ok in Hok. destruct Hok as (mem & w2 & H2 & Hok).
  apply bind_inv_Ok in Hok. destruct Hok as (lp & w3 & H3 & Hok).
  apply bind_inv_Ok in Hok. destruct Hok as (st & w4 & H4 & Hok).
  inversion Hok. subst r. cbn [AgentOrchestrator.orPlan AgentOrchestrator.orLandscape].
  exact (analyse_gates E O q _ _ _ H3).
Qed.

(** X17. When [orchestrate] resolves, its [success] is true (a failure is
    always a rejection), it holds one response per pass of the loop, the
    passes are between 1 and 5 and each made one call to the base agent;
    it holds a plan only with a landscape of priority high or critical,
    and a landscape only when the analysis was not skipped and the query
    counts as complex. *)
Theorem orchestrate_counts_its_passes (E : env) (fuel : nat) (q : string) (O : options)
        (w : world) (r : AgentOrchestrator.orchestration) :
  fst (AgentOrchestrator.orchestrate E fuel q O w) = Ok r ->
  let w' := snd (AgentOrchestrator.orchestrate E fuel q O w) in
  AgentOrchestrator.success r = true
  /\ List.length (AgentOrchestrator.responses r) = AgentOrchestrator.iterations r
  /\ 1 <= AgentOrchestrator.iterations r <= 5
  /\ List.length (turnsOf w') = List.length (turnsOf w) + AgentOrchestrator.iterations r
  /\ (AgentOrchestrator.orPlan r <> None ->
      exists l, AgentOrchestrator.orLandscape r = Some l
                /\ AgentOrchestrator.isHighPriority l = true)
  /\ (AgentOrchestrator.orLandscape r <> None ->
      skipLandscape O = false /\ AgentOrchestrator.shouldUseLandscape q = true).
Proof.
  intros Hrun w'.
  assert (Hok : AgentOrchestrator.orchestrate E fuel q O w = (Ok r, w'))
    by (unfold w'; rewrite <- Hrun; apply surjective_pairing).
  clearbody w'. clear Hrun.
  apply orchestrate_Ok in Hok. unfold AgentOrchestrator.tryBlock in Hok.
  apply bind_inv_Ok in Hok. destruct Hok as (notes & w1 & H1 & Hok).
  apply bind_inv_Ok in Hok. destruct Hok as (mem & w2 & H2 & Hok).
  apply bind_inv_Ok in Hok. destruct Hok as (lp & w3 & H3 & Hok).
  apply bind_inv_Ok in Hok. destruct Hok as (st & w4 & H4 & Hok).
  inversion Hok. subst. clear Hok.
  pose proof (proj2 (quiet_loadNotes E w)) as T1. rewrite H1 in T1.
  pose proof (proj2 (quiet_getMemoryContextString w1)) as T2. rewrite H2 in T2.
  pose proof (proj2 (quiet_analyse E O q w2)) as T3. rewrite H3 in T3.
  cbn [snd] in T1, T2, T3.
  destruct (iterate_counts E O q (snd lp) fuel _ _ _ _ H4 eq_refl)
    as (I1 & I2 & I3 & I4).
  { cbn. unfold AgentOrchestrator.MAX_CONTINUE_ITERATIONS. lia. }
  cbn [AgentOrchestrator.lsIteration AgentOrchestrator.lsResponses] in I2, I4.
  unfold AgentOrchestrator.MAX_CONTINUE_ITERATIONS in I3.
  destruct (analyse_gates E O q _ _ _ H3) as [G1 G2].
  cbn [AgentOrchestrator.success AgentOrchestrator.responses AgentOrchestrator.iterations
       AgentOrchestrator.orPlan AgentOrchestrator.orLandscape].
  split; [reflexivity|]. split; [exact I1|]. split; [lia|].
  split; [rewrite T3, T2, T1 in I4; lia|]. split; [exact G1 | exact G2].
Qed.

Lemma orchestrate_counts_its_passes_witness :
  let E := Scenario.twoPasses in
  let run := AgentOrchestrator.orchestrate E 5 "write it" (Scenario.simple None) Scenario.blank in
  exists r,
    fst run = Ok r
    /\ AgentOrchestrator.success r = true
    /\ List.length (AgentOrchestrator.responses r) = 2
    /\ AgentOrchestrator.iterations r = 2
    /\ List.length (turnsOf (snd run)) = 2.
Proof.
  intros E run.
  assert (Hr : exists r, fst run = Ok r /\ AgentOrchestrator.iterations r = 2).
  { eexists. split; vm_compute; reflexivity. }
  destruct Hr as (r & Hr & Hi).
  destruct (orchestrate_counts_its_passes E 5 "write it" (Scenario.simple None) Scenario.blank
              r Hr) as (H1 & H2 & _ & H4 & _).
  exists r. split; [exact Hr|]. split; [exact H1|].
  split; [rewrite H2; exact Hi|]. split; [exact Hi|].
  fold run in H4. rewrite H4, Hi. reflexivity.
Defined.

(* ================================================================== *)
(** ** The commands run and the approvals asked *)

Lemma calm_ret {A} (a : A) : calm (Js.ret a).
Proof. intros w. split; reflexivity. Qed.

Lemma calm_throw {A} (e : jsError) : calm (@Js.throw A e).
Proof. intros w. split; reflexivity. Qed.

Lemma calm_lift {A} (c : completion A) : calm (Js.lift c).
Proof. destruct c; [apply calm_ret | apply calm_throw]. Qed.

Lemma calm_bind {A B} (m : M A) (k : A -> M B) :
  calm m -> (forall a, calm (k a)) -> calm (Js.bind m k).
Proof.
  intros Hm Hk w. unfold Js.bind. destruct (Hm w) as [H1 H2].
  destruct (m w) as [[a|e|] w1]; cbn [snd] in *.
  - destruct (Hk a w1) as [K1 K2]. split; congruence.
  - split; assumption.
  - split; assumption.
Qed.

Lemma calm_try {A} (m : M A) (h : jsError -> M A) :
  calm m -> (forall e, calm (h e)) -> calm (Js.try_catch m h).
Proof.
  intros Hm Hh w. unfold Js.try_catch. destruct (Hm w) as [H1 H2].
  destruct (m w) as [[a|e|] w1]; cbn [snd] in *.
  - split; assumption.
  - destruct (Hh e w1) as [K1 K2]. split; congruence.
  - split; assumption.
Qed.

Lemma calm_forEach {A} (l : list A) (f : A -> M unit) :
  (forall a, calm (f a)) -> calm (Js.forEach l f).
Proof.
  intros Hf. induction l as [|a l IH]; simpl.
  - apply calm_ret.
  - apply calm_bind; auto.
Qed.

Lemma calm_after {A} (m : M A) (w : world) (f : world -> world) :
  (asked (f w) = asked w /\ commands (f w) = commands w) ->
  calm m ->
  asked (snd (m (f w))) = asked w /\ commands (snd (m (f w))) = commands w.
Proof. intros [F1 F2] Hm. destruct (Hm (f w)) as [H1 H2]. split; congruence. Qed.

Lemma calm_readNotesFile : calm Fs.readNotesFile.
Proof. intros w. unfold Fs.readNotesFile. apply calm_lift. Qed.

Lemma calm_writeNotesFile (content : string) : calm (Fs.writeNotesFile content).
Proof.
  intros w. unfold Fs.writeNotesFile.
  destruct (Fs.writeFile content (notesFile w)) as [c f].
  apply (calm_after (Js.lift c) w (Fs.setNotesFile f)); [split; reflexivity | apply calm_lift].
Qed.

Lemma calm_readMemoryFile : calm Fs.readMemoryFile.
Proof. intros w. unfold Fs.readMemoryFile. apply calm_lift. Qed.

Lemma calm_writeMemoryFile (data : jsonText) : calm (Fs.writeMemoryFile data).
Proof.
  intros w. unfold Fs.writeMemoryFile.
  destruct (Fs.writeFile data (memoryFile w)) as [c f].
  apply (calm_after (Js.lift c) w (Fs.setMemoryFile f)); [split; reflexivity | apply calm_lift].
Qed.

Lemma calm_JSON_parse (data : jsonText) : calm (JSON_parse data).
Proof. destruct data; [apply calm_throw | apply calm_ret]. Qed.

Lemma calm_isoNow (E : env) : calm (isoNow E).
Proof. intros w. split; reflexivity. Qed.

Lemma calm_consoleError (line : string) : calm (consoleError line).
Proof. intros w. split; reflexivity. Qed.

Lemma calm_logged {A} (c : agentCall) (k : nat -> M A) :
  (forall n, calm (k n)) -> calm (Js.bind (logCall c) k).
Proof.
  intros Hk w. unfold Js.bind, logCall.
  match goal with |- context [k ?n ?w1] => destruct (Hk n w1) as [H1 H2] end.
  split; [rewrite H1 | rewrite H2]; reflexivity.
Qed.

Lemma calm_queryLandscapeAgent (E : env) (prompt : string) :
  calm (queryLandscapeAgent E prompt).
Proof. apply calm_logged. intros n. apply calm_lift. Qed.

Lemma calm_queryPlanStepsAgent (E : env) (prompt : string) :
  calm (queryPlanStepsAgent E prompt).
Proof. apply calm_logged. intros n. apply calm_lift. Qed.

Lemma calm_querySummarizeAgent (E : env) (prompt : string) :
  calm (querySummarizeAgent E prompt).
Proof. apply calm_logged. intros n. apply calm_lift. Qed.

Lemma calm_queryBaseAgent (E : env) (q c : string) : calm (queryBaseAgent E q c).
Proof. apply calm_logged. intros n. apply calm_lift. Qed.

Create HintDb calm.
#[local] Hint Resolve calm_ret calm_throw calm_lift calm_bind calm_try calm_forEach
  calm_readNotesFile calm_writeNotesFile calm_readMemoryFile calm_writeMemoryFile
  calm_JSON_parse calm_isoNow calm_consoleError
  calm_queryLandscapeAgent calm_queryPlanStepsAgent calm_querySummarizeAgent
  calm_queryBaseAgent : calm.

Ltac calm_step :=
  match goal with
  | |- calm (if ?b then _ else _) => destruct b
  | |- calm (match ?x with _ => _ end) => destruct x
  | |- calm (Js.bind _ _) => apply calm_bind; [|intros]
  | |- calm (Js.try_catch _ _) => apply calm_try; [|intros]
  | |- calm (Js.forEach _ _) => apply calm_forEach; intros
  | |- calm _ => solve [auto with calm]
  end.

Ltac calm_auto := repeat calm_step.

Lemma calm_loadNotes (E : env) : calm (NotesManager.loadNotes E).
Proof. unfold NotesManager.loadNotes. calm_auto. Qed.

Lemma calm_saveNotes (content : string) : calm (NotesManager.saveNotes content).
Proof. unfold NotesManager.saveNotes. calm_auto. Qed.

#[local] Hint Resolve calm_loadNotes calm_saveNotes : calm.

Lemma calm_addUnder (E : env) (heading item : string) :
  calm (NotesManager.addUnder E heading item).
Proof. unfold NotesManager.addUnder. calm_auto. Qed.

Lemma calm_completeStep (E : env) (n : nat) : calm (NotesManager.completeStep E n).
Proof. unfold NotesManager.completeStep. calm_auto. Qed.

Lemma calm_setPlan (E : env) (l : list step) : calm (NotesManager.setPlan E l).
Proof. unfold NotesManager.setPlan. calm_auto. Qed.

Lemma calm_updateCurrentTask (E : env) (t : string) :
  calm (NotesManager.updateCurrentTask E t).
Proof. unfold NotesManager.updateCurrentTask. calm_auto. Qed.

#[local] Hint Resolve calm_addUnder calm_completeStep calm_setPlan
  calm_updateCurrentTask : calm.

Lemma calm_addBlocker (E : env) (b : string) : calm (NotesManager.addBlocker E b).
Proof. unfold NotesManager.addBlocker. calm_auto. Qed.

Lemma calm_addCompleted (E : env) (b : string) : calm (NotesManager.addCompleted E b).
Proof. unfold NotesManager.addCompleted. calm_auto. Qed.

Lemma calm_addContext (E : env) (b : string) : calm (NotesManager.addContext E b).
Proof. unfold NotesManager.addContext. calm_auto. Qed.

#[local] Hint Resolve calm_addBlocker calm_addCompleted calm_addContext : calm.

Lemma calm_loadMemory : calm MemorySystem.loadMemory.
Proof. unfold MemorySystem.loadMemory. calm_auto. Qed.

Lemma calm_saveMemory (m : memory) : calm (MemorySystem.saveMemory m).
Proof. unfold MemorySystem.saveMemory. calm_auto. Qed.

#[local] Hint Resolve calm_loadMemory calm_saveMemory : calm.

Lemma calm_summarizeAndShift (E : env) (m : memory) :
  calm (MemorySystem.summarizeAndShift E m).
Proof.
  unfold MemorySystem.summarizeAndShift, MemorySystem.summarize, MemorySystem.firstAndLast.
  calm_auto.
Qed.

#[local] Hint Resolve calm_summarizeAndShift : calm.

Lemma calm_addInteraction (E : env) (req : request) (resp : response) :
  calm (MemorySystem.addInteraction E req resp).
Proof. unfold MemorySystem.addInteraction. calm_auto. Qed.

Lemma calm_getMemoryContextString : calm MemorySystem.getMemoryContextString.
Proof. unfold MemorySystem.getMemoryContextString. calm_auto. Qed.

#[local] Hint Resolve calm_addInteraction calm_getMemoryContextString : calm.

Lemma calm_tryCompleteFrom (E : env) (l : list step) (i : nat) (a r : string) :
  calm (AgentOrchestrator.tryCompleteFrom E i l a r).
Proof.
  revert i. induction l as [|st l IH]; intros i; simpl; [apply calm_ret|].
  destruct (AgentOrchestrator.stepMatches st a r); [|apply IH]. calm_auto.
Qed.

#[local] Hint Resolve calm_tryCompleteFrom : calm.

Lemma calm_tryCompletePlan (E : env) (p : option plan) (a r : string) :
  calm (AgentOrchestrator.tryCompletePlan E p a r).
Proof.
  unfold AgentOrchestrator.tryCompletePlan, AgentOrchestrator.tryCompleteMatchingStep.
  calm_auto.
Qed.

Lemma calm_trackMissing (E : env) (l : list string) :
  calm (AgentOrchestrator.trackMissing E l).
Proof. unfold AgentOrchestrator.trackMissing. calm_auto. Qed.

#[local] Hint Resolve calm_tryCompletePlan calm_trackMissing : calm.

Lemma calm_codeBlock (E : env) (p : option plan) (r : response) :
  calm (AgentOrchestrator.codeBlock E p r).
Proof. unfold AgentOrchestrator.codeBlock. calm_auto. Qed.

Lemma calm_notifyThinking (O : options) (n : nat) :
  calm (AgentOrchestrator.notifyThinking O n).
Proof. unfold AgentOrchestrator.notifyThinking. calm_auto. Qed.

Lemma calm_notifyResponse (O : options) (r : response) (n : nat) :
  calm (AgentOrchestrator.notifyResponse O r n).
Proof. unfold AgentOrchestrator.notifyResponse. calm_auto. Qed.

Lemma calm_analyse (E : env) (O : options) (q : string) :
  calm (AgentOrchestrator.analyse E O q).
Proof.
  unfold AgentOrchestrator.analyse, AgentOrchestrator.runLandscapeAnalysis,
    AgentOrchestrator.createPlanSteps.
  calm_auto.
Qed.

#[local] Hint Resolve calm_codeBlock calm_notifyThinking calm_notifyResponse
  calm_analyse : calm.

(** What a calm computation that returns leaves of the two records. *)
Lemma calm_run {A} (m : M A) (w w' : world) (r : result A) :
  calm m -> m w = (r, w') -> asked w' = asked w /\ commands w' = commands w.
Proof. intros Hm Hr. destruct (Hm w) as [H1 H2]. rewrite Hr in H1, H2. split; assumption. Qed.

(** What [handleTerminalCommand] does when it returns: it has asked once
    when the response requires the approval, and has run the command once
    when its result says so. *)
Lemma handleTerminalCommand_effects (E : env) (r : response)
      (ask : option (nat -> string -> string -> completion bool))
      (w w' : world) (t : terminalResult) :
  AgentOrchestrator.handleTerminalCommand E r ask w = (Ok t, w') ->
  commands w' = ((if executed t then [terminalCommand r] else []) ++ commands w)%list
  /\ asked w' = ((if requiresApproval r
                  then [(terminalCommand r, commandReasoning r)] else []) ++ asked w)%list.
Proof.
  assert (Hexec : forall w0 w1 t0,
             AgentOrchestrator.execute E r w0 = (Ok t0, w1) ->
             executed t0 = true /\ commands w1 = terminalCommand r :: commands w0
             /\ asked w1 = asked w0).
  { intros w0 w1 t0. unfold AgentOrchestrator.execute, runCommand, Js.bind, Js.lift.
    destruct (executeCommand E (List.length (commands w0)) (terminalCommand r)) as [x|e];
      intros H; inversion H; subst. cbn. auto. }
  unfold AgentOrchestrator.handleTerminalCommand.
  destruct (requiresApproval r).
  - intros H. apply bind_inv_Ok in H. destruct H as (approved & w1 & Hask & Hrest).
    assert (Hw1 : commands w1 = commands w
                  /\ asked w1 = (terminalCommand r, commandReasoning r) :: asked w).
    { unfold AgentOrchestrator.callApproval in Hask. destruct ask as [f|]; [|discriminate].
      unfold Js.lift in Hask.
      destruct (f (List.length (asked w)) (terminalCommand r) (commandReasoning r));
        inversion Hask; subst. cbn. auto. }
    destruct Hw1 as [C1 A1]. destruct approved; cbn [negb] in Hrest.
    + destruct (Hexec _ _ _ Hrest) as (X1 & X2 & X3). rewrite X1, X2, X3, C1, A1.
      split; reflexivity.
    + inversion Hrest. subst. cbn. rewrite C1, A1. split; reflexivity.
  - intros H. destruct (Hexec _ _ _ H) as (X1 & X2 & X3). rewrite X1, X2, X3.
    split; reflexivity.
Qed.

(** The same of the terminal block, read off the response it leaves. *)
Lemma terminalBlock_effects (E : env) (O : options) (p : option plan) (r : response)
      (st : AgentOrchestrator.loopState) (w w' : world)
      (f : AgentOrchestrator.flow (response * AgentOrchestrator.loopState)) :
  AgentOrchestrator.terminalBlock E O p r st w = (Ok f, w') ->
  let r' := fst (flowState f) in
  commands w' = ((if ranCommand r' then [terminalCommand r'] else []) ++ commands w)%list
  /\ asked w' = ((if wasAsked r'
                  then [(terminalCommand r', commandReasoning r')] else []) ++ asked w)%list.
Proof.
  unfold AgentOrchestrator.terminalBlock, ranCommand, wasAsked.
  destruct (String.eqb (choice r) "terminalCommand") eqn:Hc.
  2:{ intros H. inversion H. subst. cbn [flowState fst]. rewrite Hc. split; reflexivity. }
  intros H. apply bind_inv_Ok in H. destruct H as (t & w1 & Ht & Hrest).
  destruct (handleTerminalCommand_effects E r (askApproval O) w w1 t Ht) as [C1 A1].
  assert (Hcalm : forall (m : M (AgentOrchestrator.flow (response * AgentOrchestrator.loopState))),
             calm m -> m w1 = (Ok f, w') ->
             fst (flowState f) = AgentOrchestrator.setTerminalResult t r ->
             commands w' = ((if String.eqb (choice (fst (flowState f))) "terminalCommand" &&
                                match terminalResultOf (fst (flowState f)) with
                                | Some t0 => executed t0
                                | None => false
                                end
                             then [terminalCommand (fst (flowState f))] else [])
                            ++ commands w)%list
             /\ asked w' = ((if String.eqb (choice (fst (flowState f))) "terminalCommand" &&
                                requiresApproval (fst (flowState f))
                             then [(terminalCommand (fst (flowState f)),
                                    commandReasoning (fst (flowState f)))] else [])
                            ++ asked w)%list).
  { intros m Hm Hrun Hr'. destruct (calm_run m w1 w' _ Hm Hrun) as [K1 K2].
    rewrite Hr'. cbn [AgentOrchestrator.setTerminalResult choice terminalResultOf
                      terminalCommand commandReasoning requiresApproval].
    rewrite Hc, K1, K2, C1, A1. cbn [andb]. split; reflexivity. }
  destruct (executed t) eqn:Hex.
  - refine (Hcalm _ _ Hrest _); [calm_auto|].
    apply bind_inv_Ok in Hrest. destruct Hrest as (u1 & w2 & _ & Hrest).
    apply bind_inv_Ok in Hrest. destruct Hrest as (u2 & w3 & _ & Hrest).
    inversion Hrest. reflexivity.
  - refine (Hcalm _ _ Hrest _); [calm_auto|].
    apply bind_inv_Ok in Hrest. destruct Hrest as (u1 & w2 & _ & Hrest).
    destruct (Nat.leb _ _).
    + apply bind_inv_Ok in Hrest. destruct Hrest as (u2 & w3 & _ & Hrest).
      inversion Hrest. reflexivity.
    + inversion Hrest. reflexivity.
Qed.

(** One pass: the response it adds to the list tells what was run and
    what was asked. *)
Lemma turn_effects (E : env) (O : options) (q : string) (p : option plan)
      (st st' : AgentOrchestrator.loopState) (w w' : world) (again : bool) :
  AgentOrchestrator.turn E O q p st w = (Ok (again, st'), w') ->
  exists r',
    AgentOrchestrator.lsResponses st' = (AgentOrchestrator.lsResponses st ++ [r'])%list
    /\ commands w' = (commandsRun [r'] ++ commands w)%list
    /\ asked w' = (approvalsAsked [r'] ++ asked w)%list.
Proof.
  unfold AgentOrchestrator.turn. intros H.
  apply bind_inv_Ok in H. destruct H as (u & w1 & H1 & H).
  apply bind_inv_Ok in H. destruct H as (r & w2 & H2 & H).
  apply bind_inv_Ok in H. destruct H as (f & w3 & H3 & H).
  destruct (calm_run _ _ _ _ (calm_notifyThinking O _) H1) as [A1 C1].
  destruct (calm_run _ _ _ _ (calm_queryBaseAgent E q _) H2) as [A2 C2].
  destruct (terminalBlock_effects E O p r _ w2 w3 f H3) as [C3 A3].
  pose proof (terminalBlock_keeps_responses E O p r _ _ _ _ H3) as Hresp.
  cbn [AgentOrchestrator.lsResponses] in Hresp.
  assert (Hshow : forall r', commandsRun [r'] = (if ranCommand r' then [terminalCommand r'] else [])
                             /\ approvalsAsked [r']
                                = (if wasAsked r'
                                   then [(terminalCommand r', commandReasoning r')] else [])).
  { intros r'. unfold commandsRun, approvalsAsked. cbn [List.filter].
    destruct (ranCommand r'), (wasAsked r'); split; reflexivity. }
  destruct f as [[r' st1] | [r' st1]]; cbn [flowState fst snd] in *.
  - exists r'. destruct (Hshow r') as [S1 S2]. rewrite S1, S2.
    apply bind_inv_Ok in H. destruct H as (u1 & w4 & H4 & H).
    apply bind_inv_Ok in H. destruct H as (u2 & w5 & H5 & H).
    apply bind_inv_Ok in H. destruct H as (u3 & w6 & H6 & H).
    apply bind_inv_Ok in H. destruct H as (u4 & w7 & H7 & H).
    inversion H. subst. clear H.
    destruct (calm_run _ _ _ _ (calm_codeBlock E p r') H4) as [A4 C4].
    destruct (calm_run _ _ _ _ (calm_trackMissing E _) H5) as [A5 C5].
    destruct (calm_run _ _ _ _ (calm_notifyResponse O r' _) H6) as [A6 C6].
    destruct (calm_run _ _ _ _ (calm_addInteraction E _ r') H7) as [A7 C7].
    cbn [AgentOrchestrator.lsResponses AgentOrchestrator.pushResponse].
    split; [rewrite Hresp; reflexivity|].
    split; congruence.
  - exists r'. destruct (Hshow r') as [S1 S2]. rewrite S1, S2.
    inversion H. subst. clear H.
    cbn [AgentOrchestrator.lsResponses AgentOrchestrator.pushResponse].
    split; [rewrite Hresp; reflexivity|].
    split; congruence.
Qed.

Lemma commandsRun_app (a b : list response) :
  commandsRun (a ++ b) = (commandsRun b ++ commandsRun a)%list.
Proof. unfold commandsRun. rewrite filter_app, map_app, rev_app_distr. reflexivity. Qed.

Lemma approvalsAsked_app (a b : list response) :
  approvalsAsked (a ++ b) = (approvalsAsked b ++ approvalsAsked a)%list.
Proof. unfold approvalsAsked. rewrite filter_app, map_app, rev_app_distr. reflexivity. Qed.

Lemma iterate_effects (E : env) (O : options) (q : string) (p : option plan) :
  forall (fuel : nat) (st st' : AgentOrchestrator.loopState) (w w' : world),
    AgentOrchestrator.iterate E fuel O q p st w = (Ok st', w') ->
    exists new,
      AgentOrchestrator.lsResponses st' = (AgentOrchestrator.lsResponses st ++ new)%list
      /\ commands w' = (commandsRun new ++ commands w)%list
      /\ asked w' = (approvalsAsked new ++ asked w)%list.
Proof.
  induction fuel as [|k IH]; intros st st' w w' Hrun.
  - discriminate.
  - cbn [AgentOrchestrator.iterate] in Hrun.
    apply bind_inv_Ok in Hrun. destruct Hrun as ([again st1] & w1 & Hturn & Hrest).
    destruct (turn_effects E O q p st st1 w w1 again Hturn) as (r' & R1 & C1 & A1).
    cbn [fst snd] in Hrest. destruct again.
    + destruct (IH st1 st' w1 w' Hrest) as (new & R2 & C2 & A2).
      exists ([r'] ++ new)%list.
      rewrite commandsRun_app, approvalsAsked_app, R2, R1, C2, C1, A2, A1, <- !app_assoc.
      repeat split; reflexivity.
    + inversion Hrest. subst. exists [r']. repeat split; assumption.
Qed.

(** X18. When [orchestrate] resolves, the responses it returns tell
    exactly what was done: the commands run during the call are those of
    the terminal responses whose result says [executed], in their order,
    and the approvals asked are those of the terminal responses that
    require one.  So a command is run without a question exactly when the
    response of the agent does not require the approval, whatever the
    approval callback is. *)
Theorem responses_tell_the_commands_run (E : env) (fuel : nat) (q : string) (O : options)
        (w : world) (r : AgentOrchestrator.orchestration) :
  fst (AgentOrchestrator.orchestrate E fuel q O w) = Ok r ->
  let w' := snd (AgentOrchestrator.orchestrate E fuel q O w) in
  commands w' = (commandsRun (AgentOrchestrator.responses r) ++ commands w)%list
  /\ asked w' = (approvalsAsked (AgentOrchestrator.responses r) ++ asked w)%list.
Proof.
  intros Hrun w'.
  assert (Hok : AgentOrchestrator.orchestrate E fuel q O w = (Ok r, w'))
    by (unfold w'; rewrite <- Hrun; apply surjective_pairing).
  clearbody w'. clear Hrun.
  apply orchestrate_Ok in Hok. unfold AgentOrchestrator.tryBlock in Hok.
  apply bind_inv_Ok in Hok. destruct Hok as (notes & w1 & H1 & Hok).
  apply bind_inv_Ok in Hok. destruct Hok as (mem & w2 & H2 & Hok).
  apply bind_inv_Ok in Hok. destruct Hok as (lp & w3 & H3 & Hok).
  apply bind_inv_Ok in Hok. destruct Hok as (st & w4 & H4 & Hok).
  inversion Hok. subst. clear Hok.
  destruct (calm_run _ _ _ _ (calm_loadNotes E) H1) as [A1 C1].
  destruct (calm_run _ _ _ _ calm_getMemoryContextString H2) as [A2 C2].
  destruct (calm_run _ _ _ _ (calm_analyse E O q) H3) as [A3 C3].
  destruct (iterate_effects E O q (snd lp) fuel _ _ _ _ H4) as (new & R & C4 & A4).
  cbn [AgentOrchestrator.lsResponses List.app] in R.
  cbn [AgentOrchestrator.responses]. rewrite R, C4, A4. split; congruence.
Qed.

Lemma responses_tell_the_commands_run_witness :
  let E := Scenario.scripted [Cases.unguarded "rm -rf build" "clean up"] in
  let run := AgentOrchestrator.orchestrate E 5 "tidy" (Scenario.simple None) Scenario.blank in
  exists r,
    fst run = Ok r
    /\ askApproval (Scenario.simple None) = None
    /\ commands (snd run) = ["rm -rf build"]
    /\ asked (snd run) = [].
Proof.
  intros E run.
  assert (Hr : exists r, fst run = Ok r
                         /\ commandsRun (AgentOrchestrator.responses r) = ["rm -rf build"]
                         /\ approvalsAsked (AgentOrchestrator.responses r) = []).
  { eexists. split; [vm_compute; reflexivity|]. split; vm_compute; reflexivity. }
  destruct Hr as (r & Hr & Hc & Ha).
  destruct (responses_tell_the_commands_run E 5 "tidy" (Scenario.simple None) Scenario.blank
              r Hr) as (H1 & H2).
  exists r. split; [exact Hr|]. split; [reflexivity|].
  fold run in H1, H2. rewrite H1, H2, Hc, Ha. split; reflexivity.
Defined.

(* ================================================================== *)
(** ** Errors in orchestrate *)

(** How [addUnder] ends: with the error of the write when the notes cannot
    be written, and well otherwise. *)
Lemma addUnder_outcome (E : env) (heading item : string) (w : world) :
  fst (NotesManager.addUnder E heading item w)
  = if Fs.canWrite (notesFile w) then Ok tt else Throw Fs.eacces.
Proof.
  unfold NotesManager.addUnder, NotesManager.loadNotes, Js.try_catch, Fs.readNotesFile,
    NotesManager.saveNotes, Fs.writeNotesFile, Js.bind, isoNow, Js.lift, Js.ret, Js.throw.
  destruct (notesFile w) as [|r wr s] eqn:Hn.
  - cbn [Fs.readFile notesFile Fs.writeFile Fs.canWrite fst]. rewrite Hn. reflexivity.
  - destruct r, wr; cbn [Fs.readFile notesFile Fs.writeFile Fs.canWrite fst clock];
      rewrite ?Hn; reflexivity.
Qed.

(** X19. [orchestrate] swallows no error: when anything in its [try]
    block throws, it rejects, and never resolves with a failure.  It
    rejects with the error thrown when the notes can be written, after
    noting [Error: <message>] as a blocker; when the notes cannot be
    written it rejects with the error of that write instead, and the
    error thrown is lost. *)
Theorem orchestrate_rejects_with_the_error (E : env) (fuel : nat) (q : string) (O : options)
        (w : world) (e : jsError) :
  fst (AgentOrchestrator.tryBlock E fuel q O w) = Throw e ->
  let w1 := snd (AgentOrchestrator.tryBlock E fuel q O w) in
  let w' := snd (AgentOrchestrator.orchestrate E fuel q O w) in
  fst (AgentOrchestrator.orchestrate E fuel q O w)
  = Throw (if Fs.canWrite (notesFile w1) then e else Fs.eacces)
  /\ (durable (notesFile w1) = true ->
      notesFile w' = Holds true true
        (NotesManager.insertUnder "## Blockers"
           (NotesManager.stamped (now E (stampClock w1)) ("Error: " ++ message e))
           (loadedNotes E w1))).
Proof.
  intros Hrun w1 w'. subst w'. unfold AgentOrchestrator.orchestrate, Js.try_catch.
  unfold w1. clear w1.
  destruct (AgentOrchestrator.tryBlock E fuel q O w) as [[a|e0|] w1]; cbn [fst snd] in *;
    try discriminate.
  inversion Hrun. subst e0. clear Hrun.
  pose proof (addUnder_outcome E "## Blockers" ("Error: " ++ message e) w1) as Hout.
  unfold NotesManager.addBlocker.
  destruct (NotesManager.addUnder E "## Blockers" ("Error: " ++ message e) w1)
    as [[u|e1|] w2] eqn:Hadd; cbn [fst] in Hout.
  - rewrite (bind_Ok _ _ _ _ _ Hadd). destruct (Fs.canWrite (notesFile w1)); [|discriminate].
    split; [reflexivity|]. intros Hd.
    rewrite (addUnder_durable E _ _ w1 Hd) in Hadd. inversion Hadd. reflexivity.
  - rewrite (bind_Throw _ _ _ _ _ Hadd). destruct (Fs.canWrite (notesFile w1)) eqn:Hcw;
      [discriminate|]. inversion Hout. subst e1.
    split; [reflexivity|]. intros Hd. exfalso.
    destruct (notesFile w1) as [|r wr s]; [discriminate|].
    cbn in Hd, Hcw. subst wr. rewrite andb_false_r in Hd. discriminate.
  - destruct (Fs.canWrite (notesFile w1)); discriminate.
Qed.

Lemma orchestrate_rejects_with_the_error_witness :
  let E := Scenario.scripted [] in
  let run := AgentOrchestrator.orchestrate E 5 "hello" (Scenario.simple None) Scenario.blank in
  fst (AgentOrchestrator.tryBlock E 5 "hello" (Scenario.simple None) Scenario.blank)
  = Throw (mkError CollaboratorError "no answer")
  /\ fst run = Throw (mkError CollaboratorError "no answer")
  /\ Str.includes (Scenario.notesText (snd run))
       ("## Blockers" ++ Str.nl ++ "- [T2] Error: no answer" ++ Str.nl) = true.
Proof.
  intros E run.
  assert (Hthrow : fst (AgentOrchestrator.tryBlock E 5 "hello" (Scenario.simple None)
                          Scenario.blank)
                   = Throw (mkError CollaboratorError "no answer"))
    by (vm_compute; reflexivity).
  destruct (orchestrate_rejects_with_the_error E 5 "hello" (Scenario.simple None)
              Scenario.blank _ Hthrow) as (H1 & H2).
  split; [exact Hthrow|]. split.
  - fold run in H1. rewrite H1. vm_compute. reflexivity.
  - vm_compute. reflexivity.
Defined.

(* ================================================================== *)
(** ** The heading of the recent interactions *)

Lemma includes_middle (x p y : string) : Str.includes (x ++ p ++ y) p = true.
Proof.
  unfold Str.includes, Str.indexOf.
  assert (H : exists n, index 0 p (x ++ p ++ y) = Some n).
  { induction x as [|c x IH].
    - exists 0. apply index_here. exact (prefix_append p y).
    - destruct IH as [n IH]. change (String c x ++ p ++ y) with (String c (x ++ p ++ y)).
      cbn [index]. rewrite IH. destruct (prefix p _); eauto. }
  destruct H as [n ->]. reflexivity.
Qed.

(** What [trim] leaves of a text around a part that starts and ends with
    characters other than white space. *)
Lemma trim_around (a mid b : string) (c1 c2 : ascii) :
  Str.isSpace c1 = false ->
  Str.isSpace c2 = false ->
  Str.trim (a ++ String c1 (mid ++ String c2 b))
  = Str.dropWhile Str.isSpace a
    ++ String c1 (mid ++ String c2 (Str.rev (Str.dropWhile Str.isSpace (Str.rev b)))).
Proof.
  intros H1 H2. unfold Str.trim.
  rewrite (dropWhile_append_stop _ _ _ _ H1).
  replace (Str.dropWhile Str.isSpace a ++ String c1 (mid ++ String c2 b))
    with ((Str.dropWhile Str.isSpace a ++ String c1 mid) ++ String c2 b)
    by (rewrite append_assoc; reflexivity).
  rewrite (stripEnd_after _ _ _ H2), append_assoc. reflexivity.
Qed.

(** X20. Whenever the memory holds an interaction, the context string of
    [getMemoryContextString] shows the placeholder of the number of
    interactions as it is written in the source, not the number: the
    heading is a text between single quotes, not a template. *)
Theorem recent_heading_shows_the_placeholder (w : world) :
  interactions (stored (memoryFile w)) <> [] ->
  exists text,
    MemorySystem.getMemoryContextString w = (Ok text, w)
    /\ Str.includes text "RECENT INTERACTIONS (Last ${memory.interactions.length})" = true.
Proof.
  intros Hne. exists (loadedMemoryContext w).
  split; [apply getMemoryContextString_run|].
  unfold loadedMemoryContext, MemorySystem.contextOf.
  set (m := stored (memoryFile w)) in *.
  set (a := match summaries m with [] => "" | _ => _ end).
  destruct (interactions m) as [|i l]; [contradiction|].
  set (rest := Str.nl ++ Str.nl ++ MemorySystem.renderInteractions (i :: l)).
  change ("═══ RECENT INTERACTIONS (Last ${memory.interactions.length}) ═══" ++ rest)
    with ("═══ " ++ String "R" ("ECENT INTERACTIONS (Last ${memory.interactions.length}"
                                    ++ String ")" (" ═══" ++ rest))).
  rewrite <- (append_assoc a "═══ ").
  rewrite trim_around by reflexivity.
  apply (includes_middle _ "RECENT INTERACTIONS (Last ${memory.interactions.length})").
Qed.

Lemma recent_heading_shows_the_placeholder_witness :
  let w := Cases.filled 3 in
  interactions (stored (memoryFile w)) <> []
  /\ exists text,
       MemorySystem.getMemoryContextString w = (Ok text, w)
       /\ Str.includes text "RECENT INTERACTIONS (Last ${memory.interactions.length})" = true
       /\ Str.includes text "(Last 3)" = false.
Proof.
  intros w.
  assert (Hne : interactions (stored (memoryFile w)) <> []) by (vm_compute; discriminate).
  destruct (recent_heading_shows_the_placeholder w Hne) as (text & Hrun & Hinc).
  split; [exact Hne|]. exists text. split; [exact Hrun|]. split; [exact Hinc|].
  rewrite getMemoryContextString_run in Hrun. inversion Hrun. vm_compute. reflexivity.
Defined.

(* ================================================================== *)
(** ** Queries that count as complex *)

Lemma existsSuffix_append (p : string -> bool) (a s : string) :
  p s = true -> Str.existsSuffix p (a ++ s) = true.
Proof.
  intros H. induction a as [|c a IH].
  - destruct s; simpl; rewrite H; reflexivity.
  - change (String c a ++ s) with (String c (a ++ s)). cbn [Str.existsSuffix].
    rewrite IH. apply orb_true_r.
Qed.

Lemma count_append (p : ascii -> bool) (a b : string) :
  Str.count p (a ++ b) = Str.count p a + Str.count p b.
Proof. induction a as [|c a IH]; simpl; [reflexivity | rewrite IH; lia]. Qed.

(** X21. A query counts as complex, so that [orchestrate] runs the
    landscape analysis unless it is skipped, as soon as it holds a digit
    followed by a dot anywhere (a decimal number, a version, an address),
    or three characters among [.], [!] and [?] (an ellipsis is enough). *)
Theorem small_things_count_as_complex :
  (forall (a b : string) (d : ascii),
      Str.isDigit d = true ->
      AgentOrchestrator.shouldUseLandscape (a ++ String d ("." ++ b)) = true)
  /\ (forall (a b : string),
        AgentOrchestrator.shouldUseLandscape (a ++ "..." ++ b) = true).
Proof.
  split.
  - intros a b d Hd. unfold AgentOrchestrator.shouldUseLandscape.
    replace (Str.existsSuffix AgentOrchestrator.numberedHere (a ++ String d ("." ++ b)))
      with true.
    { rewrite !orb_true_r. reflexivity. }
    symmetry. apply existsSuffix_append.
    unfold AgentOrchestrator.numberedHere. cbn [Str.takeWhile append]. rewrite Hd.
    change (Str.isDigit ".") with false. cbn [String.length Str.drop String.eqb negb andb].
    exact (prefix_append "." b).
  - intros a b. unfold AgentOrchestrator.shouldUseLandscape.
    replace (Nat.ltb 3 (Str.count AgentOrchestrator.isSentenceEnd (a ++ "..." ++ b) + 1))
      with true.
    { rewrite !orb_true_r. reflexivity. }
    symmetry. apply Nat.ltb_lt. rewrite !count_append. cbn. lia.
Qed.

(* ================================================================== *)
(** ** sanitizeJsonString *)

Lemma stripFences_free (s : string) :
  freeOf "`" s = true -> OpenaiWrapper.stripFencesFrom 0 s = s.
Proof.
  induction s as [|c s IH]; intros H; [reflexivity|].
  cbn [freeOf] in H. apply andb_true_iff in H. destruct H as [Hc Hs].
  apply negb_true_iff in Hc.
  assert (Hno : forall t, Str.startsWith (String c s) (String "`" t) = false).
  { intros t. unfold Str.startsWith. cbn [prefix].
    destruct (Ascii.ascii_dec "`" c) as [e|n]; [|reflexivity].
    subst c. discriminate. }
  cbn [OpenaiWrapper.stripFencesFrom].
  change ("```json" ++ Str.nl) with (String "`" ("``json" ++ Str.nl)).
  rewrite !Hno, (IH Hs). reflexivity.
Qed.

Lemma lastIndexOf_end (c : ascii) (a : string) :
  OpenaiWrapper.lastIndexOf c (a ++ String c "") = Some (String.length a).
Proof.
  induction a as [|d a IH]; simpl.
  - rewrite Ascii.eqb_refl. reflexivity.
  - rewrite IH. reflexivity.
Qed.

Lemma lastIndexOf_found (c : ascii) (s : string) (k : nat) :
  OpenaiWrapper.lastIndexOf c s = Some k ->
  exists a b, s = a ++ String c b /\ String.length a = k.
Proof.
  revert k. induction s as [|d s IH]; intros k H; simpl in H; [discriminate|].
  destruct (OpenaiWrapper.lastIndexOf c s) as [n|].
  - inversion H. subst. destruct (IH n eq_refl) as (a & b & -> & Hl).
    exists (String d a), b. split; [reflexivity | simpl; lia].
  - destruct (Ascii.eqb d c) eqn:Hd; [|discriminate]. inversion H. subst.
    apply Ascii.eqb_eq in Hd. subst d. exists "", s. split; reflexivity.
Qed.

Lemma lastIndexOf_none (c : ascii) (s : string) :
  OpenaiWrapper.lastIndexOf c s = None -> Str.includes s (String c "") = false.
Proof.
  unfold Str.includes, Str.indexOf.
  induction s as [|d s IH]; intros H; [reflexivity|].
  simpl in H. destruct (OpenaiWrapper.lastIndexOf c s) as [n|]; [discriminate|].
  destruct (Ascii.eqb d c) eqn:Hd; [discriminate|].
  specialize (IH eq_refl). cbn [index prefix].
  destruct (Ascii.ascii_dec c d) as [e|n].
  - subst d. rewrite Ascii.eqb_refl in Hd. discriminate.
  - destruct (index 0 (String c "") s); [discriminate | reflexivity].
Qed.

(** X22. What [sanitizeJsonString] returns holds no closing brace or ends
    with one: what follows the last brace is cut. *)
Theorem sanitized_text_ends_with_its_last_brace (str : string) :
  Str.includes (OpenaiWrapper.sanitizeJsonString str) "}" = false
  \/ exists body, OpenaiWrapper.sanitizeJsonString str = body ++ "}".
Proof.
  unfold OpenaiWrapper.sanitizeJsonString.
  set (clean := Str.trim (OpenaiWrapper.stripFencesFrom 0 str)).
  destruct (OpenaiWrapper.lastIndexOf "}" clean) as [k|] eqn:Hk.
  - right. destruct (lastIndexOf_found _ _ _ Hk) as (a & b & Hs & Hl).
    destruct (Nat.ltb k (String.length clean - 1)) eqn:Hlt.
    + exists a. rewrite Hs. subst k.
      replace (a ++ String "}" b) with ((a ++ "}") ++ b) by (rewrite append_assoc; reflexivity).
      replace (String.length a + 1) with (String.length (a ++ "}"))
        by (rewrite length_append; reflexivity).
      apply (take_append_exact (a ++ "}") b).
    + exists a. apply Nat.ltb_ge in Hlt. rewrite Hs in Hlt |- *.
      rewrite length_append in Hlt. cbn [String.length] in Hlt.
      destruct b as [|x b]; [reflexivity | cbn [String.length] in Hlt; lia].
  - left. apply lastIndexOf_none. exact Hk.
Qed.

(** X23. [sanitizeJsonString] leaves a clean text as it is: one that holds
    no backquote, has no white space at either end and ends with a closing
    brace. *)
Theorem clean_text_is_left_alone (body : string) :
  freeOf "`" body = true ->
  Str.trim (body ++ "}") = body ++ "}" ->
  OpenaiWrapper.sanitizeJsonString (body ++ "}") = body ++ "}".
Proof.
  intros Hfree Htrim. unfold OpenaiWrapper.sanitizeJsonString.
  rewrite stripFences_free by (rewrite freeOf_append, Hfree; reflexivity).
  rewrite Htrim, lastIndexOf_end, length_append. cbn [String.length].
  replace (Nat.ltb (String.length body) (String.length body + 1 - 1)) with false
    by (symmetry; apply Nat.ltb_ge; lia).
  reflexivity.
Qed.

Lemma clean_text_is_left_alone_witness :
  let body := "{" ++ String (ascii_of_nat 34) "a" ++ String (ascii_of_nat 34) ": {}" in
  freeOf "`" body = true
  /\ Str.trim (body ++ "}") = body ++ "}"
  /\ OpenaiWrapper.sanitizeJsonString (body ++ "}") = body ++ "}"
  /\ OpenaiWrapper.sanitizeJsonString ("```json" ++ Str.nl ++ body ++ "}" ++ Str.nl ++ "``` ok?")
     = body ++ "}".
Proof.
  intros body.
  split; [reflexivity|]. split; [reflexivity|].
  split; [|vm_compute; reflexivity].
  exact (clean_text_is_left_alone body eq_refl eq_refl).
Defined.

(* ================================================================== *)
(** ** The simple mode *)

Lemma plainly_ret {A} (a : A) : plainly (Js.ret a).
Proof. intros w. reflexivity. Qed.

Lemma plainly_throw {A} (e : jsError) : plainly (@Js.throw A e).
Proof. intros w. reflexivity. Qed.

Lemma plainly_lift {A} (c : completion A) : plainly (Js.lift c).
Proof. destruct c; [apply plainly_ret | apply plainly_throw]. Qed.

Lemma plainly_bind {A B} (m : M A) (k : A -> M B) :
  plainly m -> (forall a, plainly (k a)) -> plainly (Js.bind m k).
Proof.
  intros Hm Hk w. unfold Js.bind. pose proof (Hm w) as H1.
  destruct (m w) as [[a|e|] w1]; cbn [snd] in *; [|exact H1|exact H1].
  rewrite (Hk a w1). exact H1.
Qed.

Lemma plainly_try {A} (m : M A) (h : jsError -> M A) :
  plainly m -> (forall e, plainly (h e)) -> plainly (Js.try_catch m h).
Proof.
  intros Hm Hh w. unfold Js.try_catch. pose proof (Hm w) as H1.
  destruct (m w) as [[a|e|] w1]; cbn [snd] in *; [exact H1| |exact H1].
  rewrite (Hh e w1). exact H1.
Qed.

Lemma plainly_forEach {A} (l : list A) (f : A -> M unit) :
  (forall a, plainly (f a)) -> plainly (Js.forEach l f).
Proof.
  intros Hf. induction l as [|a l IH]; simpl.
  - apply plainly_ret.
  - apply plainly_bind; auto.
Qed.

Lemma plainly_after {A} (m : M A) (f : world -> world) :
  (forall w, analysisCalls (f w) = analysisCalls w) ->
  plainly m -> plainly (fun w => m (f w)).
Proof. intros Hf Hm w. rewrite (Hm (f w)). apply Hf. Qed.

Lemma plainly_readNotesFile : plainly Fs.readNotesFile.
Proof. intros w. unfold Fs.readNotesFile. apply plainly_lift. Qed.

Lemma plainly_writeNotesFile (content : string) : plainly (Fs.writeNotesFile content).
Proof.
  intros w. unfold Fs.writeNotesFile.
  destruct (Fs.writeFile content (notesFile w)) as [c f].
  apply (plainly_after (Js.lift c) (Fs.setNotesFile f)); [reflexivity | apply plainly_lift].
Qed.

Lemma plainly_readMemoryFile : plainly Fs.readMemoryFile.
Proof. intros w. unfold Fs.readMemoryFile. apply plainly_lift. Qed.

Lemma plainly_writeMemoryFile (data : jsonText) : plainly (Fs.writeMemoryFile data).
Proof.
  intros w. unfold Fs.writeMemoryFile.
  destruct (Fs.writeFile data (memoryFile w)) as [c f].
  apply (plainly_after (Js.lift c) (Fs.setMemoryFile f)); [reflexivity | apply plainly_lift].
Qed.

Lemma plainly_JSON_parse (data : jsonText) : plainly (JSON_parse data).
Proof. destruct data; [apply plainly_throw | apply plainly_ret]. Qed.

Lemma plainly_isoNow (E : env) : plainly (isoNow E).
Proof. intros w. reflexivity. Qed.

Lemma plainly_consoleError (line : string) : plainly (consoleError line).
Proof. intros w. reflexivity. Qed.

Lemma plainly_runCommand (E : env) (command : string) : plainly (runCommand E command).
Proof.
  intros w. unfold runCommand.
  match goal with |- context [Js.lift ?c ?w1] => rewrite (plainly_lift c w1) end.
  reflexivity.
Qed.

Lemma plainly_querySummarizeAgent (E : env) (prompt : string) :
  plainly (querySummarizeAgent E prompt).
Proof.
  intros w. unfold querySummarizeAgent, logCall, Js.bind.
  match goal with |- context [Js.lift ?c ?w1] => rewrite (plainly_lift c w1) end.
  reflexivity.
Qed.

Lemma plainly_queryBaseAgent (E : env) (q c : string) : plainly (queryBaseAgent E q c).
Proof.
  intros w. unfold queryBaseAgent, logCall, Js.bind.
  match goal with |- context [Js.lift ?x ?w1] => rewrite (plainly_lift x w1) end.
  reflexivity.
Qed.

Create HintDb plainly.
#[local] Hint Resolve plainly_ret plainly_throw plainly_lift plainly_bind plainly_try
  plainly_forEach plainly_readNotesFile plainly_writeNotesFile plainly_readMemoryFile
  plainly_writeMemoryFile plainly_JSON_parse plainly_isoNow plainly_consoleError
  plainly_runCommand plainly_querySummarizeAgent plainly_queryBaseAgent : plainly.

Ltac plainly_step :=
  match goal with
  | |- plainly (if ?b then _ else _) => destruct b
  | |- plainly (match ?x with _ => _ end) => destruct x
  | |- plainly (Js.bind _ _) => apply plainly_bind; [|intros]
  | |- plainly (Js.try_catch _ _) => apply plainly_try; [|intros]
  | |- plainly (Js.forEach _ _) => apply plainly_forEach; intros
  | |- plainly _ => solve [auto with plainly]
  end.

Ltac plainly_auto := repeat plainly_step.

Lemma plainly_loadNotes (E : env) : plainly (NotesManager.loadNotes E).
Proof. unfold NotesManager.loadNotes. plainly_auto. Qed.

Lemma plainly_saveNotes (content : string) : plainly (NotesManager.saveNotes content).
Proof. unfold NotesManager.saveNotes. plainly_auto. Qed.

#[local] Hint Resolve plainly_loadNotes plainly_saveNotes : plainly.

Lemma plainly_addUnder (E : env) (heading item : string) :
  plainly (NotesManager.addUnder E heading item).
Proof. unfold NotesManager.addUnder. plainly_auto. Qed.

Lemma plainly_completeStep (E : env) (n : nat) : plainly (NotesManager.completeStep E n).
Proof. unfold NotesManager.completeStep. plainly_auto. Qed.

#[local] Hint Resolve plainly_addUnder plainly_completeStep : plainly.

Lemma plainly_addBlocker (E : env) (b : string) : plainly (NotesManager.addBlocker E b).
Proof. unfold NotesManager.addBlocker. plainly_auto. Qed.

Lemma plainly_addCompleted (E : env) (b : string) : plainly (NotesManager.addCompleted E b).
Proof. unfold NotesManager.addCompleted. plainly_auto. Qed.

Lemma plainly_addContext (E : env) (b : string) : plainly (NotesManager.addContext E b).
Proof. unfold NotesManager.addContext. plainly_auto. Qed.

#[local] Hint Resolve plainly_addBlocker plainly_addCompleted plainly_addContext : plainly.

Lemma plainly_loadMemory : plainly MemorySystem.loadMemory.
Proof. unfold MemorySystem.loadMemory. plainly_auto. Qed.

Lemma plainly_saveMemory (m : memory) : plainly (MemorySystem.saveMemory m).
Proof. unfold MemorySystem.saveMemory. plainly_auto. Qed.

#[local] Hint Resolve plainly_loadMemory plainly_saveMemory : plainly.

Lemma plainly_summarizeAndShift (E : env) (m : memory) :
  plainly (MemorySystem.summarizeAndShift E m).
Proof.
  unfold MemorySystem.summarizeAndShift, MemorySystem.summarize, MemorySystem.firstAndLast.
  plainly_auto.
Qed.

#[local] Hint Resolve plainly_summarizeAndShift : plainly.

Lemma plainly_addInteraction (E : env) (req : request) (resp : response) :
  plainly (MemorySystem.addInteraction E req resp).
Proof. unfold MemorySystem.addInteraction. plainly_auto. Qed.

Lemma plainly_getMemoryContextString : plainly MemorySystem.getMemoryContextString.
Proof. unfold MemorySystem.getMemoryContextString. plainly_auto. Qed.

#[local] Hint Resolve plainly_addInteraction plainly_getMemoryContextString : plainly.

Lemma plainly_callApproval (ask : option (nat -> string -> string -> completion bool))
      (command rationale : string) :
  plainly (AgentOrchestrator.callApproval ask command rationale).
Proof.
  unfold AgentOrchestrator.callApproval. destruct ask as [f|]; [|apply plainly_throw].
  intros w.
  match goal with |- context [Js.lift ?c ?w1] => rewrite (plainly_lift c w1) end.
  reflexivity.
Qed.

#[local] Hint Resolve plainly_callApproval : plainly.

Lemma plainly_handleTerminalCommand (E : env) (r : response)
      (ask : option (nat -> string -> string -> completion bool)) :
  plainly (AgentOrchestrator.handleTerminalCommand E r ask).
Proof.
  unfold AgentOrchestrator.handleTerminalCommand, AgentOrchestrator.execute. plainly_auto.
Qed.

Lemma plainly_tryCompleteFrom (E : env) (l : list step) (i : nat) (a r : string) :
  plainly (AgentOrchestrator.tryCompleteFrom E i l a r).
Proof.
  revert i. induction l as [|st l IH]; intros i; simpl; [apply plainly_ret|].
  destruct (AgentOrchestrator.stepMatches st a r); [|apply IH]. plainly_auto.
Qed.

#[local] Hint Resolve plainly_handleTerminalCommand plainly_tryCompleteFrom : plainly.

Lemma plainly_tryCompletePlan (E : env) (p : option plan) (a r : string) :
  plainly (AgentOrchestrator.tryCompletePlan E p a r).
Proof.
  unfold AgentOrchestrator.tryCompletePlan, AgentOrchestrator.tryCompleteMatchingStep.
  plainly_auto.
Qed.

Lemma plainly_trackMissing (E : env) (l : list string) :
  plainly (AgentOrchestrator.trackMissing E l).
Proof. unfold AgentOrchestrator.trackMissing. plainly_auto. Qed.

#[local] Hint Resolve plainly_tryCompletePlan plainly_trackMissing : plainly.

Lemma plainly_terminalBlock (E : env) (O : options) (p : option plan) (r : response)
      (st : AgentOrchestrator.loopState) :
  plainly (AgentOrchestrator.terminalBlock E O p r st).
Proof. unfold AgentOrchestrator.terminalBlock. plainly_auto. Qed.

Lemma plainly_codeBlock (E : env) (p : option plan) (r : response) :
  plainly (AgentOrchestrator.codeBlock E p r).
Proof. unfold AgentOrchestrator.codeBlock. plainly_auto. Qed.

Lemma plainly_notifyThinking (O : options) (n : nat) :
  plainly (AgentOrchestrator.notifyThinking O n).
Proof. unfold AgentOrchestrator.notifyThinking. plainly_auto. Qed.

Lemma plainly_notifyResponse (O : options) (r : response) (n : nat) :
  plainly (AgentOrchestrator.notifyResponse O r n).
Proof. unfold AgentOrchestrator.notifyResponse. plainly_auto. Qed.

#[local] Hint Resolve plainly_terminalBlock plainly_codeBlock plainly_notifyThinking
  plainly_notifyResponse : plainly.

Lemma plainly_turn (E : env) (O : options) (q : string) (p : option plan)
      (st : AgentOrchestrator.loopState) :
  plainly (AgentOrchestrator.turn E O q p st).
Proof. unfold AgentOrchestrator.turn. plainly_auto. Qed.

Lemma plainly_iterate (E : env) (O : options) (q : string) (p : option plan) (fuel : nat) :
  forall st, plainly (AgentOrchestrator.iterate E fuel O q p st).
Proof.
  induction fuel as [|k IH]; intros st; cbn [AgentOrchestrator.iterate].
  - intros w. reflexivity.
  - apply plainly_bind; [apply plainly_turn|]. intros r.
    destruct (fst r); [apply IH | apply plainly_ret].
Qed.

(** X24. [orchestrateSimple] never calls the landscape agent or the plan
    agent, whatever the query and whatever [skipLandscape] the caller
    gives, also when it fails; and what it resolves to holds no landscape
    and no plan. *)
Theorem simple_mode_skips_the_analysis (E : env) (fuel : nat) (q : string) (O : options)
        (w : world) :
  analysisCalls (snd (AgentOrchestrator.orchestrateSimple E fuel q O w)) = analysisCalls w
  /\ forall r, fst (AgentOrchestrator.orchestrateSimple E fuel q O w) = Ok r ->
               AgentOrchestrator.orLandscape r = None /\ AgentOrchestrator.orPlan r = None.
Proof.
  unfold AgentOrchestrator.orchestrateSimple.
  set (O' := mkOptions (userContext O) (askApproval O) (onThinking O) (onResponse O) true).
  split.
  - assert (Hp : plainly (AgentOrchestrator.orchestrate E fuel q O')).
    { unfold AgentOrchestrator.orchestrate, AgentOrchestrator.tryBlock,
        AgentOrchestrator.analyse.
      cbn [skipLandscape O' negb andb].
      apply plainly_try; [|intros; plainly_auto].
      apply plainly_bind; [apply plainly_loadNotes|]. intros notes.
      apply plainly_bind; [apply plainly_getMemoryContextString|]. intros mem.
      apply plainly_bind; [apply plainly_ret|]. intros lp.
      apply plainly_bind; [apply plainly_iterate|]. intros st. apply plainly_ret. }
    apply Hp.
  - intros r Hr.
    destruct (orchestrate_gates E fuel q O' w r Hr) as [G1 G2].
    assert (HL : AgentOrchestrator.orLandscape r = None).
    { destruct (AgentOrchestrator.orLandscape r) as [l|] eqn:Hl; [|reflexivity].
      destruct (G2 ltac:(discriminate)) as [Hs _]. discriminate. }
    split; [exact HL|].
    destruct (AgentOrchestrator.orPlan r) as [pl|] eqn:Hpl; [|reflexivity].
    destruct (G1 ltac:(discriminate)) as (l & Hl & _). rewrite HL in Hl. discriminate.
Qed.

(* ================================================================== *)
(** ** Declines in one call of orchestrate *)

Lemma queryBaseAgent_returns (E : env) (q c : string) (w : world) (r : response) :
  baseAgent E (List.length (agentCalls w)) q c = Returns r ->
  queryBaseAgent E q c w = (Ok r, logged (TurnCall q c) w).
Proof.
  intros H. unfold queryBaseAgent, logCall, Js.bind. cbn. rewrite H. reflexivity.
Qed.

(** The blockers noted for missing context leave everything but the notes
    and the clock. *)
Lemma trackMissing_durable (E : env) (l : list string) (w : world) :
  durable (notesFile w) = true ->
  exists w',
    AgentOrchestrator.trackMissing E l w = (Ok tt, w')
    /\ durable (notesFile w') = true
    /\ memoryFile w' = memoryFile w
    /\ agentCalls w' = agentCalls w
    /\ asked w' = asked w
    /\ commands w' = commands w.
Proof.
  unfold AgentOrchestrator.trackMissing. revert w.
  induction l as [|x l IH]; intros w Hd.
  - exists w. cbn. repeat split; auto.
  - cbn [Js.forEach]. unfold NotesManager.addBlocker at 1.
    rewrite (bind_Ok _ _ _ _ _ (addUnder_durable E _ _ w Hd)).
    destruct (IH (withLine E "## Blockers" ("Missing: " ++ x) w) (withLine_durable _ _ _ _))
      as (w' & H1 & H2 & H3 & H4 & H5 & H6).
    exists w'. split; [exact H1|]. split; [exact H2|].
    split; [rewrite H3; reflexivity|]. split; [rewrite H4; reflexivity|].
    split; [rewrite H5; reflexivity | rewrite H6; reflexivity].
Qed.

(** One pass of the loop in which the command proposed is declined: the
    value of [continueLoop], the variables and the world at its end. *)
Lemma turn_declined (E : env) (O : options) (q : string) (p : option plan)
      (st : AgentOrchestrator.loopState)
      (f : nat -> string -> string -> completion bool) (r : response) (w : world) :
  (forall n w0, AgentOrchestrator.notifyThinking O n w0 = (Ok tt, w0)) ->
  (forall r0 n w0, AgentOrchestrator.notifyResponse O r0 n w0 = (Ok tt, w0)) ->
  askApproval O = Some f ->
  (forall n c why, f n c why = Returns false) ->
  baseAgent E (List.length (agentCalls w)) q
    (AgentOrchestrator.buildContextString (AgentOrchestrator.lsAgentContext st)) = Returns r ->
  choice r = "terminalCommand" ->
  requiresApproval r = true ->
  durable (notesFile w) = true ->
  durable (memoryFile w) = true ->
  List.length (interactions (stored (memoryFile w))) < MemorySystem.MAX_INTERACTIONS ->
  let d := AgentOrchestrator.trackDenial (AgentOrchestrator.lsDenialCount st)
             (AgentOrchestrator.lsLastDeniedCommand st) (terminalCommand r) in
  exists st' w',
    AgentOrchestrator.turn E O q p st w
    = (Ok (negb (Nat.leb AgentOrchestrator.MAX_DENIAL_RETRIES (fst d))
           && (continue r && Nat.ltb (S (AgentOrchestrator.lsIteration st))
                               AgentOrchestrator.MAX_CONTINUE_ITERATIONS), st'), w')
    /\ AgentOrchestrator.lsIteration st' = S (AgentOrchestrator.lsIteration st)
    /\ AgentOrchestrator.lsDenialCount st' = fst d
    /\ AgentOrchestrator.lsLastDeniedCommand st' = snd d
    /\ AgentOrchestrator.lsResponses st'
       = (AgentOrchestrator.lsResponses st ++ [declinedResponse r])%list
    /\ durable (notesFile w') = true
    /\ durable (memoryFile w') = true
    /\ List.length (interactions (stored (memoryFile w')))
       <= S (List.length (interactions (stored (memoryFile w))))
    /\ agentCalls w'
       = TurnCall q (AgentOrchestrator.buildContextString (AgentOrchestrator.lsAgentContext st))
           :: agentCalls w
    /\ asked w' = approvalOf r :: asked w
    /\ commands w' = commands w
    /\ (AgentOrchestrator.MAX_DENIAL_RETRIES <= fst d ->
        exists text declinedAt stoppedAt,
          notesFile w'
          = Holds true true (denialsNoted (terminalCommand r) declinedAt stoppedAt text)).
Proof.
  intros Hthink Hresp Hask Hdeny Hbase Hc Ha Hn Hm Hlen d.
  unfold AgentOrchestrator.turn.
  rewrite (bind_Ok _ _ _ _ _ (Hthink _ w)).
  rewrite (bind_Ok _ _ _ _ _ (queryBaseAgent_returns E q _ w r Hbase)).
  set (c := AgentOrchestrator.buildContextString (AgentOrchestrator.lsAgentContext st)).
  set (w1 := logged (TurnCall q c) w).
  set (st1 := AgentOrchestrator.mkLoopState _ _ _ _ _).
  assert (Hn1 : durable (notesFile w1) = true) by exact Hn.
  pose proof (terminalBlock_declined E O p r st1 f w1 Hc Ha Hask (Hdeny _ _ _) Hn1) as Hblock.
  unfold afterDecline in Hblock.
  cbn [snd fst AgentOrchestrator.lsDenialCount AgentOrchestrator.lsLastDeniedCommand
       AgentOrchestrator.lsResponses AgentOrchestrator.lsIteration
       AgentOrchestrator.lsAgentContext st1] in Hblock.
  fold d in Hblock. fold (declinedResponse r) in Hblock.
  destruct (Nat.leb AgentOrchestrator.MAX_DENIAL_RETRIES (fst d)) eqn:Hlimit.
  - rewrite (bind_Ok _ _ _ _ _ Hblock). unfold Js.ret, AgentOrchestrator.pushResponse.
    cbn [negb andb AgentOrchestrator.lsDenialCount AgentOrchestrator.lsLastDeniedCommand
         AgentOrchestrator.lsResponses AgentOrchestrator.lsIteration
         AgentOrchestrator.lsAgentContext].
    eexists. eexists. split; [reflexivity|].
    cbn [AgentOrchestrator.lsDenialCount AgentOrchestrator.lsLastDeniedCommand
         AgentOrchestrator.lsResponses AgentOrchestrator.lsIteration].
    split; [reflexivity|]. split; [reflexivity|]. split; [reflexivity|].
    split; [reflexivity|]. split; [reflexivity|]. split; [exact Hm|].
    split; [apply Nat.le_succ_diag_r|]. split; [reflexivity|]. split; [reflexivity|].
    split; [reflexivity|]. intros _. unfold denialsNoted.
    eexists. eexists. eexists. reflexivity.
  - rewrite (bind_Ok _ _ _ _ _ Hblock).
    unfold AgentOrchestrator.codeBlock.
    replace (choice (declinedResponse r)) with "terminalCommand" by (symmetry; exact Hc).
    change (String.eqb "terminalCommand" "code") with false. cbn iota.
    rewrite (bind_Ok _ _ _ _ _ (eq_refl : Js.ret tt (declineNoted E r w1) = (Ok tt, _))).
    destruct (trackMissing_durable E (missingContext (declinedResponse r))
                (declineNoted E r w1) (withLine_durable _ _ _ _))
      as (w2 & H1 & H2 & H3 & H4 & H5 & H6).
    rewrite (bind_Ok _ _ _ _ _ H1).
    rewrite (bind_Ok _ _ _ _ _ (Hresp _ _ w2)).
    assert (Hm2 : memoryFile w2 = memoryFile w) by (rewrite H3; reflexivity).
    assert (Hd2 : durable (memoryFile w2) = true) by (rewrite Hm2; exact Hm).
    assert (Hl2 : List.length (interactions (stored (memoryFile w2)))
                  < MemorySystem.MAX_INTERACTIONS) by (rewrite Hm2; exact Hlen).
    rewrite (bind_Ok _ _ _ _ _ (addInteraction_appends E _ _ w2 Hd2 Hl2)).
    unfold Js.ret, AgentOrchestrator.pushResponse.
    cbn [negb andb AgentOrchestrator.lsDenialCount AgentOrchestrator.lsLastDeniedCommand
         AgentOrchestrator.lsResponses AgentOrchestrator.lsIteration
         AgentOrchestrator.lsAgentContext].
    replace (continue (declinedResponse r)) with (continue r) by reflexivity.
    eexists. eexists. split; [reflexivity|].
    cbn [AgentOrchestrator.lsDenialCount AgentOrchestrator.lsLastDeniedCommand
         AgentOrchestrator.lsResponses AgentOrchestrator.lsIteration].
    split; [reflexivity|]. split; [reflexivity|]. split; [reflexivity|].
    split; [reflexivity|]. split; [exact H2|]. split; [reflexivity|].
    split.
    { cbn [Fs.setMemoryFile memoryFile stored appended interactions].
      rewrite length_app, Hm2. cbn [List.length]. rewrite Nat.add_1_r. apply Nat.le_refl. }
    split; [cbn [Fs.setMemoryFile setClock agentCalls]; rewrite H4; reflexivity|].
    split; [cbn [Fs.setMemoryFile setClock asked]; rewrite H5; reflexivity|].
    split; [cbn [Fs.setMemoryFile setClock commands]; rewrite H6; reflexivity|].
    intros Hle. apply Nat.leb_le in Hle. rewrite Hlimit in Hle. discriminate.
Qed.

Lemma map_seq_first {A} (g : nat -> A) (i m : nat) :
  List.map g (List.seq i (S m)) = g i :: List.map g (List.seq (S i) m).
Proof. reflexivity. Qed.

Section Declines.

Variable E : env.
Variable O : options.
Variable q : string.
Variable p : option plan.
Variable f : nat -> string -> string -> completion bool.
Variable proposed : nat -> response.
Variable first k : nat.

Hypothesis Hthink : forall n w0, AgentOrchestrator.notifyThinking O n w0 = (Ok tt, w0).
Hypothesis Hresp : forall r0 n w0, AgentOrchestrator.notifyResponse O r0 n w0 = (Ok tt, w0).
Hypothesis Hask : askApproval O = Some f.
Hypothesis Hdeny : forall n c why, f n c why = Returns false.
Hypothesis Hbase : forall j c, j < k -> baseAgent E (first + j) q c = Returns (proposed j).
Hypothesis Hkind : forall j, j < k -> choice (proposed j) = "terminalCommand"
                                      /\ requiresApproval (proposed j) = true.
Hypothesis Hk : 1 <= k <= AgentOrchestrator.MAX_CONTINUE_ITERATIONS.
Hypothesis Hcont : forall j, S j < k -> continue (proposed j) = true.
Hypothesis Hdiff : forall j, S (S j) < k ->
                             terminalCommand (proposed j) <> terminalCommand (proposed (S j)).
Hypothesis Hend : k = AgentOrchestrator.MAX_CONTINUE_ITERATIONS
                  \/ continue (proposed (k - 1)) = false
                  \/ repeatsLast proposed k = true.

(** The loop from its pass [i + 1] on, when [m + 1] passes are left. *)
Lemma iterate_declines (m : nat) :
  forall (i : nat) (st : AgentOrchestrator.loopState) (w : world) (fuel : nat),
    i + S m = k ->
    S m <= fuel ->
    AgentOrchestrator.lsIteration st = i ->
    (i = 0 -> AgentOrchestrator.lsDenialCount st = 0
              /\ AgentOrchestrator.lsLastDeniedCommand st = None) ->
    (forall i', i = S i' ->
                AgentOrchestrator.lsDenialCount st = 1
                /\ AgentOrchestrator.lsLastDeniedCommand st
                   = Some (terminalCommand (proposed i'))) ->
    List.length (agentCalls w) = first + i ->
    durable (notesFile w) = true ->
    durable (memoryFile w) = true ->
    List.length (interactions (stored (memoryFile w))) + S m <= MemorySystem.MAX_INTERACTIONS ->
    exists st' w',
      AgentOrchestrator.iterate E fuel O q p st w = (Ok st', w')
      /\ AgentOrchestrator.lsIteration st' = k
      /\ AgentOrchestrator.lsDenialCount st' = (if repeatsLast proposed k then 2 else 1)
      /\ AgentOrchestrator.lsLastDeniedCommand st'
         = Some (terminalCommand (proposed (k - 1)))
      /\ AgentOrchestrator.lsResponses st'
         = (AgentOrchestrator.lsResponses st
            ++ List.map (fun j => declinedResponse (proposed j)) (List.seq i (S m)))%list
      /\ commands w' = commands w
      /\ asked w'
         = (List.rev (List.map (fun j => approvalOf (proposed j)) (List.seq i (S m)))
            ++ asked w)%list
      /\ List.length (turnsOf w') = List.length (turnsOf w) + S m
      /\ (repeatsLast proposed k = true ->
          exists text declinedAt stoppedAt,
            notesFile w'
            = Holds true true
                (denialsNoted (terminalCommand (proposed (k - 1))) declinedAt stoppedAt text)).
Proof.
  induction m as [|m IH]; intros i st w fuel Hi Hfuel Hit H0 HS Hcalls Hn Hm Hroom.
  - (* the last pass *)
    destruct fuel as [|fuel]; [inversion Hfuel|].
    assert (Hik : i < k) by (rewrite <- Hi; rewrite Nat.add_1_r; apply Nat.lt_succ_diag_r).
    assert (Hb : baseAgent E (List.length (agentCalls w)) q
                   (AgentOrchestrator.buildContextString (AgentOrchestrator.lsAgentContext st))
                 = Returns (proposed i)) by (rewrite Hcalls; apply Hbase; exact Hik).
    destruct (Hkind i Hik) as [Hc Ha].
    assert (Hlen : List.length (interactions (stored (memoryFile w)))
                   < MemorySystem.MAX_INTERACTIONS)
      by (apply Nat.lt_le_trans with (2 := Hroom); rewrite Nat.add_1_r;
          apply Nat.lt_succ_diag_r).
    destruct (turn_declined E O q p st f (proposed i) w Hthink Hresp Hask Hdeny Hb Hc Ha
                Hn Hm Hlen)
      as (st' & w' & Hturn & T1 & T2 & T3 & T4 & T5 & T6 & T7 & T8 & T9 & T10 & T11).
    assert (Hk1 : k - 1 = i) by (rewrite <- Hi, Nat.add_1_r; simpl; apply Nat.sub_0_r).
    (* the counter after the pass *)
    assert (Hd : AgentOrchestrator.trackDenial (AgentOrchestrator.lsDenialCount st)
                   (AgentOrchestrator.lsLastDeniedCommand st) (terminalCommand (proposed i))
                 = (if repeatsLast proposed k then 2 else 1,
                    Some (terminalCommand (proposed i)))).
    { unfold repeatsLast. rewrite Hk1.
      destruct i as [|i'].
      - destruct (H0 eq_refl) as [G1 G2]. rewrite G1, G2.
        replace k with 1 by (rewrite <- Hi; reflexivity). reflexivity.
      - destruct (HS i' eq_refl) as [G1 G2]. rewrite G1, G2.
        replace k with (S (S i')) by (rewrite <- Hi, Nat.add_1_r; reflexivity).
        cbn [Nat.leb andb Nat.sub AgentOrchestrator.trackDenial].
        rewrite Nat.sub_0_r.
        destruct (String.eqb (terminalCommand (proposed i')) (terminalCommand (proposed (S i'))))
          eqn:He; [|reflexivity].
        apply String.eqb_eq in He. rewrite He. reflexivity. }
    rewrite Hd in *. cbn [fst snd] in *.
    assert (Hstop : negb (Nat.leb AgentOrchestrator.MAX_DENIAL_RETRIES
                            (if repeatsLast proposed k then 2 else 1))
                    && (continue (proposed i)
                        && Nat.ltb (S (AgentOrchestrator.lsIteration st))
                             AgentOrchestrator.MAX_CONTINUE_ITERATIONS) = false).
    { destruct Hend as [He | [He | He]].
      - rewrite Hit. replace (S i) with k by (rewrite <- Hi, Nat.add_1_r; reflexivity).
        rewrite He, Nat.ltb_irrefl, !Bool.andb_false_r. reflexivity.
      - rewrite Hk1 in He. rewrite He, Bool.andb_false_r. reflexivity.
      - rewrite He. reflexivity. }
    rewrite Hstop in Hturn.
    cbn [AgentOrchestrator.iterate]. rewrite (bind_Ok _ _ _ _ _ Hturn). cbn [fst snd].
    exists st', w'. split; [reflexivity|].
    split; [rewrite T1, Hit, <- Hi, Nat.add_1_r; reflexivity|].
    split; [exact T2|]. split; [rewrite Hk1; exact T3|].
    split; [exact T4|]. split; [exact T10|]. split; [exact T9|].
    split; [unfold turnsOf; rewrite T8; cbn [turnCalls List.length]; rewrite Nat.add_1_r;
            reflexivity|].
    intros Hr. rewrite Hk1. apply T11. rewrite Hr. apply Nat.le_refl.
  - (* a pass that is not the last *)
    destruct fuel as [|fuel]; [inversion Hfuel|].
    assert (Hik : i < k)
      by (rewrite <- Hi; apply Nat.lt_add_pos_r; apply Nat.lt_0_succ).
    assert (Hnext : S i < k)
      by (rewrite <- Hi, <- Nat.add_succ_comm; apply Nat.lt_add_pos_r; apply Nat.lt_0_succ).
    assert (Hb : baseAgent E (List.length (agentCalls w)) q
                   (AgentOrchestrator.buildContextString (AgentOrchestrator.lsAgentContext st))
                 = Returns (proposed i)) by (rewrite Hcalls; apply Hbase; exact Hik).
    destruct (Hkind i Hik) as [Hc Ha].
    assert (Hlen : List.length (interactions (stored (memoryFile w)))
                   < MemorySystem.MAX_INTERACTIONS)
      by (apply Nat.lt_le_trans with (2 := Hroom); apply Nat.lt_add_pos_r; apply Nat.lt_0_succ).
    destruct (turn_declined E O q p st f (proposed i) w Hthink Hresp Hask Hdeny Hb Hc Ha
                Hn Hm Hlen)
      as (st' & w' & Hturn & T1 & T2 & T3 & T4 & T5 & T6 & T7 & T8 & T9 & T10 & T11).
    assert (Hd : AgentOrchestrator.trackDenial (AgentOrchestrator.lsDenialCount st)
                   (AgentOrchestrator.lsLastDeniedCommand st) (terminalCommand (proposed i))
                 = (1, Some (terminalCommand (proposed i)))).
    { destruct i as [|i'].
      - destruct (H0 eq_refl) as [G1 G2]. rewrite G1, G2. reflexivity.
      - destruct (HS i' eq_refl) as [G1 G2]. rewrite G1, G2.
        cbn [AgentOrchestrator.trackDenial].
        destruct (String.eqb (terminalCommand (proposed i')) (terminalCommand (proposed (S i'))))
          eqn:He; [|reflexivity].
        apply String.eqb_eq in He. exfalso. exact (Hdiff i' Hnext He). }
    rewrite Hd in *. cbn [fst snd] in *.
    assert (Hgo : negb (Nat.leb AgentOrchestrator.MAX_DENIAL_RETRIES 1)
                  && (continue (proposed i)
                      && Nat.ltb (S (AgentOrchestrator.lsIteration st))
                           AgentOrchestrator.MAX_CONTINUE_ITERATIONS) = true).
    { rewrite (Hcont i Hnext), Hit.
      replace (Nat.ltb (S i) AgentOrchestrator.MAX_CONTINUE_ITERATIONS) with true.
      - reflexivity.
      - symmetry. apply Nat.ltb_lt. apply Nat.lt_le_trans with (1 := Hnext). apply Hk. }
    rewrite Hgo in Hturn.
    cbn [AgentOrchestrator.iterate]. rewrite (bind_Ok _ _ _ _ _ Hturn). cbn [fst snd].
    destruct (IH (S i) st' w' fuel) as (st2 & w2 & R0 & R1 & R2 & R3 & R4 & R5 & R6 & R7 & R8).
    + rewrite <- Hi. rewrite Nat.add_succ_comm. reflexivity.
    + apply le_S_n. exact Hfuel.
    + rewrite T1, Hit. reflexivity.
    + intros Hx. discriminate.
    + intros i' Hx. injection Hx as Hx. subst i'. split; [exact T2 | exact T3].
    + rewrite T8. cbn [List.length]. rewrite Hcalls, Nat.add_succ_r. reflexivity.
    + exact T5.
    + exact T6.
    + apply Nat.le_trans with (2 := Hroom).
      apply Nat.le_trans with (S (List.length (interactions (stored (memoryFile w)))) + S m).
      * apply Nat.add_le_mono_r. exact T7.
      * rewrite Nat.add_succ_comm. apply Nat.le_refl.
    + exists st2, w2. split; [exact R0|]. split; [exact R1|]. split; [exact R2|].
      split; [exact R3|].
      split.
      { rewrite R4, T4, <- app_assoc. rewrite (map_seq_first _ i (S m)). reflexivity. }
      split; [rewrite R5; exact T10|].
      split.
      { rewrite R6, T9. rewrite (map_seq_first _ i (S m)).
        cbn [List.rev]. rewrite <- app_assoc. reflexivity. }
      split.
      { rewrite R7. unfold turnsOf at 1. rewrite T8. cbn [turnCalls List.length].
        fold (turnsOf w). rewrite Nat.add_succ_comm. reflexivity. }
      exact R8.
Qed.

End Declines.


